(** * Limits_droper: the package power-limit codec, unit conversion,
      MCHBAR base discovery, helper-state parsing and the apply/sync
      workflows, embedded from the C and C++ sources. *)

From Stdlib Require Import ZArith Lia Bool List.
From Stdlib Require Import Floats.SpecFloat.
From Stdlib Require Import Strings.Ascii Strings.Byte.
From stdpp Require Import gmap strings.

Local Open Scope Z_scope.

(** ** Fixed-width unsigned integers

    [uintN_t] values are integers in [0, 2^N); a cast to a narrower type
    keeps the low bits. *)

Module Wrap.

Definition u16 (x : Z) : Z := x mod 2 ^ 16.
Definition u32 (x : Z) : Z := x mod 2 ^ 32.
Definition u64 (x : Z) : Z := x mod 2 ^ 64.

(** [~x] on a 32-bit, respectively 64-bit, unsigned operand. *)
Definition not32 (x : Z) : Z := u32 (Z.lnot x).
Definition not64 (x : Z) : Z := u64 (Z.lnot x).

Definition is_u16 (x : Z) : Prop := 0 <= x < 2 ^ 16.
Definition is_u32 (x : Z) : Prop := 0 <= x < 2 ^ 32.
Definition is_u64 (x : Z) : Prop := 0 <= x < 2 ^ 64.

End Wrap.
Import Wrap.

(** ** Power-limit codec *)

Module Codec.

(** [apply_pl_units] of the Qt front end; [set_pl_units] of [limits_ui.c]
    has the same body. *)
Definition apply_pl_units (cur pl1_units pl2_units : Z) : Z :=
  let lo := u32 (Z.land cur 0xffffffff) in
  let hi := u32 (Z.shiftr cur 32) in
  let lo := Z.lor (Z.land lo (not32 0x7FFF)) (Z.land (u32 pl1_units) 0x7FFF) in
  let hi := Z.lor (Z.land hi (not32 0x7FFF)) (Z.land (u32 pl2_units) 0x7FFF) in
  Z.lor (u64 (Z.shiftl (u64 hi) 32)) lo.

Definition set_pl_units (cur pl1_units pl2_units : Z) : Z :=
  let lo := u32 (Z.land cur 0xffffffff) in
  let hi := u32 (Z.shiftr cur 32) in
  let lo := Z.lor (Z.land lo (not32 0x7FFF)) (Z.land (u32 pl1_units) 0x7FFF) in
  let hi := Z.lor (Z.land hi (not32 0x7FFF)) (Z.land (u32 pl2_units) 0x7FFF) in
  Z.lor (u64 (Z.shiftl (u64 hi) 32)) lo.

(** [replace_power_field] of [mchbar_pl_write], and the way its [main]
    joins the two halves in the [--set] branch. *)
Definition replace_power_field (cur new_units : Z) : Z :=
  Z.lor (Z.land cur (not32 0x7FFF)) (Z.land (u32 new_units) 0x7FFF).

Definition pl_write_target (orig pl1_units pl2_units : Z) : Z :=
  let lo := u32 (Z.land orig 0xffffffff) in
  let hi := u32 (Z.shiftr orig 32) in
  let lo2 := replace_power_field lo pl1_units in
  let hi2 := replace_power_field hi pl2_units in
  Z.lor (u64 (Z.shiftl (u64 hi2) 32)) lo2.

(** The two unit fields as [print_pl], [update_msr] and [update_mmio]
    read them. *)
Definition decode_pl1 (val : Z) : Z := u16 (Z.land val 0x7FFF).
Definition decode_pl2 (val : Z) : Z := u16 (Z.land (Z.shiftr val 32) 0x7FFF).
Definition decode (val : Z) : Z * Z := (decode_pl1 val, decode_pl2 val).

(** The mask of the two 15-bit power fields. *)
Definition power_fields : Z := 0x7FFF00007FFF.

End Codec.
Import Codec.

(** ** IEEE 754 binary64 arithmetic

    [double] values are the [spec_float]s of binary64, operations round
    to nearest, ties to even. *)

Module Float64.

Definition double : Type := spec_float.

Definition prec : Z := 53.
Definition emax : Z := 1024.

Definition fmul : double -> double -> double := SFmul prec emax.
Definition fdiv : double -> double -> double := SFdiv prec emax.
Definition fle : double -> double -> bool := SFleb.
Definition flt : double -> double -> bool := SFltb.
Definition feq : double -> double -> bool := SFeqb.

(** Conversion of an integer to [double]. *)
Definition of_Z (n : Z) : double := binary_normalize prec emax n 0 false.

(** The [spec_float]s that are binary64 values. *)
Definition is_double (x : double) : bool := valid_binary prec emax x.

Definition is_finite (x : double) : bool :=
  match x with
  | S754_zero _ | S754_finite _ _ _ => true
  | _ => false
  end.

Definition LLONG_MIN : Z := - 2 ^ 63.
Definition LLONG_MAX : Z := 2 ^ 63 - 1.

(** Rounding to the nearest integer, halfway cases away from zero. *)
Definition round_half_away (x : double) : option Z :=
  match x with
  | S754_zero _ => Some 0
  | S754_finite s m e =>
      let a := if 0 <=? e then Z.pos m * 2 ^ e
               else
                 let d := 2 ^ (- e) in
                 let q := Z.pos m / d in
                 let r := Z.pos m mod d in
                 if d <=? 2 * r then q + 1 else q in
      Some (if s then - a else a)
  | _ => None
  end.

Definition llround_in_range (x : double) : bool :=
  match round_half_away x with
  | Some v => (LLONG_MIN <=? v) && (v <=? LLONG_MAX)
  | None => false
  end.

(** [llround]. Where the rounded value does not fit [long long] (or the
    argument is not finite) C leaves the result unspecified; it is taken
    to be [LLONG_MIN], what the conversion yields on x86-64, the only
    platform with these registers. *)
Definition llround (x : double) : Z :=
  match round_half_away x with
  | Some v => if (LLONG_MIN <=? v) && (v <=? LLONG_MAX) then v else LLONG_MIN
  | None => LLONG_MIN
  end.

Definition zero : double := S754_zero false.
Definition one : double := of_Z 1.

(** The literals [1.024], [5000.0] and [1000000.0]. *)
Definition kUvMvScale : double := S754_finite false 0x10624DD2F1A9FC (-52).
Definition d5000 : double := of_Z 5000.
Definition d1e6 : double := of_Z 1000000.

(** The mantissa of [kUvMvScale]. *)
Definition scale_mantissa : Z := 0x10624DD2F1A9FC.

(** The location [l] that rounding is told for a value [m + r / c],
    [0 <= r < c]: exact, or below, at or above the midpoint. *)
Definition loc_of (r c : Z) (l : location) : Prop :=
  (r = 0 /\ l = loc_Exact) \/ (0 < r /\ l = loc_Inexact (2 * r ?= c)).

End Float64.
Import Float64.

(** ** Watts, units and the voltage-offset step *)

Module Units.

Definition quantize_uv_mv (mv : double) : double :=
  fdiv (of_Z (llround (fmul mv kUvMvScale))) kUvMvScale.

(** The step count [llround(mv * 1.024)] that [quantize_uv_mv] divides. *)
Definition uv_steps (mv : double) : Z := llround (fmul mv kUvMvScale).

(** [units_to_text] and [print_pl]: units back to watts. *)
Definition units_to_watts (units : Z) (unit_watts : double) : double :=
  fmul (of_Z units) unit_watts.

(** [unit_watts = 1.0 / (double)(1u << power_unit)] of the C tools, with
    [power_unit = rapl_units & 0x0F]. *)
Definition power_unit_of (rapl_units : Z) : Z := Z.land rapl_units 0x0F.

Definition unit_watts_of (power_unit : Z) : double :=
  fdiv one (of_Z (u32 (Z.shiftl 1 power_unit))).

(** The arithmetic of [build_units] (Qt front end) for one limit: the
    rounded quotient is widened to [uint64_t] and tested before it is
    narrowed to [uint16_t]. *)
Definition calc_units (w unit_watts : double) : Z :=
  u64 (llround (fdiv w unit_watts)).

Definition units_in_range (calc : Z) : bool :=
  negb ((calc =? 0) || (0x7FFF <? calc)).

Definition build_units_values (unit_watts pl1_w pl2_w : double)
  : option (Z * Z) :=
  let pl1_calc := calc_units pl1_w unit_watts in
  let pl2_calc := calc_units pl2_w unit_watts in
  if (pl1_calc =? 0) || (pl2_calc =? 0)
     || (0x7FFF <? pl1_calc) || (0x7FFF <? pl2_calc)
  then None
  else Some (u16 pl1_calc, u16 pl2_calc).

(** The conversion of [set_limits] in [limits_ui.c] and of the scanner's
    [main]: the rounded quotient is narrowed to [uint16_t] first and
    tested afterwards. *)
Definition narrow_units (w unit_watts : double) : Z :=
  u16 (llround (fdiv w unit_watts)).

Definition set_limits_units (unit_watts pl1_w pl2_w : double)
  : option (Z * Z) :=
  let pl1_units := narrow_units pl1_w unit_watts in
  let pl2_units := narrow_units pl2_w unit_watts in
  if (pl1_units =? 0) || (pl2_units =? 0)
     || (0x7FFF <? pl1_units) || (0x7FFF <? pl2_units)
  then None
  else Some (pl1_units, pl2_units).

(** [round(watts * 1e6)] as [uint64_t], for the kernel powercap files. *)
Definition watts_to_uw (w : double) : Z := u64 (llround (fmul w d1e6)).

(** Whether dividing [n] steps by the scale and multiplying back rounds
    to [n] steps again, the quotient being a number. *)
Definition steps_stable (n : Z) : bool :=
  let q := fdiv (of_Z n) kUvMvScale in
  (llround (fmul q kUvMvScale) =? n) && feq q q.

(** [P] on each of the [2 ^ depth] integers from [lo] on. *)
Fixpoint block (P : Z -> bool) (depth : nat) (lo : Z) : bool :=
  match depth with
  | O => P lo
  | S d => block P d lo && block P d (lo + 2 ^ Z.of_nat d)
  end.

Definition small_steps (n : Z) : Prop := - 4096 <= n < 4096.

Definition spin_steps_small (mv : Z) : bool :=
  (- 4096 <=? uv_steps (of_Z mv)) && (uv_steps (of_Z mv) <? 4096).

End Units.
Import Units.

(** ** MCHBAR base discovery ([mchbar_base.h]) *)

Module Mchbar.

Local Open Scope string_scope.
Local Open Scope Z_scope.

Definition PATH_MAX : Z := 4096.

(** What the two sysfs identification files of a device directory yield
    through [mchbar_read_sysfs_hex_u32]: [None] when the file cannot be
    opened, read or scanned as [0x...]. *)
Record pci_ident := {
  class_val : option Z;
  vendor_val : option Z
}.

(** A PCI [config] file as [mchbar_read_config_u64] meets it. *)
Inductive config_file :=
| CfgNoOpen
| CfgNoSeek
| CfgReadError
| CfgBytes (content : list Byte.byte).

Record sysfs := {
  ident_of : string -> pci_ident;
  dir_entries : option (list string);
  config_of : string -> config_file
}.

Inductive mchbar_error :=
| PathTooLong
| OpenDevicesFailed
| HostBridgeNotFound
| OpenConfigFailed
| SeekConfigFailed (offset : Z)
| ReadConfigFailed (offset : Z)
| ShortRead (offset : Z) (n : Z)
| MchbarDisabled (val : Z)
| BaseIsZero (val : Z).

Inductive result (A : Type) :=
| Ok (a : A)
| Err (e : mchbar_error).
Arguments Ok {A} a.
Arguments Err {A} e.

Definition mchbar_is_intel_host_bridge (fs : sysfs) (dev_path : string)
  : bool :=
  match class_val (ident_of fs dev_path) with
  | None => false
  | Some class_val =>
      match vendor_val (ident_of fs dev_path) with
      | None => false
      | Some vendor_val =>
          if negb (vendor_val =? 0x8086) then false
          else if negb (Z.land class_val 0xFFFF00 =? 0x060000) then false
          else true
      end
  end.

Definition strlen (s : string) : Z := Z.of_nat (String.length s).

Definition starts_with_dot (name : string) : bool :=
  match name with
  | String c _ => Ascii.eqb c "."%char
  | EmptyString => false
  end.

(** The body of the [readdir] loop, over the entries still to come. *)
Fixpoint scan_devices (fs : sysfs) (out_sz : Z) (ents : list string)
  : result string :=
  match ents with
  | [] => Err HostBridgeNotFound
  | d_name :: rest =>
      if starts_with_dot d_name then scan_devices fs out_sz rest
      else
        let dev_path := "/sys/bus/pci/devices/" +:+ d_name in
        if negb (mchbar_is_intel_host_bridge fs dev_path)
        then scan_devices fs out_sz rest
        else if out_sz <? strlen dev_path + strlen "/config" + 1
             then Err PathTooLong
             else Ok (dev_path +:+ "/config")
  end.

Definition mchbar_find_host_bridge_config (fs : sysfs) (out_sz : Z)
  : result string :=
  let primary := "/sys/bus/pci/devices/0000:00:00.0" in
  if mchbar_is_intel_host_bridge fs primary then
    if out_sz <? strlen primary + strlen "/config" + 1
    then Err PathTooLong
    else Ok (primary +:+ "/config")
  else
    match dir_entries fs with
    | None => Err OpenDevicesFailed
    | Some ents => scan_devices fs out_sz ents
    end.

(** A [uint64_t] read from memory, least significant byte first. *)
Definition le_u64 (bs : list Byte.byte) : Z :=
  fold_right (fun b acc => Z.of_N (Byte.to_N b) + 256 * acc) 0 bs.

(** The bytes a [read] of [count] bytes at [offset] delivers. *)
Definition read_at (content : list Byte.byte) (offset count : Z)
  : list Byte.byte :=
  firstn (Z.to_nat count) (skipn (Z.to_nat offset) content).

Definition mchbar_read_config_u64 (fs : sysfs) (config_path : string)
  (offset : Z) : result Z :=
  match config_of fs config_path with
  | CfgNoOpen => Err OpenConfigFailed
  | CfgNoSeek => Err (SeekConfigFailed offset)
  | CfgReadError => Err (ReadConfigFailed offset)
  | CfgBytes content =>
      let got := read_at content offset 8 in
      let n := Z.of_nat (length got) in
      if negb (n =? 8) then Err (ShortRead offset n)
      else Ok (le_u64 got)
  end.

Definition mchbar_get_base (fs : sysfs) : result Z :=
  match mchbar_find_host_bridge_config fs PATH_MAX with
  | Err e => Err e
  | Ok config_path =>
      match mchbar_read_config_u64 fs config_path 0x48 with
      | Err e => Err e
      | Ok val =>
          if Z.land val 0x1 =? 0 then Err (MchbarDisabled val)
          else
            let base := Z.land val (not64 0xFFF) in
            if base =? 0 then Err (BaseIsZero val)
            else Ok base
      end
  end.

(** The three kinds of failure the resolver distinguishes once the host
    bridge is located. *)
Definition is_io_error (e : mchbar_error) : bool :=
  match e with
  | OpenConfigFailed | SeekConfigFailed _ | ReadConfigFailed _
  | ShortRead _ _ => true
  | _ => false
  end.

Definition devices_dir : string := "/sys/bus/pci/devices/".
Definition primary_device : string := "/sys/bus/pci/devices/0000:00:00.0".

(** A directory entry that the scan passes over. *)
Definition passed_over (fs : sysfs) (d_name : string) : Prop :=
  starts_with_dot d_name = true
  \/ mchbar_is_intel_host_bridge fs (devices_dir +:+ d_name) = false.

(** A platform whose host bridge sits at the conventional address and
    whose register at [0x48] holds [0x00000000FEDC0001]. *)
Definition desktop_config : list Byte.byte :=
  (repeat Byte.x00 72 ++
   [Byte.x01; Byte.x00; Byte.xdc; Byte.xfe;
    Byte.x00; Byte.x00; Byte.x00; Byte.x00] ++ repeat Byte.x00 176)%list.

Definition desktop_sysfs : sysfs := {|
  ident_of := fun dev_path =>
    if String.eqb dev_path "/sys/bus/pci/devices/0000:00:00.0"
    then {| class_val := Some 0x060000; vendor_val := Some 0x8086 |}
    else {| class_val := None; vendor_val := None |};
  dir_entries := Some [".."; "."; "0000:00:00.0"];
  config_of := fun config_path =>
    if String.eqb config_path "/sys/bus/pci/devices/0000:00:00.0/config"
    then CfgBytes desktop_config
    else CfgNoOpen
|}.

End Mchbar.

(** ** The helper's [--read] response ([HelperBackend::parse_state]) *)

Module HelperState.

Local Open Scope string_scope.
Local Open Scope Z_scope.

Record ReadState := {
  power_unit : Z;
  unit_watts : double;
  msr : Z;
  mmio : Z;
  core_type_supported : bool;
  p_cpus : string;
  e_cpus : string;
  u_cpus : string;
  p_ratio_valid : bool;
  e_ratio_valid : bool;
  p_ratio : Z;
  e_ratio : Z;
  p_ratio_cur_valid : bool;
  e_ratio_cur_valid : bool;
  p_ratio_cur : Z;
  e_ratio_cur : Z;
  core_uv_valid : bool;
  core_uv_mv : double;
  core_uv_raw : string
}.

(** The answer of a helper round trip: a value, or the error text. *)
Inductive reply (A : Type) :=
| Replied (a : A)
| Failed (err : string).
Arguments Replied {A} a.
Arguments Failed {A} err.

(** *** The [QString] operations used *)

Definition is_space (c : ascii) : bool :=
  let n := Z.of_N (N_of_ascii c) in
  ((9 <=? n) && (n <=? 13)) || (n =? 32).

Definition is_empty (s : string) : bool :=
  match s with
  | EmptyString => true
  | String _ _ => false
  end.

Fixpoint ltrim (s : string) : string :=
  match s with
  | EmptyString => EmptyString
  | String a r => if is_space a then ltrim r else s
  end.

Fixpoint rtrim (s : string) : string :=
  match s with
  | EmptyString => EmptyString
  | String a r =>
      let r' := rtrim r in
      if is_space a && is_empty r' then EmptyString else String a r'
  end.

Definition trimmed (s : string) : string := rtrim (ltrim s).

(** [indexOf]: the position of the first [c], or [-1]. *)
Fixpoint indexOf_from (c : ascii) (s : string) (i : Z) : Z :=
  match s with
  | EmptyString => -1
  | String a r => if Ascii.eqb a c then i else indexOf_from c r (i + 1)
  end.

Definition indexOf (s : string) (c : ascii) : Z := indexOf_from c s 0.

Definition left (n : Z) (s : string) : string :=
  String.substring 0 (Z.to_nat n) s.

Definition mid (n : Z) (s : string) : string :=
  String.substring (Z.to_nat n) (String.length s - Z.to_nat n) s.

Definition newline : ascii := "010"%char.

(** [split(sep)], and [split(sep, Qt::SkipEmptyParts)]. *)
Fixpoint split (sep : ascii) (s : string) : list string :=
  match s with
  | EmptyString => [EmptyString]
  | String a r =>
      if Ascii.eqb a sep then EmptyString :: split sep r
      else
        match split sep r with
        | h :: t => String a h :: t
        | [] => [String a EmptyString]
        end
  end.

Definition split_skip_empty (sep : ascii) (s : string) : list string :=
  List.filter (fun part => negb (is_empty part)) (split sep s).

(** [QHash::value(key)]: the stored text, or an empty [QString]. *)
Definition value (values : gmap string string) (key : string) : string :=
  default "" (values !! key).

(** One turn of the loop over the lines. *)
Definition collect_line (values : gmap string string) (line : string)
  : gmap string string :=
  let idx := indexOf line "="%char in
  if idx <=? 0 then values
  else
    let key := trimmed (left idx line) in
    let value := trimmed (mid (idx + 1) line) in
    <[key := value]> values.

Definition collect (lines : list string) : gmap string string :=
  fold_left collect_line lines ∅.

(** Whether a line is one that stores something under [key]. *)
Definition defines (key : string) (line : string) : bool :=
  let idx := indexOf line "="%char in
  negb (idx <=? 0) && String.eqb (trimmed (left idx line)) key.

(** A response text in which no line stores anything under [key]. *)
Definition lacks (out : string) (key : string) : Prop :=
  forall line, In line (split_skip_empty newline out) ->
               defines key line = false.

Definition lacksb (out : string) (key : string) : bool :=
  forallb (fun line => negb (defines key line))
    (split_skip_empty newline out).

Definition required_keys : list string :=
  ["POWER_UNIT"; "UNIT_WATTS"; "MSR"; "MMIO"].

Section Conversions.

(** [QString::toInt], [QString::toDouble] and [QString::toULongLong] with
    base 0, each yielding [None] where Qt clears [ok]. *)
Variable toInt : string -> option Z.
Variable toDouble : string -> option double.
Variable toULongLong : string -> option Z.

(** Qt's conversions return zero when they fail. *)
Definition int_or_0 (s : string) : Z := default 0 (toInt s).
Definition double_or_0 (s : string) : double := default zero (toDouble s).

Definition parse_state (out : string) : reply ReadState :=
  let lines := split_skip_empty newline out in
  let values := collect lines in
  match toInt (value values "POWER_UNIT") with
  | None => Failed "Missing POWER_UNIT from helper."
  | Some power_unit =>
  match toDouble (value values "UNIT_WATTS") with
  | None => Failed "Missing UNIT_WATTS from helper."
  | Some unit_watts =>
  match toULongLong (value values "MSR") with
  | None => Failed "Missing MSR value from helper."
  | Some msr =>
  match toULongLong (value values "MMIO") with
  | None => Failed "Missing MMIO value from helper."
  | Some mmio =>
      let ratio_of key :=
        match toInt (value values key) with
        | Some ratio => ratio
        | None => 0
        end in
      Replied {|
        power_unit := power_unit;
        unit_watts := unit_watts;
        msr := msr;
        mmio := mmio;
        core_type_supported :=
          int_or_0 (value values "CORE_TYPE_SUPPORTED") =? 1;
        p_cpus := value values "P_CPUS";
        e_cpus := value values "E_CPUS";
        u_cpus := value values "U_CPUS";
        p_ratio_valid := int_or_0 (value values "P_RATIO_VALID") =? 1;
        e_ratio_valid := int_or_0 (value values "E_RATIO_VALID") =? 1;
        p_ratio := ratio_of "P_RATIO_TARGET";
        e_ratio := ratio_of "E_RATIO_TARGET";
        p_ratio_cur_valid :=
          int_or_0 (value values "P_RATIO_CUR_VALID") =? 1;
        e_ratio_cur_valid :=
          int_or_0 (value values "E_RATIO_CUR_VALID") =? 1;
        p_ratio_cur := ratio_of "P_RATIO_CUR";
        e_ratio_cur := ratio_of "E_RATIO_CUR";
        core_uv_valid := int_or_0 (value values "CORE_UV_VALID") =? 1;
        core_uv_mv := double_or_0 (value values "CORE_UV_MV");
        core_uv_raw := value values "CORE_UV_RAW"
      |}
  end end end end.

(** [HelperBackend::read_state]: the [pkexec] round trip, given by its
    outcome, then [parse_state]. *)
Definition read_state (round_trip : reply string) : reply ReadState :=
  match round_trip with
  | Failed err_out =>
      Failed (if is_empty err_out then "Failed to run helper" else err_out)
  | Replied out => parse_state out
  end.

End Conversions.

(** Decimal digits only: a conversion to instantiate the parameters
    with. *)
Fixpoint digits_value (s : string) (acc : Z) : option Z :=
  match s with
  | EmptyString => Some acc
  | String a r =>
      let n := Z.of_N (N_of_ascii a) in
      if (48 <=? n) && (n <=? 57) then digits_value r (10 * acc + (n - 48))
      else None
  end.

Definition decimal (s : string) : option Z :=
  if is_empty s then None else digits_value s 0.

Definition decimal_double (s : string) : option double :=
  option_map of_Z (decimal s).

Definition unlines (lines : list string) : string :=
  fold_right (fun line rest => line +:+ String newline rest) "" lines.

(** A response that carries no [MMIO] line, and a complete one. *)
Definition response_without_mmio : string :=
  unlines ["POWER_UNIT=3"; "UNIT_WATTS=1"; "MSR=4638564681600"; "P_RATIO_TARGET=40"].

Definition response_complete : string :=
  unlines ["POWER_UNIT=3"; "UNIT_WATTS=1"; "MSR=4638564681600";
           "MMIO = 4638564681601"; "COLOUR=blue"].

End HelperState.

(** ** The Qt front end: applying and synchronising limits

    The window talks to the privileged helper through [HelperBackend] and
    to the operator through message boxes. One invocation is run against
    an environment that holds the helper's answers and the operator's,
    and yields the sequence of interactions it performed. *)

Module Gui.

Import HelperState.
Local Open Scope string_scope.
Local Open Scope Z_scope.

Inductive Target := Msr | Mmio | Both.

Inductive request :=
| ReadReq
| WriteMsr (val : Z)
| WriteMmio (val : Z)
| WritePowercap (pl1_uw pl2_uw : Z).

(** The confirmation boxes, with the values their text shows. *)
Inductive prompt :=
| AskWriteMsr (next : Z)
| AskWriteMmio (next : Z)
| AskWritePowercap (pl1_w : double) (pl1_uw : Z) (pl2_w : double) (pl2_uw : Z)
| AskSyncMsrToMmio (val : Z)
| AskSyncMmioToMsr (val : Z).

Definition title (p : prompt) : string :=
  match p with
  | AskWriteMsr _ => "Write MSR?"
  | AskWriteMmio _ => "Write MMIO?"
  | AskWritePowercap _ _ _ _ => "Write kernel powercap?"
  | AskSyncMsrToMmio _ => "Sync MSR -> MMIO?"
  | AskSyncMmioToMsr _ => "Sync MMIO -> MSR?"
  end.

Inductive message :=
| WroteMsr (val : Z)
| WroteMmio (val : Z)
| WrotePowercap (pl1_w pl2_w : double)
| SyncedMsrToMmio (val : Z)
| SyncedMmioToMsr (val : Z).

Inductive event :=
| Helper (req : request) (ok : bool)
| Confirm (p : prompt) (yes : bool)
| ShowError (title detail : string)
| LogMessage (msg : message)
| Refresh.

Record Env := {
  env_read : reply ReadState;
  env_confirm : prompt -> bool;
  env_write_msr : Z -> reply unit;
  env_write_mmio : Z -> reply unit;
  env_write_powercap : Z -> Z -> reply unit
}.

(** The widgets the workflow reads. *)
Record Ui := {
  pl1_spin : double;
  pl2_spin : double;
  powercap_check : bool
}.

(** A run: the interactions so far, and the value to go on with, or
    [None] once the function has returned early. *)
Definition Run (A : Type) : Type := list event * option A.

Definition ret {A} (a : A) : Run A := ([], Some a).
Definition stop {A} : Run A := ([], None).
Definition emit (e : event) : Run unit := ([e], Some tt).

Definition bind {A B} (m : Run A) (k : A -> Run B) : Run B :=
  match m with
  | (t, Some a) => let '(t', r) := k a in ((t ++ t')%list, r)
  | (t, None) => (t, None)
  end.

Notation "x <- m ;; k" := (bind m (fun x => k))
  (at level 100, m at next level, right associativity).
Notation "m ;;; k" := (bind m (fun _ => k))
  (at level 100, right associativity).

Definition when {A} (b : bool) (m : Run A) : Run unit :=
  if b then m ;;; ret tt else ret tt.

Definition show_error {A} (title detail : string) : Run A :=
  emit (ShowError title detail) ;;; stop.

Definition confirm_action (env : Env) (p : prompt) : Run unit :=
  let yes := env_confirm env p in
  emit (Confirm p yes) ;;; if yes then ret tt else stop.

Definition helper_read (env : Env) (title : string) : Run ReadState :=
  match env_read env with
  | Replied state => emit (Helper ReadReq true) ;;; ret state
  | Failed err => emit (Helper ReadReq false) ;;; show_error title err
  end.

Definition helper_write (req : request) (answer : reply unit)
  (title : string) : Run unit :=
  match answer with
  | Replied _ => emit (Helper req true)
  | Failed err => emit (Helper req false) ;;; show_error title err
  end.

Definition update_units (state : ReadState) : bool :=
  negb (fle (unit_watts state) zero).

Definition build_units (unit_watts : double) (ui : Ui) : Run (Z * Z) :=
  if fle unit_watts zero
  then show_error "Invalid unit" "Power unit is unknown or zero."
  else
    match build_units_values unit_watts (pl1_spin ui) (pl2_spin ui) with
    | None => show_error "Invalid values" "Converted units out of range."
    | Some units => ret units
    end.

Definition is_msr_target (target : Target) : bool :=
  match target with Msr | Both => true | Mmio => false end.

Definition is_mmio_target (target : Target) : bool :=
  match target with Mmio | Both => true | Msr => false end.

Definition apply_limits_run (target : Target) (confirm do_refresh : bool)
  (env : Env) (ui : Ui) : Run unit :=
  state <- helper_read env "Read failed" ;;
  (if update_units state then ret tt
   else show_error "Invalid unit" "Power unit is unknown or zero.") ;;;
  units <- build_units (unit_watts state) ui ;;
  let '(pl1_units, pl2_units) := units in
  let pl1_w := pl1_spin ui in
  let pl2_w := pl2_spin ui in
  when (is_msr_target target)
    (let next := apply_pl_units (msr state) pl1_units pl2_units in
     when confirm (confirm_action env (AskWriteMsr next)) ;;;
     helper_write (WriteMsr next) (env_write_msr env next)
       "Write MSR failed" ;;;
     emit (LogMessage (WroteMsr next))) ;;;
  when (is_mmio_target target)
    (let next := apply_pl_units (mmio state) pl1_units pl2_units in
     when confirm (confirm_action env (AskWriteMmio next)) ;;;
     helper_write (WriteMmio next) (env_write_mmio env next)
       "Write MMIO failed" ;;;
     emit (LogMessage (WroteMmio next))) ;;;
  when (powercap_check ui)
    (let pl1_uw := watts_to_uw pl1_w in
     let pl2_uw := watts_to_uw pl2_w in
     (if (pl1_uw =? 0) || (pl2_uw =? 0)
      then show_error "Invalid values"
             "Kernel powercap values must be non-zero."
      else ret tt) ;;;
     when confirm
       (confirm_action env (AskWritePowercap pl1_w pl1_uw pl2_w pl2_uw)) ;;;
     helper_write (WritePowercap pl1_uw pl2_uw)
       (env_write_powercap env pl1_uw pl2_uw) "Write powercap failed" ;;;
     emit (LogMessage (WrotePowercap pl1_w pl2_w))) ;;;
  when do_refresh (emit Refresh).

(** The result of a run as the [bool] the C++ function returns. *)
Definition finish {A} (r : Run A) : bool * list event :=
  (match snd r with Some _ => true | None => false end, fst r).

Definition apply_limits_internal (target : Target) (confirm do_refresh : bool)
  (env : Env) (ui : Ui) : bool * list event :=
  finish (apply_limits_run target confirm do_refresh env ui).

(** The button handler. *)
Definition apply_limits (target : Target) (env : Env) (ui : Ui)
  : list event :=
  snd (apply_limits_internal target true true env ui).

Definition sync_msr_to_mmio (env : Env) : list event :=
  fst (state <- helper_read env "Read failed" ;;
       confirm_action env (AskSyncMsrToMmio (msr state)) ;;;
       helper_write (WriteMmio (msr state)) (env_write_mmio env (msr state))
         "Write MMIO failed" ;;;
       emit (LogMessage (SyncedMsrToMmio (msr state))) ;;;
       emit Refresh).

Definition sync_mmio_to_msr (env : Env) : list event :=
  fst (state <- helper_read env "Read failed" ;;
       confirm_action env (AskSyncMmioToMsr (mmio state)) ;;;
       helper_write (WriteMsr (mmio state)) (env_write_msr env (mmio state))
         "Write MSR failed" ;;;
       emit (LogMessage (SyncedMmioToMsr (mmio state))) ;;;
       emit Refresh).

(** The requests of a run that write a register or the powercap files. *)
Definition is_write (e : event) : bool :=
  match e with
  | Helper (WriteMsr _) _ | Helper (WriteMmio _) _
  | Helper (WritePowercap _ _) _ => true
  | _ => false
  end.

Definition writes (t : list event) : list event := List.filter is_write t.

Definition attempts_msr (t : list event) : bool :=
  existsb (fun e => match e with Helper (WriteMsr _) _ => true
                             | _ => false end) t.

Definition attempts_mmio (t : list event) : bool :=
  existsb (fun e => match e with Helper (WriteMmio _) _ => true
                             | _ => false end) t.

(** The confirmation a run shows before a write, if it confirms at all. *)
Definition asked (confirm : bool) (p : prompt) : list event :=
  if confirm then [Confirm p true] else [].

Definition is_decline (e : event) : bool :=
  match e with
  | Confirm _ false => true
  | _ => false
  end.

Definition has_decline (t : list event) : bool := existsb is_decline t.

(** Every declined confirmation is the last interaction of the run. *)
Fixpoint declines_end_run (t : list event) : bool :=
  match t with
  | [] => true
  | Confirm _ false :: rest => match rest with [] => true | _ => false end
  | _ :: rest => declines_end_run rest
  end.

(** A run in which a declined confirmation, if there is one, came last
    and made the function return early. *)
Definition tidy {A} (m : Run A) : Prop :=
  declines_end_run (fst m) = true
  /\ (has_decline (fst m) = true -> snd m = None).

(** A register write whose value is the encoding of the converted units
    into the value the helper read from that same register. *)
Definition own_register (env : Env) (ui : Ui) (e : event) : Prop :=
  match e with
  | Helper (WriteMsr val) _ =>
      exists state pl1_units pl2_units,
        env_read env = Replied state
        /\ build_units_values (unit_watts state) (pl1_spin ui) (pl2_spin ui)
           = Some (pl1_units, pl2_units)
        /\ val = apply_pl_units (msr state) pl1_units pl2_units
  | Helper (WriteMmio val) _ =>
      exists state pl1_units pl2_units,
        env_read env = Replied state
        /\ build_units_values (unit_watts state) (pl1_spin ui) (pl2_spin ui)
           = Some (pl1_units, pl2_units)
        /\ val = apply_pl_units (mmio state) pl1_units pl2_units
  | _ => True
  end.

(** A state as the helper reports it: 1/8 W units, the two registers
    holding different limits. *)
Definition bench_state : ReadState := {|
  power_unit := 3;
  unit_watts := unit_watts_of 3;
  msr := 0x004284e800df81b8;
  mmio := 0x0042864000df8140;
  core_type_supported := false;
  p_cpus := "";
  e_cpus := "";
  u_cpus := "";
  p_ratio_valid := false;
  e_ratio_valid := false;
  p_ratio := 0;
  e_ratio := 0;
  p_ratio_cur_valid := false;
  e_ratio_cur_valid := false;
  p_ratio_cur := 0;
  e_ratio_cur := 0;
  core_uv_valid := false;
  core_uv_mv := zero;
  core_uv_raw := ""
|}.

(** 55 W and 157 W in the spin boxes, powercap mirroring switched off. *)
Definition bench_ui : Ui := {|
  pl1_spin := of_Z 55;
  pl2_spin := of_Z 157;
  powercap_check := false
|}.

(** The operator agrees to everything, the MSR write is refused. *)
Definition env_msr_write_fails : Env := {|
  env_read := Replied bench_state;
  env_confirm := fun _ => true;
  env_write_msr := fun _ => Failed "pwrite: Input/output error";
  env_write_mmio := fun _ => Replied tt;
  env_write_powercap := fun _ _ => Replied tt
|}.

(** Every write works; the operator agrees to the MSR write and to a
    sync, and declines the MMIO write. *)
Definition env_declines_mmio : Env := {|
  env_read := Replied bench_state;
  env_confirm := fun p =>
    match p with
    | AskWriteMmio _ => false
    | _ => true
    end;
  env_write_msr := fun _ => Replied tt;
  env_write_mmio := fun _ => Replied tt;
  env_write_powercap := fun _ _ => Replied tt
|}.

(** The same machine after a sync of the MSR into MMIO. *)
Definition env_after_sync : Env := {|
  env_read := Replied {|
    power_unit := 3;
    unit_watts := unit_watts_of 3;
    msr := 0x004284e800df81b8;
    mmio := 0x004284e800df81b8;
    core_type_supported := false;
    p_cpus := "";
    e_cpus := "";
    u_cpus := "";
    p_ratio_valid := false;
    e_ratio_valid := false;
    p_ratio := 0;
    e_ratio := 0;
    p_ratio_cur_valid := false;
    e_ratio_cur_valid := false;
    p_ratio_cur := 0;
    e_ratio_cur := 0;
    core_uv_valid := false;
    core_uv_mv := zero;
    core_uv_raw := ""
  |};
  env_confirm := fun _ => true;
  env_write_msr := fun _ => Replied tt;
  env_write_mmio := fun _ => Replied tt;
  env_write_powercap := fun _ _ => Replied tt
|}.

End Gui.

(** ** The line-based tool ([limits_ui.c])

    The tool reads the MSR through [/dev/cpu/0/msr] and the MCHBAR
    register through a mapping of [/dev/mem]; both are state here, and
    what the operator types and whether the system calls succeed is the
    input of one menu action. *)

Module Cli.

Local Open Scope Z_scope.

Definition PL_OFF : Z := 0x59A0.
Definition MSR_RAPL_POWER_UNIT : Z := 0x606.
Definition MSR_PKG_POWER_LIMIT : Z := 0x610.

(** The mapped window: the 32-bit word at each byte offset. *)
Definition window : Type := Z -> Z.

Definition store32 (base : window) (off v : Z) : window :=
  fun a => if a =? off then v else base a.

Definition rd64 (base : window) (off : Z) : Z :=
  let lo := u64 (base off) in
  let hi := u64 (base (off + 4)) in
  Z.lor lo (u64 (Z.shiftl hi 32)).

Definition wr64 (base : window) (off v : Z) : window :=
  let base := store32 base off (u32 (Z.land v 0xffffffff)) in
  store32 base (off + 4) (u32 (Z.shiftr v 32)).

Record World := {
  msr_regs : Z -> Z;
  mmio_base : window;
  powercap_pl1 : option Z;
  powercap_pl2 : option Z
}.

Record Input := {
  in_pl1 : option double;
  in_pl2 : option double;
  in_target : option Z;
  in_dir : option Z;
  yes_msr : bool;
  yes_mmio : bool;
  yes_powercap : bool;
  rdmsr_works : bool;
  wrmsr_works : bool;
  pl1_file_works : bool;
  pl2_file_works : bool
}.

Definition with_msr (w : World) (reg val : Z) : World :=
  {| msr_regs := fun r => if r =? reg then val else msr_regs w r;
     mmio_base := mmio_base w;
     powercap_pl1 := powercap_pl1 w;
     powercap_pl2 := powercap_pl2 w |}.

Definition with_mmio (w : World) (base : window) : World :=
  {| msr_regs := msr_regs w;
     mmio_base := base;
     powercap_pl1 := powercap_pl1 w;
     powercap_pl2 := powercap_pl2 w |}.

Definition with_powercap (w : World) (pl1 pl2 : option Z) : World :=
  {| msr_regs := msr_regs w;
     mmio_base := mmio_base w;
     powercap_pl1 := pl1;
     powercap_pl2 := pl2 |}.

(** [rdmsr] and [wrmsr]: [None] stands for the return value [-1]. *)
Definition rdmsr (inp : Input) (w : World) (reg : Z) : option Z :=
  if rdmsr_works inp then Some (u64 (msr_regs w reg)) else None.

Definition wrmsr (inp : Input) (w : World) (reg val : Z) : option World :=
  if wrmsr_works inp then Some (with_msr w reg val) else None.

Definition write_powercap_uw (inp : Input) (w : World) (pl1_uw pl2_uw : Z)
  : World * bool :=
  if negb (pl1_file_works inp) then (w, false)
  else
    let w := with_powercap w (Some pl1_uw) (powercap_pl2 w) in
    if negb (pl2_file_works inp) then (w, false)
    else (with_powercap w (powercap_pl1 w) (Some pl2_uw), true).

(** The three writing stages of [set_limits]; each yields the return
    code [-1] in place of [None]. *)
Definition set_limits_msr (inp : Input) (target pl1_units pl2_units : Z)
  (w : World) : option World :=
  if (target =? 1) || (target =? 3) then
    match rdmsr inp w MSR_PKG_POWER_LIMIT with
    | None => None
    | Some cur =>
        let next := set_pl_units cur pl1_units pl2_units in
        if yes_msr inp then wrmsr inp w MSR_PKG_POWER_LIMIT next
        else Some w
    end
  else Some w.

Definition set_limits_mmio (inp : Input) (target pl1_units pl2_units : Z)
  (w : World) : World :=
  if (target =? 2) || (target =? 3) then
    let cur := rd64 (mmio_base w) PL_OFF in
    let next := set_pl_units cur pl1_units pl2_units in
    if yes_mmio inp then with_mmio w (wr64 (mmio_base w) PL_OFF next)
    else w
  else w.

Definition set_limits_powercap (inp : Input) (pl1_w pl2_w : double)
  (w : World) : Z * World :=
  if yes_powercap inp then
    let pl1_uw := watts_to_uw pl1_w in
    let pl2_uw := watts_to_uw pl2_w in
    if (pl1_uw =? 0) || (pl2_uw =? 0) then (-1, w)
    else
      let '(w, ok) := write_powercap_uw inp w pl1_uw pl2_uw in
      if ok then (0, w) else (-1, w)
  else (0, w).

Definition set_limits (inp : Input) (unit_watts : double) (w : World)
  : Z * World :=
  match in_pl1 inp with
  | None => (0, w)
  | Some pl1_w =>
  match in_pl2 inp with
  | None => (0, w)
  | Some pl2_w =>
  if fle pl1_w zero || fle pl2_w zero || flt d5000 pl1_w || flt d5000 pl2_w
  then (-1, w)
  else
  match in_target inp with
  | None => (0, w)
  | Some target =>
  if (target <? 1) || (3 <? target) then (-1, w)
  else
  match set_limits_units unit_watts pl1_w pl2_w with
  | None => (-1, w)
  | Some (pl1_units, pl2_units) =>
      match set_limits_msr inp target pl1_units pl2_units w with
      | None => (-1, w)
      | Some w =>
          let w := set_limits_mmio inp target pl1_units pl2_units w in
          set_limits_powercap inp pl1_w pl2_w w
      end
  end end end end.

Definition sync_limits (inp : Input) (w : World) : Z * World :=
  match in_dir inp with
  | None => (0, w)
  | Some dir =>
      if dir =? 1 then
        match rdmsr inp w MSR_PKG_POWER_LIMIT with
        | None => (-1, w)
        | Some msr =>
            if yes_mmio inp
            then (0, with_mmio w (wr64 (mmio_base w) PL_OFF msr))
            else (0, w)
        end
      else if dir =? 2 then
        let mmio_val := rd64 (mmio_base w) PL_OFF in
        if yes_msr inp then
          match wrmsr inp w MSR_PKG_POWER_LIMIT mmio_val with
          | None => (-1, w)
          | Some w => (0, w)
          end
        else (0, w)
      else (-1, w)
  end.

(** The register values a later read would deliver. *)
Definition msr_now (w : World) : Z := u64 (msr_regs w MSR_PKG_POWER_LIMIT).
Definition mmio_now (w : World) : Z := rd64 (mmio_base w) PL_OFF.

(** What one stage of [set_limits] does to a register: nothing, or the
    encoding of the units into the value it held. *)
Definition kept_or_encoded (before after pl1_units pl2_units : Z) : Prop :=
  after = before \/ after = set_pl_units before pl1_units pl2_units.

(** A machine whose two registers disagree, and an operator who enters
    the two limits in whole watts, selects both targets (or the given
    sync direction) and confirms the register writes. *)
Definition bench_world : World := {|
  msr_regs := fun _ => 0x004284e800df81b8;
  mmio_base := fun off => if off =? PL_OFF then 0x00df8140 else 0x00428640;
  powercap_pl1 := None;
  powercap_pl2 := None
|}.

Definition bench_input (pl1_w pl2_w : Z) (dir : Z) : Input := {|
  in_pl1 := Some (of_Z pl1_w);
  in_pl2 := Some (of_Z pl2_w);
  in_target := Some 3;
  in_dir := Some dir;
  yes_msr := true;
  yes_mmio := true;
  yes_powercap := false;
  rdmsr_works := true;
  wrmsr_works := true;
  pl1_file_works := true;
  pl2_file_works := true
|}.

End Cli.

(** ** What [parse_state] reads from the collected values *)

Module HelperKeys.

Import HelperState.
Local Open Scope string_scope.
Local Open Scope Z_scope.

(** The keys [parse_state] looks up. *)
Definition consulted_keys : list string :=
  ["POWER_UNIT"; "UNIT_WATTS"; "MSR"; "MMIO"; "CORE_TYPE_SUPPORTED";
   "P_CPUS"; "E_CPUS"; "U_CPUS"; "P_RATIO_VALID"; "E_RATIO_VALID";
   "P_RATIO_CUR_VALID"; "E_RATIO_CUR_VALID"; "P_RATIO_TARGET";
   "E_RATIO_TARGET"; "P_RATIO_CUR"; "E_RATIO_CUR"; "CORE_UV_VALID";
   "CORE_UV_MV"; "CORE_UV_RAW"].

(** The key and the text a line stores, for a line with its first [=]
    after the first character. *)
Definition line_key (line : string) : string :=
  trimmed (left (indexOf line "="%char) line).

Definition line_value (line : string) : string :=
  trimmed (mid (indexOf line "="%char + 1) line).

(** The lines of a response. *)
Definition lines_of (out : string) : list string :=
  split_skip_empty newline out.

(** Two sets of collected values that [parse_state] cannot tell apart. *)
Definition same_consulted (values values' : gmap string string) : Prop :=
  forall key, In key consulted_keys -> value values' key = value values key.

End HelperKeys.

(** ** Reading the runs of the Qt front end *)

Module GuiRuns.

Import HelperState Gui.
Local Open Scope Z_scope.

(** A write request that the selected target and the powercap box allow. *)
Definition selected (target : Target) (ui : Ui) (e : event) : Prop :=
  match e with
  | Helper (WriteMsr _) _ => is_msr_target target = true
  | Helper (WriteMmio _) _ => is_mmio_target target = true
  | Helper (WritePowercap _ _) _ => powercap_check ui = true
  | _ => True
  end.

(** The write requests of a successful apply, in the order they are made. *)
Definition expected_writes (target : Target) (ui : Ui) (state : ReadState)
  (pl1_units pl2_units : Z) : list event :=
  ((if is_msr_target target
    then [Helper (WriteMsr (apply_pl_units (msr state) pl1_units pl2_units))
            true]
    else []) ++
   (if is_mmio_target target
    then [Helper (WriteMmio (apply_pl_units (mmio state) pl1_units pl2_units))
            true]
    else []) ++
   (if powercap_check ui
    then [Helper (WritePowercap (watts_to_uw (pl1_spin ui))
                    (watts_to_uw (pl2_spin ui))) true]
    else []))%list.

(** A predicate on interactions that holds of everything but writes. *)
Definition spares_the_rest (P : event -> Prop) : Prop :=
  forall e, is_write e = false -> P e.

(** A helper that answers every request, and an operator who agrees to
    everything. *)
Definition env_all_fine : Env := {|
  env_read := Replied bench_state;
  env_confirm := fun _ => true;
  env_write_msr := fun _ => Replied tt;
  env_write_mmio := fun _ => Replied tt;
  env_write_powercap := fun _ _ => Replied tt
|}.

(** A helper whose read fails. *)
Definition env_read_fails : Env := {|
  env_read := Failed "Helper failed (exit 1)";
  env_confirm := fun _ => true;
  env_write_msr := fun _ => Replied tt;
  env_write_mmio := fun _ => Replied tt;
  env_write_powercap := fun _ _ => Replied tt
|}.

(** 55 W and 157 W with the powercap box ticked. *)
Definition ui_with_powercap : Ui := {|
  pl1_spin := of_Z 55;
  pl2_spin := of_Z 157;
  powercap_check := true
|}.

End GuiRuns.

(** ** Ratios, core voltage offset and the unattended start

    [apply_ratio_internal], [apply_core_uv_internal] and
    [apply_startup_actions] of the Qt front end, over the same kind of
    environment as the apply workflow. *)

Module Tuning.

Import HelperState.
Local Open Scope string_scope.
Local Open Scope Z_scope.

Definition fsub : double -> double -> double := SFsub prec emax.
Definition fabs : double -> double := SFabs.

(** The literal [0.0005]. *)
Definition d0_0005 : double := S754_finite false 0x10624DD2F1A9FC (-63).

Inductive RatioTarget := P | E | Both | All.

Inductive tuning_request :=
| SetPRatio (ratio : Z)
| SetERatio (ratio : Z)
| SetPeRatio (ratio_p ratio_e : Z)
| SetAllRatio (ratio : Z)
| SetCoreUv (mv : double).

(** The confirmation boxes; the core offset box shows the quantised value
    only when it differs from the target. *)
Inductive tuning_prompt :=
| AskPRatio (ratio : Z)
| AskERatio (ratio : Z)
| AskPeRatio (ratio_p ratio_e : Z)
| AskAllRatio (ratio : Z)
| AskCoreUv (mv : double) (applied : option double).

Inductive tuning_message :=
| LogPRatio (ratio : Z)
| LogERatio (ratio : Z)
| LogPeRatio (ratio_p ratio_e : Z)
| LogAllRatio (ratio : Z)
| LogCoreUv (mv : double) (applied : option double).

Inductive action :=
| Limits (e : Gui.event)
| Tune (req : tuning_request) (ok : bool)
| AskTune (p : tuning_prompt) (yes : bool)
| TuneError (title detail : string)
| TuneLog (msg : tuning_message)
| RefreshAll.

Record TuneEnv := {
  tune_confirm : tuning_prompt -> bool;
  tune_answer : tuning_request -> reply unit
}.

Record TuneUi := {
  p_ratio_spin : Z;
  e_ratio_spin : Z;
  core_uv_spin : double
}.

(** The shape the four ratio branches and the core offset share:
    confirm if asked to, send the request, log, refresh. *)
Definition tune_step (tenv : TuneEnv) (confirm do_refresh : bool)
  (p : tuning_prompt) (req : tuning_request) (failed : string)
  (msg : tuning_message) : bool * list action :=
  if confirm && negb (tune_confirm tenv p) then (false, [AskTune p false])
  else
    let asked := if confirm then [AskTune p true] else [] in
    match tune_answer tenv req with
    | Failed err =>
        (false, (asked ++ [Tune req false; TuneError failed err])%list)
    | Replied _ =>
        (true,
         (asked ++ [Tune req true; TuneLog msg] ++
          (if do_refresh then [RefreshAll] else []))%list)
    end.

Definition apply_ratio_internal (target : RatioTarget)
  (confirm do_refresh : bool) (tenv : TuneEnv) (tui : TuneUi)
  : bool * list action :=
  let p_ratio := p_ratio_spin tui in
  let e_ratio := e_ratio_spin tui in
  match target with
  | P =>
      tune_step tenv confirm do_refresh (AskPRatio p_ratio)
        (SetPRatio p_ratio) "Set P-core ratio failed" (LogPRatio p_ratio)
  | E =>
      tune_step tenv confirm do_refresh (AskERatio e_ratio)
        (SetERatio e_ratio) "Set E-core ratio failed" (LogERatio e_ratio)
  | Both =>
      tune_step tenv confirm do_refresh (AskPeRatio p_ratio e_ratio)
        (SetPeRatio p_ratio e_ratio) "Set P/E ratio failed"
        (LogPeRatio p_ratio e_ratio)
  | All =>
      let ratio := p_ratio in
      tune_step tenv confirm do_refresh (AskAllRatio ratio)
        (SetAllRatio ratio) "Set all ratios failed" (LogAllRatio ratio)
  end.

(** Whether the text mentions the quantised value:
    [fabs(applied - mv) >= 0.0005]. *)
Definition shows_applied (mv : double) : bool :=
  fle d0_0005 (fabs (fsub (quantize_uv_mv mv) mv)).

Definition apply_core_uv_internal (confirm do_refresh : bool)
  (tenv : TuneEnv) (tui : TuneUi) : bool * list action :=
  let mv := core_uv_spin tui in
  let applied := quantize_uv_mv mv in
  let shown := if shows_applied mv then Some applied else None in
  tune_step tenv confirm do_refresh (AskCoreUv mv shown) (SetCoreUv mv)
    "Set core offset failed" (LogCoreUv mv shown).

(** The check boxes and combo boxes of the start-up group. *)
Record StartupUi := {
  startup_apply_limits : bool;
  startup_limits_target : Z;
  startup_apply_ratios : bool;
  startup_ratio_target : Z;
  startup_apply_core_uv : bool
}.

Definition startup_limits_target_value (sui : StartupUi) : Gui.Target :=
  if startup_limits_target sui =? 0 then Gui.Msr
  else if startup_limits_target sui =? 1 then Gui.Mmio
  else Gui.Both.

Definition startup_ratio_target_value (sui : StartupUi) : RatioTarget :=
  if startup_ratio_target sui =? 0 then P
  else if startup_ratio_target sui =? 1 then E
  else if startup_ratio_target sui =? 2 then Both
  else All.

(** The limits step of the start, its interactions tagged. *)
Definition startup_limits (sui : StartupUi) (env : Gui.Env) (ui : Gui.Ui)
  : bool * list action :=
  let '(ok, t) :=
    Gui.apply_limits_internal (startup_limits_target_value sui) false false
      env ui in
  (ok, map Limits t).

Definition apply_startup_actions (sui : StartupUi) (env : Gui.Env)
  (ui : Gui.Ui) (tenv : TuneEnv) (tui : TuneUi) : bool * list action :=
  let '(ok, t1) :=
    if startup_apply_limits sui then startup_limits sui env ui
    else (true, []) in
  let '(ok, t2) :=
    if ok && startup_apply_ratios sui
    then apply_ratio_internal (startup_ratio_target_value sui) false false
           tenv tui
    else (ok, []) in
  let '(ok, t3) :=
    if ok && startup_apply_core_uv sui
    then apply_core_uv_internal false false tenv tui
    else (ok, []) in
  (ok, (t1 ++ t2 ++ t3 ++ (if ok then [RefreshAll] else []))%list).

(** An interaction of the limits workflow that neither waits for the
    operator nor redraws the display. *)
Definition quiet_event (e : Gui.event) : Prop :=
  match e with
  | Gui.Confirm _ _ | Gui.Refresh => False
  | _ => True
  end.

(** An interaction that waits for the operator. *)
Definition is_prompt (a : action) : bool :=
  match a with
  | Limits (Gui.Confirm _ _) | AskTune _ _ => true
  | _ => false
  end.

(** A refresh of the display. *)
Definition is_refresh (a : action) : bool :=
  match a with
  | Limits Gui.Refresh | RefreshAll => true
  | _ => false
  end.

(** A request sent to the helper to change a ratio or the offset. *)
Definition is_tuning (a : action) : bool :=
  match a with
  | Tune _ _ => true
  | _ => false
  end.

(** An interaction of the limits workflow. *)
Definition is_limits (a : action) : bool :=
  match a with
  | Limits _ => true
  | _ => false
  end.

(** The request that [apply_ratio_internal] sends for each target. *)
Definition ratio_request (target : RatioTarget) (tui : TuneUi)
  : tuning_request :=
  match target with
  | P => SetPRatio (p_ratio_spin tui)
  | E => SetERatio (e_ratio_spin tui)
  | Both => SetPeRatio (p_ratio_spin tui) (e_ratio_spin tui)
  | All => SetAllRatio (p_ratio_spin tui)
  end.

(** Whether the helper did what it was asked. *)
Definition tuned (tenv : TuneEnv) (req : tuning_request) : bool :=
  match tune_answer tenv req with
  | Replied _ => true
  | Failed _ => false
  end.

(** Whole millivolts: shown with the quantised value unless a multiple
    of 125. *)
Definition shows_applied_as_expected (mv : Z) : bool :=
  Bool.eqb (shows_applied (of_Z mv)) (negb (mv mod 125 =? 0)).

(** A helper that does every tuning request, and one that refuses them. *)
Definition tune_all_fine : TuneEnv := {|
  tune_confirm := fun _ => true;
  tune_answer := fun _ => Replied tt
|}.

Definition tune_refused : TuneEnv := {|
  tune_confirm := fun _ => true;
  tune_answer := fun _ => Failed "not permitted"
|}.

Definition bench_tune_ui : TuneUi := {|
  p_ratio_spin := 40;
  e_ratio_spin := 30;
  core_uv_spin := of_Z (- 50)
|}.

Definition startup_everything : StartupUi := {|
  startup_apply_limits := true;
  startup_limits_target := 2;
  startup_apply_ratios := true;
  startup_ratio_target := 3;
  startup_apply_core_uv := true
|}.

End Tuning.

(** ** A session of the line tool

    [main] of [limits_ui.c]: the set-up, then the menu loop over what the
    operator types. *)

Module Session.

Import Mchbar Cli.
Local Open Scope Z_scope.

(** What the set-up calls of [main] meet. *)
Record Setup := {
  mem_opens : bool;
  mmap_works : bool;
  msr_opens : bool;
  unit_read_works : bool
}.

Definition open_mmio (fs : sysfs) (s : Setup) : bool :=
  match mchbar_get_base fs with
  | Err _ => false
  | Ok _ =>
      if negb (mem_opens s) then false
      else if negb (mmap_works s) then false
      else true
  end.

(** One turn of the menu: the choice typed ([None] when [prompt_int]
    fails) and the answers to the prompts that follow it. *)
Record Command := {
  choice : option Z;
  answers : Input
}.

Fixpoint menu (unit_watts : double) (cmds : list Command) (w : World)
  : World :=
  match cmds with
  | [] => w
  | cmd :: rest =>
      match choice cmd with
      | None => w
      | Some c =>
          if c =? 1 then menu unit_watts rest w
          else if c =? 2 then
            menu unit_watts rest (snd (set_limits (answers cmd) unit_watts w))
          else if c =? 3 then
            menu unit_watts rest (snd (sync_limits (answers cmd) w))
          else if c =? 4 then w
          else menu unit_watts rest w
      end
  end.

Definition main (fs : sysfs) (s : Setup) (cmds : list Command) (w : World)
  : Z * World :=
  if negb (open_mmio fs s) then (1, w)
  else if negb (msr_opens s) then (1, w)
  else if negb (unit_read_works s) then (1, w)
  else
    let rapl_units := u64 (msr_regs w MSR_RAPL_POWER_UNIT) in
    let power_unit := power_unit_of rapl_units in
    let unit_watts := unit_watts_of power_unit in
    (0, menu unit_watts cmds w).

(** Everything but MSR [0x610] and the two words of the MMIO register is
    the same in both worlds. *)
Definition same_elsewhere (w w' : World) : Prop :=
  (forall reg, reg <> MSR_PKG_POWER_LIMIT -> msr_regs w' reg = msr_regs w reg)
  /\ (forall off, off <> PL_OFF -> off <> PL_OFF + 4 ->
        mmio_base w' off = mmio_base w off).

(** The bits of a register outside its two power fields. *)
Definition opaque_bits (val : Z) : Z := Z.land val (not64 power_fields).

(** An operator who confirms everything, the powercap files included. *)
Definition eager_input (pl1_w pl2_w : Z) : Input := {|
  in_pl1 := Some (of_Z pl1_w);
  in_pl2 := Some (of_Z pl2_w);
  in_target := Some 3;
  in_dir := Some 1;
  yes_msr := true;
  yes_mmio := true;
  yes_powercap := true;
  rdmsr_works := true;
  wrmsr_works := true;
  pl1_file_works := true;
  pl2_file_works := false
|}.

(** The MSR device refuses writes. *)
Definition locked_msr_input (pl1_w pl2_w : Z) : Input := {|
  in_pl1 := Some (of_Z pl1_w);
  in_pl2 := Some (of_Z pl2_w);
  in_target := Some 3;
  in_dir := Some 2;
  yes_msr := true;
  yes_mmio := true;
  yes_powercap := false;
  rdmsr_works := true;
  wrmsr_works := false;
  pl1_file_works := true;
  pl2_file_works := true
|}.

Definition all_works : Setup := {|
  mem_opens := true;
  mmap_works := true;
  msr_opens := true;
  unit_read_works := true
|}.

(** Two changes of the limits, a look at them, and leaving. *)
Definition bench_session : list Command :=
  [ {| choice := Some 2; answers := bench_input 150 170 1 |};
    {| choice := Some 1; answers := bench_input 1 1 1 |};
    {| choice := Some 2; answers := bench_input 95 120 1 |};
    {| choice := Some 4; answers := bench_input 1 1 1 |} ].

End Session.

(** ** The MMIO writer and the scanner

    [main] of [mchbar_pl_write] and the matching loop of the scanner. *)

Module PlWrite.

Import Mchbar Cli.
Local Open Scope string_scope.
Local Open Scope Z_scope.

Section Conversions.

(** The C library's conversions: [atoi], and [sscanf] with the formats
    ["%" SCNx64] and ["0x%" SCNx64], [None] when no item is converted. *)
Variable atoi : string -> Z.
Variable sscanf_x64 : string -> option Z.
Variable sscanf_0x_x64 : string -> option Z.

(** The [--restore] branch: the value to write, or the exit with 2. *)
Definition restore_value (arg : string) : option Z :=
  match sscanf_x64 arg with
  | Some v => Some (u64 v)
  | None =>
      match sscanf_0x_x64 arg with
      | Some v => Some (u64 v)
      | None => None
      end
  end.

(** The [--set] branch, which assumes units of 1/8 W. *)
Definition set_value (orig : Z) (arg2 arg3 : string) : option Z :=
  let pl1w := atoi arg2 in
  let pl2w := atoi arg3 in
  if (pl1w <=? 0) || (pl2w <=? 0) || (500 <? pl1w) || (500 <? pl2w)
  then None
  else
    let pl1_units := u16 (pl1w * 8) in
    let pl2_units := u16 (pl2w * 8) in
    Some (pl_write_target orig pl1_units pl2_units).

(** [main]: the exit code and the mapped window afterwards. *)
Definition main (argv : list string) (mem_opens : bool) (fs : sysfs)
  (mmap_works : bool) (mmio : window) : Z * window :=
  match argv with
  | _ :: mode :: args =>
      if String.eqb mode "--help" then (2, mmio)
      else if negb mem_opens then (1, mmio)
      else
        match mchbar_get_base fs with
        | Err _ => (1, mmio)
        | Ok _ =>
            if negb mmap_works then (1, mmio)
            else
              let orig := rd64 mmio PL_OFF in
              let target :=
                if String.eqb mode "--restore" then
                  match args with
                  | arg2 :: _ => restore_value arg2
                  | [] => None
                  end
                else if String.eqb mode "--set" then
                  match args with
                  | arg2 :: arg3 :: _ => set_value orig arg2 arg3
                  | _ => None
                  end
                else None in
              match target with
              | None => (2, mmio)
              | Some target => (0, wr64 mmio PL_OFF target)
              end
        end
  | _ => (2, mmio)
  end.

End Conversions.

(** Conversions that know the texts of one example. *)
Definition bench_atoi (s : string) : Z :=
  if String.eqb s "150" then 150
  else if String.eqb s "170" then 170
  else 0.

Definition bench_sscanf (s : string) : option Z :=
  if String.eqb s "0x0000000000df8140" then Some 0x00df8140 else None.

Definition bench_window : window :=
  fun off => if off =? PL_OFF then 0x00df8140 else 0.

End PlWrite.

Module Scanner.

Import Cli.
Local Open Scope Z_scope.

Definition MAP_SIZE : Z := 2 * 1024 * 1024.

(** The three tests of the loop body on the value read. *)
Definition matches (require_enable : bool) (pl1_units pl2_units v : Z)
  : bool :=
  let lo := u32 (Z.land v 0xffffffff) in
  let hi := u32 (Z.shiftr v 32) in
  if negb (Z.land lo 0x7FFF =? pl1_units) then false
  else if negb (Z.land hi 0x7FFF =? pl2_units) then false
  else if require_enable
          && ((Z.land lo 0x8000 =? 0) || (Z.land hi 0x8000 =? 0))
  then false
  else true.

(** [for (off = start; off + 8 <= MAP_SIZE; off += 8)], collecting the
    offsets and values printed as matches. *)
Fixpoint scan_loop (fuel : nat) (mmio : window) (require_enable : bool)
  (pl1_units pl2_units : Z) (off : Z) : list (Z * Z) :=
  match fuel with
  | O => []
  | S fuel =>
      if off + 8 <=? MAP_SIZE then
        let v := rd64 mmio off in
        ((if matches require_enable pl1_units pl2_units v
          then [(off, v)] else [])
         ++ scan_loop fuel mmio require_enable pl1_units pl2_units
              (off + 8))%list
      else []
  end.

Definition scan (mmio : window) (require_enable : bool)
  (pl1_units pl2_units : Z) : list (Z * Z) :=
  scan_loop (Z.to_nat (MAP_SIZE / 8 + 1)) mmio require_enable
    pl1_units pl2_units 0.

End Scanner.

(** ** The helper process, profiles and the start-up guard *)

Module HelperProcess.

Import HelperState.
Local Open Scope string_scope.
Local Open Scope Z_scope.

(** What [QProcess] reports once [pkexec] was started. *)
Record Process := {
  finished : bool;
  stdout : string;
  stderr : string;
  normal_exit : bool;
  exit_code : Z
}.

(** The three results of [run_pkexec]: its return value and what it
    leaves in [*out] and [*err]. *)
Record Outcome := {
  succeeded : bool;
  out_text : string;
  err_text : string
}.

Section Number.

(** [QString::arg] of an [int]. *)
Variable number : Z -> string.

Definition run_pkexec (p : Process) : Outcome :=
  if negb (finished p) then
    {| succeeded := false; out_text := ""; err_text := "Helper timed out." |}
  else if negb (normal_exit p) || negb (exit_code p =? 0) then
    {| succeeded := false;
       out_text := stdout p;
       err_text :=
         if negb (is_empty (stderr p)) then trimmed (stderr p)
         else "Helper failed (exit " +:+ number (exit_code p) +:+ ")" |}
  else
    {| succeeded := true;
       out_text := stdout p;
       err_text := trimmed (stderr p) |}.

Definition run_simple (p : Process) : reply unit :=
  let r := run_pkexec p in
  if negb (succeeded r) then
    Failed (if is_empty (err_text r) then "Failed to run helper"
            else err_text r)
  else Replied tt.

(** The round trip that [read_state] hands to [parse_state]. *)
Definition round_trip (p : Process) : reply string :=
  let r := run_pkexec p in
  if negb (succeeded r) then Failed (err_text r) else Replied (out_text r).

End Number.

(** A helper that exits with 1 and prints only a line break on its error
    stream. *)
Definition blank_failure : Process := {|
  finished := true;
  stdout := "";
  stderr := String newline "";
  normal_exit := true;
  exit_code := 1
|}.

End HelperProcess.

Module Profiles.

Import HelperState Tuning.
Local Open Scope string_scope.
Local Open Scope Z_scope.

(** A [QJsonValue] as far as the code tells kinds apart; an absent key is
    [None] at lookup (an undefined value). *)
Inductive json :=
| JNumber (d : double)
| JString (s : string)
| JOther.

Record Profile := {
  pl1_w : double;
  pl2_w : double;
  p_ratio : Z;
  e_ratio : Z;
  core_uv_mv : double
}.

(** The literal [0.001]. *)
Definition d0_001 : double := S754_finite false 0x10624DD2F1A9FC (-62).

(** [static_cast<int>] of a [long long]. *)
Definition to_int (n : Z) : Z := (n + 2 ^ 31) mod 2 ^ 32 - 2 ^ 31.

(** The object that [save_profile_file] writes; an [int] is stored as the
    number it converts to. *)
Definition profile_object (p : Profile) (saved_at : string)
  : gmap string json :=
  <["saved_at" := JString saved_at]>
  (<["core_uv_mv" := JNumber (core_uv_mv p)]>
  (<["e_ratio" := JNumber (of_Z (e_ratio p))]>
  (<["p_ratio" := JNumber (of_Z (p_ratio p))]>
  (<["pl2_w" := JNumber (pl2_w p)]>
  (<["pl1_w" := JNumber (pl1_w p)]>
  (<["version" := JNumber (of_Z 1)]> ∅)))))).

(** What opening and parsing the profile file gives. *)
Inductive document :=
| NoOpen (error_string : string)
| NotObject (parse_error : string)
| Object (obj : gmap string json).

Definition save_profile_file (path : string) (p : Profile)
  (saved_at : string) (open_error commit_error : option string)
  : reply (gmap string json) :=
  if is_empty (trimmed path) then Failed "Profile path is empty."
  else
    match open_error with
    | Some e => Failed ("Failed to open " +:+ path +:+ ": " +:+ e)
    | None =>
        match commit_error with
        | Some e => Failed ("Failed to write " +:+ path +:+ ": " +:+ e)
        | None => Replied (profile_object p saved_at)
        end
    end.

Section Json.

(** [QJsonValue::toInt()]. *)
Variable toInt : json -> Z.

Definition get_double (obj : gmap string json) (key : string)
  : option double :=
  match obj !! key with
  | Some (JNumber d) => Some d
  | _ => None
  end.

Definition get_int (obj : gmap string json) (key : string) : option Z :=
  match obj !! key with
  | Some (JNumber raw) =>
      let rounded := llround raw in
      if flt d0_001 (fabs (fsub raw (of_Z rounded))) then None
      else Some (to_int rounded)
  | _ => None
  end.

Definition version_of (obj : gmap string json) : Z :=
  match obj !! "version" with
  | Some v => toInt v
  | None => 0
  end.

Definition load_profile_file (path : string) (doc : document)
  : reply Profile :=
  match doc with
  | NoOpen e => Failed ("Failed to open " +:+ path +:+ ": " +:+ e)
  | NotObject e => Failed ("Invalid profile JSON: " +:+ e)
  | Object obj =>
      if negb (version_of obj =? 1) then Failed "Unsupported profile version."
      else
        match get_double obj "pl1_w" with
        | None => Failed "Invalid or missing pl1_w."
        | Some pl1 =>
        if fle pl1 zero then Failed "Invalid or missing pl1_w."
        else
        match get_double obj "pl2_w" with
        | None => Failed "Invalid or missing pl2_w."
        | Some pl2 =>
        if fle pl2 zero then Failed "Invalid or missing pl2_w."
        else
        match get_int obj "p_ratio" with
        | None => Failed "Invalid or missing p_ratio."
        | Some pr =>
        if pr <=? 0 then Failed "Invalid or missing p_ratio."
        else
        match get_int obj "e_ratio" with
        | None => Failed "Invalid or missing e_ratio."
        | Some er =>
        if er <=? 0 then Failed "Invalid or missing e_ratio."
        else
        match get_double obj "core_uv_mv" with
        | None => Failed "Invalid or missing core_uv_mv."
        | Some uv =>
            Replied {| pl1_w := pl1; pl2_w := pl2; p_ratio := pr;
                       e_ratio := er; core_uv_mv := uv |}
        end end end end end
  end.

End Json.

(** A whole ratio stored as a number is read back as itself. *)
Definition ratio_survives (n : Z) : bool :=
  negb (flt d0_001 (fabs (fsub (of_Z n) (of_Z (llround (of_Z n))))))
  && (to_int (llround (of_Z n)) =? n).

(** A conversion that knows whole numbers up to 255. *)
Definition whole_number (v : json) : Z :=
  match v with
  | JNumber d => if ratio_survives (llround d) then llround d else 0
  | _ => 0
  end.

Definition bench_profile : Profile := {|
  pl1_w := of_Z 150;
  pl2_w := of_Z 170;
  p_ratio := 40;
  e_ratio := 30;
  core_uv_mv := of_Z (- 50)
|}.

(** A profile file edited by hand: the P ratio stored is [2 ^ 32 + 5]. *)
Definition wide_profile : Profile := {|
  pl1_w := of_Z 150;
  pl2_w := of_Z 170;
  p_ratio := 4294967301;
  e_ratio := 30;
  core_uv_mv := of_Z (- 50)
|}.

(** What it is loaded as. *)
Definition wrapped_profile : Profile := {|
  pl1_w := of_Z 150;
  pl2_w := of_Z 170;
  p_ratio := 5;
  e_ratio := 30;
  core_uv_mv := of_Z (- 50)
|}.

End Profiles.

Module Autostart.

Import HelperState Profiles.
Local Open Scope string_scope.
Local Open Scope Z_scope.

(** What [handle_startup_apply] finds: the flags of the window, the
    guard file left by an earlier start, the paths typed, and how
    loading a profile, applying it and writing the guard turn out. *)
Record Start := {
  backend_ready : bool;
  startup_enabled : bool;
  guard_exists : bool;
  guard_time : option string;
  guard_warning : string;
  startup_use_fallback : bool;
  fallback_path : string;
  profile_path : string;
  load : string -> reply Profile;
  apply_actions : Profile -> bool;
  write_guard_error : option string
}.

Inductive step :=
| Log (msg : string)
| DisableStartup
| SavePreferences
| ShowError (title detail : string)
| ApplyToUi (path : string) (p : Profile)
| ApplyActions (ok : bool)
| WriteGuard (ok : bool)
| ClearGuard.

Definition handle_startup_apply (s : Start) : list step :=
  if negb (backend_ready s) then []
  else if negb (startup_enabled s) then []
  else if guard_exists s then
    let when := default "unknown time" (guard_time s) in
    [Log ("Startup guard detected (" +:+ when
          +:+ "). Skipping auto-apply.")] ++
    (if negb (is_empty (guard_warning s))
     then [Log ("Guard warning: " +:+ guard_warning s)] else []) ++
    [DisableStartup; SavePreferences] ++
    (if startup_use_fallback s
        && negb (is_empty (trimmed (fallback_path s)))
     then
       match load s (trimmed (fallback_path s)) with
       | Failed err => [ShowError "Fallback profile failed" err; ClearGuard]
       | Replied fallback =>
           [ApplyToUi (trimmed (fallback_path s)) fallback] ++
           (if negb (apply_actions s fallback)
            then [ApplyActions false; ClearGuard]
            else [ApplyActions true;
                  Log ("Applied fallback profile from "
                       +:+ trimmed (fallback_path s));
                  ClearGuard])
       end
     else
       [ShowError "Startup crash detected"
          ("Previous auto-apply did not finish. "
           +:+ "Auto-apply has been disabled for safety.");
        ClearGuard])
  else
    let path := trimmed (profile_path s) in
    if is_empty path then [Log "Startup enabled but no profile path set."]
    else
      match load s path with
      | Failed err => [ShowError "Startup profile failed" err]
      | Replied profile =>
          [ApplyToUi path profile] ++
          (match write_guard_error s with
           | Some err => [WriteGuard false; Log ("Warning: " +:+ err)]
           | None => [WriteGuard true]
           end) ++
          (if negb (apply_actions s profile)
           then [ApplyActions false; ClearGuard]
           else [ApplyActions true;
                 Log ("Applied startup profile from " +:+ path)])
      end.

(** Whether the guard file exists after the steps. *)
Fixpoint guard_after (exists_before : bool) (t : list step) : bool :=
  match t with
  | [] => exists_before
  | WriteGuard true :: t => guard_after true t
  | ClearGuard :: t => guard_after false t
  | _ :: t => guard_after exists_before t
  end.

(** Whether the automatic start is still switched on after the steps. *)
Fixpoint enabled_after (enabled_before : bool) (t : list step) : bool :=
  match t with
  | [] => enabled_before
  | DisableStartup :: t => enabled_after false t
  | _ :: t => enabled_after enabled_before t
  end.

(** The profile files applied to the window. *)
Fixpoint applied_paths (t : list step) : list string :=
  match t with
  | [] => []
  | ApplyToUi path _ :: t => path :: applied_paths t
  | _ :: t => applied_paths t
  end.

(** A start that finds the guard of a start that did not finish. *)
Definition crashed_start : Start := {|
  backend_ready := true;
  startup_enabled := true;
  guard_exists := true;
  guard_time := None;
  guard_warning := "";
  startup_use_fallback := true;
  fallback_path := " safe.json ";
  profile_path := "fast.json";
  load := fun _ => Replied bench_profile;
  apply_actions := fun _ => true;
  write_guard_error := None
|}.

End Autostart.

(** ** Reading answers

    [read_line] and [confirm] of [limits_ui.c], on the text that is still
    to be read from the standard input. *)

Module Console.

Import HelperState.
Local Open Scope string_scope.

(** What [fgets] stores given room for [n] characters, and what it leaves
    unread: it stops after a line break. *)
Fixpoint take_line (n : nat) (stdin : string) : string * string :=
  match n, stdin with
  | O, _ => ("", stdin)
  | _, EmptyString => ("", "")
  | S n, String c rest =>
      if Ascii.eqb c newline then (String c "", rest)
      else
        let '(buf, rest') := take_line n rest in
        (String c buf, rest')
  end.

(** [fgets(buf, sz, stdin)]: [None] at the end of the input. *)
Definition fgets (sz : nat) (stdin : string) : option (string * string) :=
  match stdin with
  | EmptyString => None
  | _ => Some (take_line (sz - 1) stdin)
  end.

(** [buf[len - 1] = '\0'] when the last character is a line break. *)
Fixpoint chomp (buf : string) : string :=
  match buf with
  | EmptyString => EmptyString
  | String c EmptyString =>
      if Ascii.eqb c newline then EmptyString else buf
  | String c rest => String c (chomp rest)
  end.

Definition read_line (sz : nat) (stdin : string) : option (string * string) :=
  match fgets sz stdin with
  | None => None
  | Some (buf, rest) => Some (chomp buf, rest)
  end.

(** [buf[0] == 'y' || buf[0] == 'Y']. *)
Definition starts_with_y (buf : string) : bool :=
  match buf with
  | String c _ => Ascii.eqb c "y" || Ascii.eqb c "Y"
  | EmptyString => false
  end.

(** [confirm]: the answer, and the input left for the next prompt. *)
Definition confirm (stdin : string) : bool * string :=
  match read_line 16 stdin with
  | None => (false, stdin)
  | Some (buf, rest) => (starts_with_y buf, rest)
  end.

Fixpoint no_newline (s : string) : bool :=
  match s with
  | EmptyString => true
  | String c rest => negb (Ascii.eqb c newline) && no_newline rest
  end.

End Console.

(** ** The registers behind the helper *)

Module Machine.

Import HelperState Gui.
Local Open Scope string_scope.
Local Open Scope Z_scope.

Definition answered (answer : reply unit) : bool :=
  match answer with
  | Replied _ => true
  | Failed _ => false
  end.

(** The two registers of the package. *)
Record Registers := {
  reg_msr : Z;
  reg_mmio : Z
}.

(** What the helper reports of them, in 1/8 W units. *)
Definition state_of (regs : Registers) : ReadState := {|
  power_unit := 3;
  unit_watts := unit_watts_of 3;
  msr := reg_msr regs;
  mmio := reg_mmio regs;
  core_type_supported := false;
  p_cpus := "";
  e_cpus := "";
  u_cpus := "";
  p_ratio_valid := false;
  e_ratio_valid := false;
  p_ratio := 0;
  e_ratio := 0;
  p_ratio_cur_valid := false;
  e_ratio_cur_valid := false;
  p_ratio_cur := 0;
  e_ratio_cur := 0;
  core_uv_valid := false;
  core_uv_mv := zero;
  core_uv_raw := ""
|}.

(** A helper that reads the registers and carries out every write, and
    an operator who answers each prompt by [confirm]. *)
Definition obedient (regs : Registers) (confirm : prompt -> bool) : Env := {|
  env_read := Replied (state_of regs);
  env_confirm := confirm;
  env_write_msr := fun _ => Replied tt;
  env_write_mmio := fun _ => Replied tt;
  env_write_powercap := fun _ _ => Replied tt
|}.

(** The registers once the writes of a run that the helper carried out
    have taken effect, nothing else touching them. *)
Fixpoint replay (t : list event) (regs : Registers) : Registers :=
  match t with
  | [] => regs
  | Helper (WriteMsr val) true :: t =>
      replay t {| reg_msr := val; reg_mmio := reg_mmio regs |}
  | Helper (WriteMmio val) true :: t =>
      replay t {| reg_msr := reg_msr regs; reg_mmio := val |}
  | _ :: t => replay t regs
  end.

(** Two registers that hold the same limits and differ outside the power
    fields: bit 17 and bit 47 are set in the MSR only. *)
Definition split_registers : Registers := {|
  reg_msr := 0x0042864000df8140;
  reg_mmio := 0x0042064000dd8140
|}.

Definition split_state : ReadState := state_of split_registers.

Definition env_split : Env := obedient split_registers (fun _ => true).

(** The same two registers under the line tool. *)
Definition split_world : Cli.World := {|
  Cli.msr_regs := fun _ => 0x0042864000df8140;
  Cli.mmio_base := fun off =>
    if off =? Cli.PL_OFF then 0x00dd8140 else 0x00420640;
  Cli.powercap_pl1 := None;
  Cli.powercap_pl2 := None
|}.

End Machine.

(** * Properties *)

(** ** Bit-level lemmas *)

Section Bits.

Lemma testbit_mod_pow2 (x w n : Z) :
  0 <= w -> Z.testbit (x mod 2 ^ w) n = (n <? w) && Z.testbit x n.
Proof.
  intros Hw. destruct (Z.ltb_spec n w) as [Hlt | Hge]; simpl.
  - destruct (Z.ltb_spec n 0) as [Hneg | Hpos].
    + now rewrite !Z.testbit_neg_r.
    + apply Z.mod_pow2_bits_low. lia.
  - apply Z.mod_pow2_bits_high. lia.
Qed.

Lemma testbit_ones_15 (n : Z) :
  0 <= n -> Z.testbit 0x7FFF n = (n <? 15).
Proof.
  intros Hn. change 0x7FFF with (Z.ones 15).
  now rewrite Z.testbit_ones_nonneg by lia.
Qed.

Lemma testbit_ones_32 (n : Z) :
  0 <= n -> Z.testbit 0xffffffff n = (n <? 32).
Proof.
  intros Hn. change 0xffffffff with (Z.ones 32).
  now rewrite Z.testbit_ones_nonneg by lia.
Qed.

Lemma testbit_not32_15 (n : Z) :
  0 <= n -> Z.testbit (not32 0x7FFF) n = (15 <=? n) && (n <? 32).
Proof.
  intros Hn. unfold not32, u32.
  rewrite testbit_mod_pow2, Z.lnot_spec, testbit_ones_15 by lia.
  destruct (Z.ltb_spec n 32), (Z.ltb_spec n 15), (Z.leb_spec 15 n);
    simpl; auto; lia.
Qed.

Lemma testbit_not64_fields (n : Z) :
  0 <= n ->
  Z.testbit (not64 power_fields) n =
  ((15 <=? n) && (n <? 32)) || ((47 <=? n) && (n <? 64)).
Proof.
  intros Hn. unfold not64, u64, power_fields.
  change 0x7FFF00007FFF with (Z.lor (Z.shiftl (Z.ones 15) 32) (Z.ones 15)).
  rewrite testbit_mod_pow2, Z.lnot_spec, Z.lor_spec, Z.shiftl_spec by lia.
  rewrite (Z.testbit_ones_nonneg 15 n) by lia.
  destruct (Z.ltb_spec n 32) as [H32 | H32].
  - rewrite (Z.testbit_neg_r _ (n - 32)) by lia.
    destruct (Z.ltb_spec n 64), (Z.ltb_spec n 15), (Z.leb_spec 15 n),
      (Z.leb_spec 47 n); simpl; auto; lia.
  - rewrite (Z.testbit_ones_nonneg 15 (n - 32)) by lia.
    destruct (Z.ltb_spec n 64), (Z.ltb_spec n 15), (Z.leb_spec 15 n),
      (Z.leb_spec 47 n), (Z.ltb_spec (n - 32) 15); simpl; auto; lia.
Qed.

Lemma testbit_u64_range (x n : Z) :
  is_u64 x -> 64 <= n -> Z.testbit x n = false.
Proof.
  intros Hx Hn. rewrite <- (Z.mod_small x (2 ^ 64)) by exact Hx.
  apply Z.mod_pow2_bits_high. lia.
Qed.

Lemma testbit_u16_range (x n : Z) :
  is_u16 x -> 16 <= n -> Z.testbit x n = false.
Proof.
  intros Hx Hn. rewrite <- (Z.mod_small x (2 ^ 16)) by exact Hx.
  apply Z.mod_pow2_bits_high. lia.
Qed.

(** Bit [n] of the encoded register value. *)
Lemma apply_pl_units_testbit (cur a b n : Z) :
  0 <= n ->
  Z.testbit (apply_pl_units cur a b) n =
  if n <? 15 then Z.testbit a n
  else if n <? 32 then Z.testbit cur n
  else if n <? 47 then Z.testbit b (n - 32)
  else if n <? 64 then Z.testbit cur n
  else false.
Proof.
  intros Hn. unfold apply_pl_units, u64, u32.
  rewrite Z.lor_spec.
  rewrite testbit_mod_pow2 by lia.
  rewrite !Z.lor_spec, !Z.land_spec.
  rewrite testbit_not32_15, testbit_ones_15 by lia.
  rewrite !testbit_mod_pow2 by lia.
  rewrite Z.land_spec, testbit_ones_32 by lia.
  destruct (Z.ltb_spec n 32) as [H32 | H32].
  - rewrite Z.shiftl_spec by lia.
    rewrite (Z.testbit_neg_r _ (n - 32)) by lia.
    destruct (Z.ltb_spec n 15), (Z.leb_spec 15 n), (Z.ltb_spec n 64),
      (Z.ltb_spec n 47); try lia; simpl;
      rewrite ?andb_true_r, ?andb_false_r, ?orb_false_r; auto.
  - rewrite Z.shiftl_spec by lia.
    rewrite testbit_mod_pow2 by lia.
    rewrite !Z.lor_spec, !Z.land_spec.
    rewrite testbit_not32_15, testbit_ones_15 by lia.
    rewrite !testbit_mod_pow2 by lia.
    rewrite Z.shiftr_spec by lia.
    replace (n - 32 + 32) with n by lia.
    destruct (Z.ltb_spec n 15), (Z.ltb_spec n 64), (Z.ltb_spec n 47),
      (Z.ltb_spec (n - 32) 15), (Z.leb_spec 15 (n - 32)),
      (Z.ltb_spec (n - 32) 32), (Z.ltb_spec (n - 32) 64);
      try lia; simpl;
      rewrite ?andb_true_r, ?andb_false_r, ?orb_false_r; auto.
Qed.

End Bits.

(** ** The codec *)

Lemma set_pl_units_eq (cur a b : Z) :
  set_pl_units cur a b = apply_pl_units cur a b.
Proof. reflexivity. Qed.

Lemma pl_write_target_eq (orig a b : Z) :
  pl_write_target orig a b = apply_pl_units orig a b.
Proof. reflexivity. Qed.

Lemma apply_pl_units_is_u64 (cur a b : Z) : is_u64 (apply_pl_units cur a b).
Proof.
  assert (Hnn : 0 <= apply_pl_units cur a b).
  { apply Z.bits_iff_nonneg_ex. exists 64. intros m Hm.
    rewrite apply_pl_units_testbit by lia.
    destruct (Z.ltb_spec m 15), (Z.ltb_spec m 32), (Z.ltb_spec m 47),
      (Z.ltb_spec m 64); auto; lia. }
  split; [exact Hnn |].
  destruct (Z.eq_dec (apply_pl_units cur a b) 0) as [-> | Hne]; [lia |].
  apply Z.log2_lt_pow2; [lia |].
  assert (Hlog : ~ 64 <= Z.log2 (apply_pl_units cur a b)); [| lia].
  intros Hge.
  assert (Hbit := Z.bit_log2 (apply_pl_units cur a b) ltac:(lia)).
  rewrite apply_pl_units_testbit in Hbit by lia.
  destruct (Z.ltb_spec (Z.log2 (apply_pl_units cur a b)) 15),
    (Z.ltb_spec (Z.log2 (apply_pl_units cur a b)) 32),
    (Z.ltb_spec (Z.log2 (apply_pl_units cur a b)) 47),
    (Z.ltb_spec (Z.log2 (apply_pl_units cur a b)) 64);
    try discriminate; lia.
Qed.

Lemma apply_pl_units_opaque (raw a b : Z) :
  Z.land (apply_pl_units raw a b) (not64 power_fields) =
  Z.land raw (not64 power_fields).
Proof.
  apply Z.bits_inj'. intros n Hn.
  rewrite !Z.land_spec, testbit_not64_fields, apply_pl_units_testbit by lia.
  destruct (Z.ltb_spec n 15), (Z.ltb_spec n 32), (Z.ltb_spec n 47),
    (Z.ltb_spec n 64), (Z.leb_spec 15 n), (Z.leb_spec 47 n);
    try lia; simpl; rewrite ?andb_false_r; reflexivity.
Qed.

(** C1. Every bit outside the two 15-bit power fields passes through the
    encoders unchanged: for a 64-bit [raw] and 16-bit [a], [b],
    [encode raw a b & ~0x7FFF00007FFF = raw & ~0x7FFF00007FFF], for
    [apply_pl_units], for [set_pl_units] and for the composition of
    [replace_power_field] in the MMIO writer. *)
Theorem encode_preserves_opaque_bits (raw a b : Z) :
  is_u64 raw -> is_u16 a -> is_u16 b ->
  Z.land (apply_pl_units raw a b) (not64 0x7FFF00007FFF) =
    Z.land raw (not64 0x7FFF00007FFF)
  /\ Z.land (set_pl_units raw a b) (not64 0x7FFF00007FFF) =
    Z.land raw (not64 0x7FFF00007FFF)
  /\ Z.land (pl_write_target raw a b) (not64 0x7FFF00007FFF) =
    Z.land raw (not64 0x7FFF00007FFF)
  /\ is_u64 (apply_pl_units raw a b).
Proof.
  intros _ _ _.
  pose proof (apply_pl_units_opaque raw a b) as H.
  unfold power_fields in H.
  repeat split; try exact H; apply apply_pl_units_is_u64.
Qed.

Lemma encode_preserves_opaque_bits_witness :
  Z.land (apply_pl_units 0x004284e800df81b8 0x1B8 0x4E8)
         (not64 0x7FFF00007FFF) =
  Z.land 0x004284e800df81b8 (not64 0x7FFF00007FFF).
Proof.
  apply (encode_preserves_opaque_bits 0x004284e800df81b8 0x1B8 0x4E8);
    unfold is_u64, is_u16; lia.
Defined.

Lemma decode_pl1_apply (raw a b : Z) :
  decode_pl1 (apply_pl_units raw a b) = Z.land a 0x7FFF.
Proof.
  unfold decode_pl1, u16. apply Z.bits_inj'. intros n Hn.
  rewrite testbit_mod_pow2, !Z.land_spec, testbit_ones_15,
    apply_pl_units_testbit by lia.
  destruct (Z.ltb_spec n 15), (Z.ltb_spec n 16); try lia; simpl;
    rewrite ?andb_true_r, ?andb_false_r; reflexivity.
Qed.

Lemma decode_pl2_apply (raw a b : Z) :
  decode_pl2 (apply_pl_units raw a b) = Z.land b 0x7FFF.
Proof.
  unfold decode_pl2, u16. apply Z.bits_inj'. intros n Hn.
  rewrite testbit_mod_pow2, !Z.land_spec, testbit_ones_15,
    Z.shiftr_spec, apply_pl_units_testbit by lia.
  replace (n + 32 - 32) with n by lia.
  destruct (Z.ltb_spec n 15), (Z.ltb_spec n 16), (Z.ltb_spec (n + 32) 15),
    (Z.ltb_spec (n + 32) 32), (Z.ltb_spec (n + 32) 47),
    (Z.ltb_spec (n + 32) 64); try lia; simpl;
    rewrite ?andb_true_r, ?andb_false_r; reflexivity.
Qed.

(** C2. Decoding what was encoded gives the masked inputs: for a 64-bit
    [raw] and 16-bit [a], [b], bits 14..0 of the low word and of the high
    word of [encode raw a b] are [a & 0x7FFF] and [b & 0x7FFF]; this holds
    for [apply_pl_units] and for [set_pl_units]. *)
Theorem decode_encode_round_trip (raw a b : Z) :
  is_u64 raw -> is_u16 a -> is_u16 b ->
  decode (apply_pl_units raw a b) = (Z.land a 0x7FFF, Z.land b 0x7FFF)
  /\ decode (set_pl_units raw a b) = (Z.land a 0x7FFF, Z.land b 0x7FFF).
Proof.
  intros _ _ _.
  change (set_pl_units raw a b) with (apply_pl_units raw a b).
  unfold decode. now rewrite decode_pl1_apply, decode_pl2_apply.
Qed.

Lemma decode_encode_round_trip_witness :
  decode (apply_pl_units 0 0x81B8 0x84E8) = (0x1B8, 0x4E8).
Proof.
  apply (decode_encode_round_trip 0 0x81B8 0x84E8);
    unfold is_u64, is_u16; lia.
Defined.

(** 440 and 1256 units written into an all-zero register. *)
Example apply_pl_units_example :
  apply_pl_units 0 0x1B8 0x4E8 = 0x000004E8000001B8.
Proof. vm_compute. reflexivity. Qed.


(** ** MCHBAR base discovery *)

Section MchbarBase.

Import Mchbar.
Local Open Scope string_scope.
Local Open Scope Z_scope.

Lemma le_u64_range (bs : list Byte.byte) :
  0 <= le_u64 bs < 256 ^ Z.of_nat (length bs).
Proof.
  induction bs as [| b bs IH]; simpl; [lia |].
  assert (Hb : 0 <= Z.of_N (Byte.to_N b) < 256).
  { pose proof (Byte.to_N_bounded b). lia. }
  rewrite Nat2Z.inj_succ, Z.pow_succ_r by lia. lia.
Qed.

Lemma read_config_is_u64 (fs : sysfs) (path : string) (off val : Z) :
  mchbar_read_config_u64 fs path off = Ok val -> is_u64 val.
Proof.
  unfold mchbar_read_config_u64.
  destruct (config_of fs path) as [| | | content]; try discriminate.
  destruct (Z.eqb_spec (Z.of_nat (length (read_at content off 8))) 8)
    as [Hlen | Hlen]; simpl; [| discriminate].
  intros [= <-]. pose proof (le_u64_range (read_at content off 8)) as H.
  rewrite Hlen in H. exact H.
Qed.

Lemma enable_bit_clear (val : Z) :
  Z.land val 0x1 = 0 <-> Z.testbit val 0 = false.
Proof.
  change 0x1 with (Z.ones 1). rewrite Z.land_ones by lia.
  change (2 ^ 1) with 2. rewrite <- Z.bit0_mod.
  destruct (Z.testbit val 0); simpl; split; (discriminate || reflexivity).
Qed.

Lemma mask_low_12 (val : Z) :
  is_u64 val -> Z.land val (not64 0xFFF) = 4096 * (val / 4096).
Proof.
  intros Hval. apply Z.bits_inj'. intros n Hn.
  change 4096 with (2 ^ 12).
  rewrite Z.mul_comm, <- Z.shiftl_mul_pow2, <- Z.shiftr_div_pow2 by lia.
  rewrite Z.land_spec. unfold not64, u64.
  rewrite testbit_mod_pow2, Z.lnot_spec by lia.
  change 0xFFF with (Z.ones 12).
  rewrite Z.testbit_ones_nonneg by lia.
  destruct (Z.ltb_spec n 12) as [H12 | H12].
  - rewrite Z.shiftl_spec_low by lia.
    now rewrite andb_false_r, andb_false_r.
  - rewrite Z.shiftl_spec, Z.shiftr_spec by lia.
    replace (n - 12 + 12) with n by lia.
    destruct (Z.ltb_spec n 64) as [H64 | H64]; simpl.
    + now rewrite andb_true_r.
    + rewrite andb_false_r. symmetry. now apply testbit_u64_range.
Qed.

(** C5. Once the host bridge's [config] file is located, base resolution
    reads eight bytes at offset [0x48]; it fails when that read errors or
    comes short, fails when bit 0 of the value is clear, otherwise clears
    the low twelve bits and fails when nothing is left; the value
    [0x00000000FEDC0001] resolves to the base [0xFEDC0000]. *)
Theorem mchbar_get_base_resolution (fs : sysfs) (config_path : string) :
  mchbar_find_host_bridge_config fs PATH_MAX = Ok config_path ->
  (forall e, mchbar_read_config_u64 fs config_path 0x48 = Err e ->
             mchbar_get_base fs = Err e /\ is_io_error e = true)
  /\ (forall content,
        config_of fs config_path = CfgBytes content ->
        let got := firstn 8 (skipn 0x48 content) in
        if Nat.eqb (length got) 8
        then mchbar_read_config_u64 fs config_path 0x48 = Ok (le_u64 got)
        else mchbar_get_base fs = Err (ShortRead 0x48 (Z.of_nat (length got))))
  /\ (forall val,
        mchbar_read_config_u64 fs config_path 0x48 = Ok val ->
        (Z.testbit val 0 = false ->
         mchbar_get_base fs = Err (MchbarDisabled val))
        /\ (Z.testbit val 0 = true -> 4096 * (val / 4096) = 0 ->
            mchbar_get_base fs = Err (BaseIsZero val))
        /\ (Z.testbit val 0 = true -> 4096 * (val / 4096) <> 0 ->
            mchbar_get_base fs = Ok (4096 * (val / 4096))))
  /\ (mchbar_read_config_u64 fs config_path 0x48 = Ok 0x00000000FEDC0001 ->
      mchbar_get_base fs = Ok 0xFEDC0000).
Proof.
  intros Hfind.
  assert (Hval : forall val,
    mchbar_read_config_u64 fs config_path 0x48 = Ok val ->
    mchbar_get_base fs =
      if Z.testbit val 0
      then if 4096 * (val / 4096) =? 0 then Err (BaseIsZero val)
           else Ok (4096 * (val / 4096))
      else Err (MchbarDisabled val)).
  { intros val Hread. unfold mchbar_get_base. rewrite Hfind, Hread.
    rewrite (mask_low_12 val) by (eapply read_config_is_u64; eauto).
    destruct (Z.eqb_spec (Z.land val 1) 0) as [H0 | H0].
    - apply enable_bit_clear in H0. now rewrite H0.
    - destruct (Z.testbit val 0) eqn:Hbit; [reflexivity |].
      apply enable_bit_clear in Hbit. contradiction. }
  split; [| split; [| split]].
  - intros e Hread. unfold mchbar_get_base. rewrite Hfind, Hread.
    split; [reflexivity |].
    unfold mchbar_read_config_u64 in Hread.
    destruct (config_of fs config_path) as [| | | content];
      try (injection Hread as <-; reflexivity).
    destruct (negb _); [injection Hread as <-; reflexivity | discriminate].
  - intros content Hcfg got.
    assert (Hgot : read_at content 0x48 8 = got) by reflexivity.
    destruct (Nat.eqb_spec (length got) 8) as [Hlen | Hlen].
    + unfold mchbar_read_config_u64. rewrite Hcfg, Hgot, Hlen. reflexivity.
    + unfold mchbar_get_base, mchbar_read_config_u64.
      rewrite Hfind, Hcfg, Hgot.
      destruct (Z.eqb_spec (Z.of_nat (length got)) 8) as [H8 | H8];
        [lia | reflexivity].
  - intros val Hread. rewrite (Hval val Hread).
    split; [| split].
    + now intros ->.
    + intros -> ->. reflexivity.
    + intros -> Hbase.
      destruct (Z.eqb_spec (4096 * (val / 4096)) 0); [contradiction | easy].
  - intros Hread. rewrite (Hval _ Hread). reflexivity.
Qed.

Lemma mchbar_get_base_resolution_witness :
  mchbar_get_base desktop_sysfs = Ok 0xFEDC0000.
Proof.
  destruct (mchbar_get_base_resolution desktop_sysfs
              "/sys/bus/pci/devices/0000:00:00.0/config")
    as (_ & _ & _ & Hexample).
  - vm_compute. reflexivity.
  - apply Hexample. vm_compute. reflexivity.
Defined.

End MchbarBase.

(** ** The helper's read-state response *)

Section ParseState.

Import HelperState.
Local Open Scope string_scope.
Local Open Scope Z_scope.

Lemma lacksb_lacks (out key : string) : lacksb out key = true -> lacks out key.
Proof.
  unfold lacksb, lacks. rewrite forallb_forall. intros H line Hin.
  apply negb_true_iff. now apply H.
Qed.

Lemma collect_line_lookup_other (values : gmap string string)
  (line key : string) :
  defines key line = false ->
  collect_line values line !! key = values !! key.
Proof.
  unfold defines, collect_line. intros Hdef.
  destruct (indexOf line "=" <=? 0); simpl in Hdef; [reflexivity |].
  apply String.eqb_neq in Hdef. now rewrite lookup_insert_ne.
Qed.

Lemma collect_lookup_absent (lines : list string) :
  forall (values : gmap string string) (key : string),
    (forall line, In line lines -> defines key line = false) ->
    fold_left collect_line lines values !! key = values !! key.
Proof.
  induction lines as [| line lines IH]; intros values key Hall; simpl.
  - reflexivity.
  - rewrite IH by (intros l Hl; apply Hall; now right).
    apply collect_line_lookup_other, Hall. now left.
Qed.

Lemma value_of_lacking (out key : string) :
  lacks out key -> value (collect (split_skip_empty newline out)) key = "".
Proof.
  intros Hlacks. unfold value, collect.
  rewrite collect_lookup_absent by exact Hlacks.
  now rewrite lookup_empty.
Qed.

Variable toInt : string -> option Z.
Variable toDouble : string -> option double.
Variable toULongLong : string -> option Z.

Lemma parse_state_replied (out : string) (state : ReadState) :
  parse_state toInt toDouble toULongLong out = Replied state ->
  let values := collect (split_skip_empty newline out) in
  toInt (value values "POWER_UNIT") = Some (power_unit state)
  /\ toDouble (value values "UNIT_WATTS") = Some (unit_watts state)
  /\ toULongLong (value values "MSR") = Some (msr state)
  /\ toULongLong (value values "MMIO") = Some (mmio state).
Proof using Type.
  unfold parse_state. cbv zeta.
  destruct (toInt (value _ "POWER_UNIT")); [| discriminate].
  destruct (toDouble (value _ "UNIT_WATTS")); [| discriminate].
  destruct (toULongLong (value _ "MSR")); [| discriminate].
  destruct (toULongLong (value _ "MMIO")); [| discriminate].
  intros [= <-]. simpl. auto.
Qed.

End ParseState.

(** C8. A read-state response in which any of [POWER_UNIT], [UNIT_WATTS],
    [MSR], [MMIO] is missing, or present with a text that does not
    convert, makes [parse_state] and [read_state] fail; a state is only
    ever returned with the four values converted from the text, never
    with a default in their place. The conversions are Qt's, of which
    only the rejection of the empty text is used. *)
Theorem parse_state_hard_failure
  (toInt : string -> option Z) (toDouble : string -> option double)
  (toULongLong : string -> option Z) (out : string) :
  toInt ""%string = None -> toDouble ""%string = None ->
  toULongLong ""%string = None ->
  let parse := HelperState.parse_state toInt toDouble toULongLong in
  let read := HelperState.read_state toInt toDouble toULongLong in
  let values :=
    HelperState.collect
      (HelperState.split_skip_empty HelperState.newline out) in
  (forall key, In key HelperState.required_keys ->
               HelperState.lacks out key ->
               exists err, parse out = HelperState.Failed err
                           /\ read (HelperState.Replied out)
                              = HelperState.Failed err)
  /\ (toInt (HelperState.value values "POWER_UNIT") = None
      \/ toDouble (HelperState.value values "UNIT_WATTS") = None
      \/ toULongLong (HelperState.value values "MSR") = None
      \/ toULongLong (HelperState.value values "MMIO") = None ->
      exists err, parse out = HelperState.Failed err)
  /\ (forall state, parse out = HelperState.Replied state ->
        toInt (HelperState.value values "POWER_UNIT")
          = Some (HelperState.power_unit state)
        /\ toDouble (HelperState.value values "UNIT_WATTS")
          = Some (HelperState.unit_watts state)
        /\ toULongLong (HelperState.value values "MSR")
          = Some (HelperState.msr state)
        /\ toULongLong (HelperState.value values "MMIO")
          = Some (HelperState.mmio state)).
Proof.
  intros HInt HDouble HULL parse read values.
  assert (Hunparsable :
    toInt (HelperState.value values "POWER_UNIT") = None
    \/ toDouble (HelperState.value values "UNIT_WATTS") = None
    \/ toULongLong (HelperState.value values "MSR") = None
    \/ toULongLong (HelperState.value values "MMIO") = None ->
    exists err, parse out = HelperState.Failed err).
  { subst parse values. unfold HelperState.parse_state. cbv zeta.
    intros H.
    destruct (toInt (HelperState.value _ "POWER_UNIT")); [| eauto].
    destruct (toDouble (HelperState.value _ "UNIT_WATTS")); [| eauto].
    destruct (toULongLong (HelperState.value _ "MSR")); [| eauto].
    destruct (toULongLong (HelperState.value _ "MMIO")); [| eauto].
    destruct H as [H | [H | [H | H]]]; discriminate. }
  split; [| split].
  - intros key Hkey Hlacks.
    apply value_of_lacking in Hlacks. fold values in Hlacks.
    assert (Hfail : exists err, parse out = HelperState.Failed err).
    { apply Hunparsable. simpl in Hkey.
      destruct Hkey as [<- | [<- | [<- | [<- | []]]]]; rewrite Hlacks; auto. }
    destruct Hfail as [err Herr]. exists err. split; [exact Herr |].
    exact Herr.
  - exact Hunparsable.
  - intros state Hstate.
    exact (parse_state_replied toInt toDouble toULongLong out state Hstate).
Qed.

Lemma parse_state_hard_failure_witness :
  exists err,
    HelperState.parse_state HelperState.decimal HelperState.decimal_double
      HelperState.decimal HelperState.response_without_mmio
    = HelperState.Failed err.
Proof.
  destruct (parse_state_hard_failure HelperState.decimal
              HelperState.decimal_double HelperState.decimal
              HelperState.response_without_mmio)
    as (Hmissing & _ & _); try reflexivity.
  destruct (Hmissing "MMIO"%string) as [err [Herr _]].
  - simpl. auto.
  - apply lacksb_lacks. vm_compute. reflexivity.
  - exists err. exact Herr.
Defined.

(** The optional keys and unknown keys do not take part: a response with
    the four required lines and a line of an unknown key is accepted, the
    absent ratio read as 0. *)
Example parse_state_optional_keys :
  match HelperState.parse_state HelperState.decimal
          HelperState.decimal_double HelperState.decimal
          HelperState.response_complete with
  | HelperState.Replied state =>
      HelperState.msr state = 4638564681600
      /\ HelperState.mmio state = 4638564681601
      /\ HelperState.p_ratio state = 0
  | HelperState.Failed _ => False
  end.
Proof. vm_compute. auto. Qed.

(** ** Watts to units *)

Section WattsToUnits.

Local Open Scope Z_scope.

Lemma llround_range (x : double) : LLONG_MIN <= llround x <= LLONG_MAX.
Proof.
  unfold llround. destruct (round_half_away x) as [v |].
  - destruct (Z.leb_spec LLONG_MIN v), (Z.leb_spec v LLONG_MAX); simpl;
      unfold LLONG_MIN, LLONG_MAX in *; lia.
  - unfold LLONG_MIN, LLONG_MAX. lia.
Qed.

Lemma llround_exact (x : double) (r : Z) :
  round_half_away x = Some r -> LLONG_MIN <= r <= LLONG_MAX -> llround x = r.
Proof.
  unfold llround. intros -> [Hlo Hhi].
  destruct (Z.leb_spec LLONG_MIN r), (Z.leb_spec r LLONG_MAX); simpl; lia.
Qed.

Lemma u64_of_long_long (v : Z) :
  LLONG_MIN <= v <= LLONG_MAX ->
  u64 v = if v <? 0 then v + 2 ^ 64 else v.
Proof.
  unfold LLONG_MIN, LLONG_MAX, u64. intros Hv.
  destruct (Z.ltb_spec v 0).
  - symmetry. apply (Z.mod_unique _ _ (-1)); lia.
  - apply Z.mod_small. lia.
Qed.

Lemma calc_units_cases (w unit_watts : double) :
  (exists r, round_half_away (fdiv w unit_watts) = Some r
             /\ 1 <= r <= 0x7FFF /\ calc_units w unit_watts = r)
  \/ ((forall r, round_half_away (fdiv w unit_watts) = Some r ->
                 ~ 1 <= r <= 0x7FFF)
      /\ (calc_units w unit_watts = 0 \/ 0x7FFF < calc_units w unit_watts)).
Proof.
  unfold calc_units.
  pose proof (llround_range (fdiv w unit_watts)) as Hrange.
  rewrite (u64_of_long_long _ Hrange).
  unfold llround, LLONG_MIN, LLONG_MAX in *.
  destruct (round_half_away (fdiv w unit_watts)) as [v |].
  - destruct (Z.leb_spec (- 2 ^ 63) v), (Z.leb_spec v (2 ^ 63 - 1));
      simpl in *.
    + destruct (Z.ltb_spec v 0).
      * right. split; [intros r [= <-]; lia | lia].
      * destruct (Z_le_gt_dec v 0); [right | ].
        { split; [intros r [= <-]; lia | lia]. }
        destruct (Z_le_gt_dec v 0x7FFF); [left | right].
        { exists v. repeat split; lia. }
        { split; [intros r [= <-]; lia | lia]. }
    + right. split; [intros r [= <-]; lia | lia].
    + right. split; [intros r [= <-]; lia | lia].
    + right. split; [intros r [= <-]; lia | lia].
  - right. split; [intros r; discriminate | simpl; lia].
Qed.

(** The Qt front end accepts a limit exactly when the rounded quotient is
    a number from 1 to 32767, and then yields that number. *)
Lemma calc_units_in_range (w unit_watts : double) :
  units_in_range (calc_units w unit_watts) = true <->
  exists r, round_half_away (fdiv w unit_watts) = Some r /\ 1 <= r <= 0x7FFF.
Proof.
  unfold units_in_range.
  rewrite negb_true_iff, orb_false_iff, Z.eqb_neq, Z.ltb_ge.
  destruct (calc_units_cases w unit_watts)
    as [(r & Hr & Hrange & ->) | [Hnone Hout]].
  - split; [intros _; exists r; auto | intros _; lia].
  - split; [lia |]. intros (r & Hr & Hrange). destruct (Hnone r Hr Hrange).
Qed.

Lemma calc_units_value (w unit_watts : double) (r : Z) :
  round_half_away (fdiv w unit_watts) = Some r -> 1 <= r <= 0x7FFF ->
  u16 (calc_units w unit_watts) = r.
Proof.
  intros Hr Hrange.
  destruct (calc_units_cases w unit_watts)
    as [(r' & Hr' & _ & ->) | [Hnone _]].
  - assert (r' = r) as -> by congruence. apply Z.mod_small. lia.
  - destruct (Hnone r Hr Hrange).
Qed.

Lemma build_units_values_accepts (unit_watts pl1_w pl2_w : double) :
  build_units_values unit_watts pl1_w pl2_w =
  if units_in_range (calc_units pl1_w unit_watts)
     && units_in_range (calc_units pl2_w unit_watts)
  then Some (u16 (calc_units pl1_w unit_watts),
             u16 (calc_units pl2_w unit_watts))
  else None.
Proof.
  unfold build_units_values, units_in_range.
  destruct (calc_units pl1_w unit_watts =? 0),
    (calc_units pl2_w unit_watts =? 0),
    (0x7FFF <? calc_units pl1_w unit_watts),
    (0x7FFF <? calc_units pl2_w unit_watts); reflexivity.
Qed.

(** The conversion of the Qt front end: it fails exactly when one of the
    rounded quotients is not a number from 1 to 32767. *)
Lemma build_units_values_correct (unit_watts pl1_w pl2_w : double)
  (r1 r2 : Z) :
  round_half_away (fdiv pl1_w unit_watts) = Some r1 ->
  round_half_away (fdiv pl2_w unit_watts) = Some r2 ->
  build_units_values unit_watts pl1_w pl2_w =
  if (r1 <=? 0) || (r2 <=? 0) || (0x7FFF <? r1) || (0x7FFF <? r2)
  then None else Some (r1, r2).
Proof.
  intros H1 H2. rewrite build_units_values_accepts.
  destruct (units_in_range (calc_units pl1_w unit_watts)) eqn:E1.
  - apply calc_units_in_range in E1 as (r & Hr & Hrange).
    assert (r = r1) as -> by congruence.
    rewrite (calc_units_value _ _ r1 H1 Hrange).
    destruct (units_in_range (calc_units pl2_w unit_watts)) eqn:E2.
    + apply calc_units_in_range in E2 as (r & Hr' & Hrange').
      assert (r = r2) as -> by congruence.
      rewrite (calc_units_value _ _ r2 H2 Hrange'). simpl.
      destruct (Z.leb_spec r1 0), (Z.leb_spec r2 0), (Z.ltb_spec 0x7FFF r1),
        (Z.ltb_spec 0x7FFF r2); simpl; try lia; reflexivity.
    + simpl.
      destruct (Z.leb_spec r2 0), (Z.ltb_spec 0x7FFF r2);
        rewrite ?orb_true_r; simpl; rewrite ?orb_true_r; try reflexivity.
      assert (units_in_range (calc_units pl2_w unit_watts) = true);
        [| congruence].
      apply calc_units_in_range. exists r2. split; [assumption | lia].
  - simpl.
    destruct (Z.leb_spec r1 0), (Z.ltb_spec 0x7FFF r1);
      simpl; rewrite ?orb_true_r; try reflexivity.
    assert (units_in_range (calc_units pl1_w unit_watts) = true);
      [| congruence].
    apply calc_units_in_range. exists r1. split; [assumption | lia].
Qed.

(** The line-based tool and the scanner accept a limit exactly when the
    low 16 bits of the rounded quotient are a number from 1 to 32767. *)
Lemma narrow_units_in_range (w unit_watts : double) (r : Z) :
  round_half_away (fdiv w unit_watts) = Some r ->
  LLONG_MIN <= r <= LLONG_MAX ->
  narrow_units w unit_watts = r mod 2 ^ 16
  /\ (units_in_range (narrow_units w unit_watts) = true <->
      1 <= r mod 2 ^ 16 <= 0x7FFF).
Proof.
  intros Hr Hrange. unfold narrow_units, u16.
  rewrite (llround_exact _ r Hr Hrange). split; [reflexivity |].
  unfold units_in_range.
  rewrite negb_true_iff, orb_false_iff, Z.eqb_neq, Z.ltb_ge.
  pose proof (Z.mod_pos_bound r (2 ^ 16) ltac:(lia)). lia.
Qed.

(** The worked conversion: 55 W and 157 W at 1/8 W per unit. *)
Example build_units_values_example :
  build_units_values (unit_watts_of 3) (of_Z 55) (of_Z 157)
  = Some (0x1B8, 0x4E8).
Proof. vm_compute. reflexivity. Qed.

(** C3. The conversion of [limits_ui.c] narrows the rounded quotient to
    16 bits before it tests the range: with a power unit of 1/16 W, a
    request of 4097 W rounds to 65552 units, which is above 32767, and is
    nevertheless accepted as 16 units and written to both registers; the
    Qt front end rejects the same request, and the scanner accepts
    8193 W at 1/8 W as 8 units in the same way. *)
Theorem set_limits_narrows_before_range_check :
  let unit_watts := unit_watts_of (power_unit_of 4) in
  round_half_away (fdiv (of_Z 4097) unit_watts) = Some 65552
  /\ fle (of_Z 4097) d5000 = true
  /\ set_limits_units unit_watts (of_Z 4097) (of_Z 100) = Some (16, 1600)
  /\ build_units_values unit_watts (of_Z 4097) (of_Z 100) = None
  /\ (let '(code, w) :=
        Cli.set_limits (Cli.bench_input 4097 100 1) unit_watts
          Cli.bench_world in
      code = 0 /\ decode (Cli.msr_now w) = (16, 1600)
      /\ decode (Cli.mmio_now w) = (16, 1600))
  /\ round_half_away (fdiv (of_Z 8193) (unit_watts_of (power_unit_of 3)))
     = Some 65544
  /\ narrow_units (of_Z 8193) (unit_watts_of (power_unit_of 3)) = 8.
Proof. vm_compute. repeat split; reflexivity. Qed.

End WattsToUnits.

(** ** Correct rounding of the binary64 operations

    What [binary_round_aux] guarantees, as far as the stability of the
    voltage-offset step needs it: a mantissa kept at 53 digits lies
    within half a unit of its last place of the value rounded. *)

Section Rounding.

Local Open Scope Z_scope.

(** *** Digits *)

Lemma digits2_size (p : positive) : digits2_pos p = Pos.size p.
Proof. induction p as [p IH | p IH |]; simpl; now rewrite ?IH. Qed.

Lemma Zdigits2_log2 (p : positive) :
  Zdigits2 (Z.pos p) = Z.log2 (Z.pos p) + 1.
Proof.
  unfold Zdigits2. rewrite digits2_size.
  destruct p as [p | p |]; simpl; rewrite ?Pos2Z.inj_succ; lia.
Qed.

Lemma Zdigits2_bounds (m d : Z) :
  0 < m -> Zdigits2 m = d -> 2 ^ (d - 1) <= m < 2 ^ d.
Proof.
  intros Hm <-. destruct m as [| p | p]; try lia.
  rewrite Zdigits2_log2.
  replace (Z.log2 (Z.pos p) + 1 - 1) with (Z.log2 (Z.pos p)) by lia.
  pose proof (Z.log2_spec (Z.pos p) ltac:(lia)) as H.
  unfold Z.succ in H. exact H.
Qed.

Lemma Zdigits2_unique (m d : Z) :
  2 ^ (d - 1) <= m < 2 ^ d -> 0 < d -> Zdigits2 m = d.
Proof.
  intros Hm Hd.
  assert (0 < m) by (pose proof (Z.pow_pos_nonneg 2 (d - 1)); lia).
  destruct m as [| p | p]; try lia.
  rewrite Zdigits2_log2.
  rewrite (Z.log2_unique (Z.pos p) (d - 1)); [lia | lia |].
  unfold Z.succ. replace (d - 1 + 1) with d by lia. exact Hm.
Qed.

(** *** Shifting right *)

Lemma iter_pos_nat {A : Type} (f : A -> A) (p : positive) :
  forall x, @SpecFloat.iter_pos A f p x = Nat.iter (Pos.to_nat p) f x.
Proof.
  assert (Hadd : forall a b (x : A),
            Nat.iter (a + b) f x = Nat.iter a f (Nat.iter b f x)).
  { induction a as [| a IH]; intros b x; simpl; [reflexivity |].
    now rewrite IH. }
  assert (Hswap : forall a (x : A), Nat.iter a f (f x) = f (Nat.iter a f x)).
  { induction a as [| a IH]; intros x; simpl; [reflexivity |].
    now rewrite IH. }
  induction p as [p IH | p IH |]; intros x; cbn [SpecFloat.iter_pos].
  - rewrite !IH, Pos2Nat.inj_xI.
    replace (S (2 * Pos.to_nat p)) with (Pos.to_nat p + (Pos.to_nat p + 1))%nat
      by lia.
    rewrite !Hadd. reflexivity.
  - rewrite !IH, Pos2Nat.inj_xO.
    replace (2 * Pos.to_nat p)%nat with (Pos.to_nat p + Pos.to_nat p)%nat
      by lia.
    now rewrite Hadd.
  - reflexivity.
Qed.

Lemma shr_1_nonneg (m : Z) (r s : bool) :
  0 <= m ->
  shr_1 (Build_shr_record m r s)
  = Build_shr_record (m / 2) (Z.odd m) (r || s).
Proof.
  intros Hm. rewrite <- Z.div2_div.
  destruct m as [| [p | p |] | p]; try lia; reflexivity.
Qed.

Lemma mod_pow2_succ (m j : Z) :
  0 <= j ->
  m mod 2 ^ (j + 1) = m mod 2 ^ j + 2 ^ j * ((m / 2 ^ j) mod 2).
Proof.
  intros Hj. rewrite Z.pow_add_r by lia. change (2 ^ 1) with 2.
  apply Z.rem_mul_r; lia.
Qed.

Lemma iter_shr_1 (j : nat) (m : Z) (r s : bool) :
  0 <= m ->
  Nat.iter (S j) shr_1 (Build_shr_record m r s)
  = Build_shr_record (m / 2 ^ (Z.of_nat j + 1))
      (Z.odd (m / 2 ^ Z.of_nat j))
      (r || s || negb (m mod 2 ^ Z.of_nat j =? 0)).
Proof.
  intros Hm. induction j as [| j IH].
  - change (Nat.iter 1 shr_1 ?x) with (shr_1 x).
    rewrite shr_1_nonneg by exact Hm.
    change (Z.of_nat 0) with 0. change (2 ^ 0) with 1.
    rewrite Z.div_1_r, Z.mod_1_r. change (2 ^ (0 + 1)) with 2.
    now rewrite orb_false_r.
  - change (Nat.iter (S (S j)) shr_1 ?x) with (shr_1 (Nat.iter (S j) shr_1 x)).
    rewrite IH, shr_1_nonneg
      by (apply Z.div_pos; [lia | apply Z.pow_pos_nonneg; lia]).
    rewrite Nat2Z.inj_succ. unfold Z.succ.
    f_equal.
    + rewrite Z.div_div by (try apply Z.pow_pos_nonneg; lia).
      rewrite (Z.pow_add_r 2 (Z.of_nat j + 1) 1) by lia. reflexivity.
    + pose proof (mod_pow2_succ m (Z.of_nat j) ltac:(lia)) as Hmod.
      pose proof (Z.mod_pos_bound m (2 ^ Z.of_nat j)
                    ltac:(apply Z.pow_pos_nonneg; lia)) as Hlow.
      assert (Hp : 0 < 2 ^ Z.of_nat j) by (apply Z.pow_pos_nonneg; lia).
      rewrite Hmod.
      rewrite (Zmod_odd (m / 2 ^ Z.of_nat j)).
      destruct (Z.odd (m / 2 ^ Z.of_nat j)); cbn [orb].
      * destruct (Z.eqb_spec (m mod 2 ^ Z.of_nat j + 2 ^ Z.of_nat j * 1) 0);
          [lia |].
        destruct r, s; reflexivity.
      * rewrite Z.mul_0_r, Z.add_0_r. reflexivity.
Qed.

(** *** One rounding *)

Lemma loc_of_shr_record_of_loc (m : Z) (l : location) :
  loc_of_shr_record (shr_record_of_loc m l) = l
  /\ shr_m (shr_record_of_loc m l) = m.
Proof. destruct l as [| []]; split; reflexivity. Qed.

Lemma shr_record_of_loc_bits (m : Z) (l : location) :
  exists r s,
    shr_record_of_loc m l = Build_shr_record m r s
    /\ (r || s = false -> l = loc_Exact).
Proof.
  destruct l as [| []]; simpl; eexists _, _; split; try reflexivity;
    discriminate.
Qed.

(** The mantissa after the first shift and the rounding to nearest even,
    for a mantissa [m] of [53 + k] digits standing for [m + r / c]. *)
Lemma round_stage (m e c r k : Z) (l : location) :
  0 < c -> 0 <= r < c -> loc_of r c l ->
  2 ^ (52 + k) <= m < 2 ^ (53 + k) -> 0 <= k ->
  exists mrs,
    shr (shr_record_of_loc m l) e k = (mrs, e + k)
    /\ let m' := round_nearest_even (shr_m mrs) (loc_of_shr_record mrs) in
       2 ^ 52 <= m' <= 2 ^ 53
       /\ 2 * Z.abs (m' * 2 ^ k * c - (m * c + r)) <= 2 ^ k * c.
Proof.
  intros Hc Hr Hl Hm Hk.
  assert (Hm0 : 0 < m).
  { pose proof (Z.pow_pos_nonneg 2 (52 + k)). lia. }
  destruct k as [| p | p]; [| | lia].
  - (* no shift *)
    exists (shr_record_of_loc m l). split; [cbn; now rewrite Z.add_0_r |].
    destruct (loc_of_shr_record_of_loc m l) as [-> ->].
    change (2 ^ (52 + 0)) with (2 ^ 52) in Hm.
    change (2 ^ (53 + 0)) with (2 ^ 53) in Hm.
    change (2 ^ 0) with 1. cbv zeta.
    destruct Hl as [[-> ->] | [Hr0 ->]]; cbn [round_nearest_even].
    + split; lia.
    + destruct (Z.compare_spec (2 * r) c) as [Heq | Hlt | Hgt].
      * destruct (Z.even m); split; lia.
      * split; lia.
      * split; lia.
  - (* a shift by [p >= 1] *)
    destruct (shr_record_of_loc_bits m l) as (r0 & s0 & Hrec & Hexact).
    destruct (Pos2Nat.is_succ p) as [j Hj].
    assert (Hjp : Z.of_nat j + 1 = Z.pos p) by lia.
    exists (Build_shr_record (m / 2 ^ Z.pos p) (Z.odd (m / 2 ^ Z.of_nat j))
              (r0 || s0 || negb (m mod 2 ^ Z.of_nat j =? 0))).
    split.
    { unfold shr. rewrite Hrec, iter_pos_nat, Hj, iter_shr_1 by lia.
      now rewrite Hjp. }
    set (h := 2 ^ Z.of_nat j).
    assert (Hh : 0 < h) by (apply Z.pow_pos_nonneg; lia).
    assert (H2h : 2 ^ Z.pos p = 2 * h).
    { rewrite <- Hjp, Z.pow_add_r by lia. change (2 ^ 1) with 2. lia. }
    set (a := m / h). set (t := m mod h).
    assert (Hat : m = h * a + t) by (apply Z.div_mod; lia).
    assert (Ht : 0 <= t < h) by (apply Z.mod_pos_bound; lia).
    assert (HH : m / 2 ^ Z.pos p = a / 2).
    { rewrite H2h, Z.mul_comm. rewrite <- Z.div_div by lia. reflexivity. }
    set (H := a / 2) in *.
    assert (Ha : a = 2 * H + (if Z.odd a then 1 else 0)).
    { unfold H. rewrite <- Z.div2_div. apply Z.div2_odd. }
    rewrite (Z.pow_add_r 2 52 (Z.pos p)), (Z.pow_add_r 2 53 (Z.pos p)) in Hm
      by lia.
    rewrite H2h in Hm.
    cbn [shr_m]. rewrite HH, H2h. fold h t a.
    assert (Hbound : 2 ^ 52 <= H < 2 ^ 53).
    { destruct (Z.odd a); nia. }
    cbv zeta.
    destruct (Z.odd a) eqn:Hodd; cbn [loc_of_shr_record].
    + (* the first bit dropped is set *)
      destruct (r0 || s0 || negb (t =? 0)) eqn:Hst;
        cbn [round_nearest_even].
      * split; [lia | nia].
      * apply orb_false_elim in Hst as [Hin Ht0].
        apply negb_false_iff, Z.eqb_eq in Ht0.
        specialize (Hexact Hin). subst l.
        destruct Hl as [[-> _] | [_ Hl]]; [| discriminate].
        destruct (Z.even H); split; try lia; nia.
    + (* the first bit dropped is clear *)
      assert (2 * Z.abs (H * (2 * h) * c - (m * c + r)) <= 2 * h * c)
        by nia.
      destruct (r0 || s0 || negb (t =? 0)); cbn [round_nearest_even];
        split; lia.
Qed.

(** [binary_round_aux] on a mantissa of [53 + k] digits that stands for
    [m + r / c]: the result is a normal number within half a unit of the
    last place kept. *)
Lemma round_aux_bound (sx : bool) (m e c r k : Z) (l : location) :
  0 < c -> 0 <= r < c -> loc_of r c l ->
  2 ^ (52 + k) <= m < 2 ^ (53 + k) -> 0 <= k ->
  - 1074 <= e + k -> e + k + 1 <= 971 ->
  exists m' e',
    binary_round_aux prec emax sx m e l = S754_finite sx m' e'
    /\ 2 ^ 52 <= Z.pos m' < 2 ^ 53
    /\ (e' = e + k \/ e' = e + k + 1)
    /\ 2 * Z.abs (Z.pos m' * 2 ^ (e' - e) * c - (m * c + r)) <= 2 ^ k * c.
Proof.
  intros Hc Hr Hl Hm Hk Hlo Hhi.
  assert (Hdig : Zdigits2 m = 53 + k).
  { apply Zdigits2_unique; [| lia].
    replace (53 + k - 1) with (52 + k) by lia. exact Hm. }
  destruct (round_stage m e c r k l Hc Hr Hl Hm Hk)
    as (mrs & Hshr & Hm' & Herr).
  unfold binary_round_aux, shr_fexp.
  replace (fexp prec emax (Zdigits2 m + e) - e) with k
    by (rewrite Hdig; unfold fexp, emin, prec, emax; lia).
  rewrite Hshr.
  set (m1 := round_nearest_even (shr_m mrs) (loc_of_shr_record mrs)) in *.
  destruct (Z.eq_dec m1 (2 ^ 53)) as [Htop | Htop].
  - (* rounded up to the next power of two *)
    rewrite Htop.
    replace (fexp prec emax (Zdigits2 (2 ^ 53) + (e + k)) - (e + k)) with 1
      by (change (Zdigits2 (2 ^ 53)) with 54;
          unfold fexp, emin, prec, emax; lia).
    cbn [shr_record_of_loc shr SpecFloat.iter_pos].
    change (shr_1 (Build_shr_record (2 ^ 53) false false))
      with (Build_shr_record (2 ^ 52) false false).
    cbn [shr_m]. change (2 ^ 52) with (Z.pos (2 ^ 52)) at 1.
    cbv iota beta.
    replace (e + k + 1 <=? emax - prec) with true
      by (symmetry; apply Z.leb_le; unfold emax, prec; lia).
    exists (2 ^ 52)%positive, (e + k + 1).
    split; [reflexivity |]. split; [split; [reflexivity | reflexivity] |].
    split; [now right |].
    replace (e + k + 1 - e) with (k + 1) by lia.
    rewrite Z.pow_add_r by lia. change (2 ^ 1) with 2.
    rewrite Htop in Herr.
    change (Z.pos (2 ^ 52)) with (2 ^ 52).
    replace (2 ^ 52 * (2 ^ k * 2) * c) with (2 ^ 53 * 2 ^ k * c)
      by (change (2 ^ 53) with (2 ^ 52 * 2); ring).
    exact Herr.
  - assert (Hdig1 : Zdigits2 m1 = 53).
    { apply Zdigits2_unique; [| lia]. change (53 - 1) with 52. lia. }
    replace (fexp prec emax (Zdigits2 m1 + (e + k)) - (e + k)) with 0
      by (rewrite Hdig1; unfold fexp, emin, prec, emax; lia).
    cbn [shr]. destruct (loc_of_shr_record_of_loc m1 loc_Exact) as [_ ->].
    destruct m1 as [| m' | m'] eqn:Hm1; try lia.
    replace (e + k <=? emax - prec) with true
      by (symmetry; apply Z.leb_le; unfold emax, prec; lia).
    exists m', (e + k).
    split; [reflexivity |]. split; [lia |]. split; [now left |].
    replace (e + k - e) with k by lia. exact Herr.
Qed.

(** *** Integers as doubles *)

Lemma iter_xO (p n : positive) :
  Z.pos (Pos.iter xO p n) = Z.pos p * 2 ^ Z.pos n.
Proof.
  induction n as [| n IH] using Pos.peano_ind.
  - cbn [Pos.iter]. rewrite Pos2Z.inj_xO. change (2 ^ 1) with 2. lia.
  - rewrite Pos.iter_succ, Pos2Z.inj_xO, IH, Pos2Z.inj_succ.
    rewrite Z.pow_succ_r by lia. ring.
Qed.

(** A positive integer of at most 52 digits is a double as it is, with
    its mantissa shifted to 53 digits. *)
Lemma binary_round_exact (s : bool) (p : positive) (d : Z) :
  2 ^ (d - 1) <= Z.pos p < 2 ^ d -> 1 <= d <= 52 ->
  exists M1,
    binary_round prec emax s p 0 = S754_finite s M1 (d - 53)
    /\ Z.pos M1 = Z.pos p * 2 ^ (53 - d).
Proof.
  intros Hp Hd.
  assert (Hdig : Z.pos (digits2_pos p) = d).
  { change (Z.pos (digits2_pos p)) with (Zdigits2 (Z.pos p)).
    apply Zdigits2_unique; [exact Hp | lia]. }
  unfold binary_round. rewrite Hdig.
  replace (fexp prec emax (d + 0)) with (d - 53)
    by (unfold fexp, emin, prec, emax; lia).
  unfold shl_align.
  destruct (d - 53 - 0) as [| q | q] eqn:Hq; try lia.
  assert (Hq' : Z.pos q = 53 - d) by lia.
  pose proof (iter_xO p q) as Hmz. rewrite Hq' in Hmz.
  set (mz := Pos.iter xO p q) in *.
  assert (Hpow : 2 ^ (d - 1) * 2 ^ (53 - d) = 2 ^ 52).
  { rewrite <- Z.pow_add_r by lia. f_equal. lia. }
  assert (Hpow' : 2 ^ d * 2 ^ (53 - d) = 2 ^ 53).
  { rewrite <- Z.pow_add_r by lia. f_equal. lia. }
  assert (Hshift : 0 < 2 ^ (53 - d)) by (apply Z.pow_pos_nonneg; lia).
  assert (Hmzb : 2 ^ (52 + 0) <= Z.pos mz < 2 ^ (53 + 0)).
  { change (2 ^ (52 + 0)) with (2 ^ 52). change (2 ^ (53 + 0)) with (2 ^ 53).
    rewrite Hmz, <- Hpow, <- Hpow'. split.
    - apply Z.mul_le_mono_nonneg_r; lia.
    - apply Z.mul_lt_mono_pos_r; lia. }
  destruct (round_aux_bound s (Z.pos mz) (d - 53) 1 0 0 loc_Exact)
    as (m' & e' & Hres & Hm' & He' & Herr);
    try lia; [left; split; reflexivity |].
  exists m'. rewrite Hres.
  change (2 ^ (52 + 0)) with (2 ^ 52) in Hmzb.
  change (2 ^ (53 + 0)) with (2 ^ 53) in Hmzb.
  change (2 ^ 0) with 1 in Herr.
  destruct He' as [-> | ->].
  - replace (d - 53 + 0 - (d - 53)) with 0 in Herr by lia.
    change (2 ^ 0) with 1 in Herr.
    replace (d - 53 + 0) with (d - 53) by lia.
    split; [reflexivity | lia].
  - replace (d - 53 + 0 + 1 - (d - 53)) with 1 in Herr by lia.
    change (2 ^ 1) with 2 in Herr. lia.
Qed.

(** *** Rounding to an integer *)

Lemma round_half_away_near (s : bool) (mp : positive) (ep n : Z) :
  ep < 0 ->
  2 * Z.abs (Z.pos mp - n * 2 ^ (- ep)) < 2 ^ (- ep) ->
  round_half_away (S754_finite s mp ep) = Some (if s then - n else n).
Proof.
  intros Hep Hnear. unfold round_half_away.
  destruct (Z.leb_spec 0 ep); [lia |]. cbv zeta.
  set (d := 2 ^ (- ep)) in *.
  assert (Hd : 0 < d) by (apply Z.pow_pos_nonneg; lia).
  pose proof (Z.div_mod (Z.pos mp) d ltac:(lia)) as Hdm.
  pose proof (Z.mod_pos_bound (Z.pos mp) d Hd) as Hr.
  set (q := Z.pos mp / d) in *. set (r := Z.pos mp mod d) in *.
  assert (Hq : (if d <=? 2 * r then q + 1 else q) = n).
  { destruct (Z.leb_spec d (2 * r)); nia. }
  now rewrite Hq.
Qed.

(** *** Dividing by the scale and multiplying back *)

Lemma new_location_scale (r : Z) :
  0 <= r < scale_mantissa ->
  loc_of r scale_mantissa (new_location scale_mantissa r).
Proof.
  intros Hr. unfold new_location.
  change (Z.even scale_mantissa) with true. cbv iota.
  unfold new_location_even, loc_of.
  destruct (Z.eqb_spec r 0) as [-> | Hne]; [now left | right].
  split; [lia | reflexivity].
Qed.

Lemma fdiv_scale_bound (s : bool) (M1 : positive) (E1 : Z) :
  2 ^ 52 <= Z.pos M1 < 2 ^ 53 -> - 1000 <= E1 <= 900 ->
  exists mq eq k j,
    fdiv (S754_finite s M1 E1) kUvMvScale = S754_finite s mq eq
    /\ 2 ^ 52 <= Z.pos mq < 2 ^ 53
    /\ (k = 0 \/ k = 1) /\ (j = 0 \/ j = 1)
    /\ eq = E1 - 1 + k + j
    /\ 2 * Z.abs (Z.pos mq * 2 ^ (k + j) * scale_mantissa
                  - Z.pos M1 * 2 ^ 53)
       <= 2 ^ k * scale_mantissa.
Proof.
  intros HM1 HE1.
  unfold fdiv, kUvMvScale, SFdiv, SFdiv_core_binary.
  replace (Zdigits2 (Z.pos M1)) with 53
    by (symmetry; apply Zdigits2_unique; [exact HM1 | lia]).
  change (Zdigits2 (Z.pos 0x10624DD2F1A9FC)) with 53.
  replace (Z.min (fexp prec emax (53 + E1 - (53 + -52))) (E1 - -52))
    with (E1 - 1) by (unfold fexp, emin, prec, emax; lia).
  replace (E1 - -52 - (E1 - 1)) with 53 by lia.
  cbv iota beta. rewrite Z.shiftl_mul_pow2 by lia.
  change (Z.pos 0x10624DD2F1A9FC) with scale_mantissa.
  set (N := Z.pos M1 * 2 ^ 53).
  assert (Hc : 2 ^ 52 < scale_mantissa < 2 ^ 53)
    by (unfold scale_mantissa; lia).
  pose proof (Z.div_mod N scale_mantissa ltac:(lia)) as Hdm.
  pose proof (Z.mod_pos_bound N scale_mantissa ltac:(lia)) as Hr.
  assert (Hdiv : Z.div_eucl N scale_mantissa
                 = (N / scale_mantissa, N mod scale_mantissa)).
  { unfold Z.div, Z.modulo. now destruct (Z.div_eucl N scale_mantissa). }
  rewrite Hdiv.
  set (q0 := N / scale_mantissa) in *. set (r := N mod scale_mantissa) in *.
  rewrite xorb_false_r.
  assert (Hq0 : 2 ^ 52 <= q0 < 2 ^ 54) by (unfold N in *; nia).
  pose proof (new_location_scale r Hr) as Hloc.
  destruct (Z.lt_ge_cases q0 (2 ^ 53)) as [Hsmall | Hlarge].
  - destruct (round_aux_bound s q0 (E1 - 1) scale_mantissa r 0
                (new_location scale_mantissa r))
      as (mq & eq & Hres & Hmq & Heq & Herr); try lia.
    { exact Hloc. }
    exists mq, eq, 0.
    destruct Heq as [-> | ->]; [exists 0 | exists 1];
      (split; [exact Hres |]); (split; [exact Hmq |]);
      (split; [now left |]); (split; [auto |]); (split; [lia |]).
    + replace (E1 - 1 + 0 - (E1 - 1)) with (0 + 0) in Herr by lia.
      lia.
    + replace (E1 - 1 + 0 + 1 - (E1 - 1)) with (0 + 1) in Herr by lia.
      lia.
  - destruct (round_aux_bound s q0 (E1 - 1) scale_mantissa r 1
                (new_location scale_mantissa r))
      as (mq & eq & Hres & Hmq & Heq & Herr); try lia.
    { exact Hloc. }
    exists mq, eq, 1.
    destruct Heq as [-> | ->]; [exists 0 | exists 1];
      (split; [exact Hres |]); (split; [exact Hmq |]);
      (split; [now right |]); (split; [auto |]); (split; [lia |]).
    + replace (E1 - 1 + 1 - (E1 - 1)) with (1 + 0) in Herr by lia.
      lia.
    + replace (E1 - 1 + 1 + 1 - (E1 - 1)) with (1 + 1) in Herr by lia.
      lia.
Qed.

Lemma fmul_scale_bound (s : bool) (mq : positive) (eq : Z) :
  2 ^ 52 <= Z.pos mq < 2 ^ 53 -> - 1000 <= eq <= 900 ->
  exists mp ep k j,
    fmul (S754_finite s mq eq) kUvMvScale = S754_finite s mp ep
    /\ 2 ^ 52 <= Z.pos mp < 2 ^ 53
    /\ (k = 52 \/ k = 53) /\ (j = 0 \/ j = 1)
    /\ ep = eq - 52 + k + j
    /\ 2 * Z.abs (Z.pos mp * 2 ^ (k + j) - Z.pos mq * scale_mantissa)
       <= 2 ^ k.
Proof.
  intros Hmq Heq.
  unfold fmul, kUvMvScale, SFmul. rewrite xorb_false_r, Pos2Z.inj_mul.
  change (Z.pos 0x10624DD2F1A9FC) with scale_mantissa.
  assert (Hc : 2 ^ 52 < scale_mantissa < 2 ^ 53)
    by (unfold scale_mantissa; lia).
  set (P := Z.pos mq * scale_mantissa).
  assert (HP : 2 ^ 104 <= P < 2 ^ 106) by (unfold P; nia).
  destruct (Z.lt_ge_cases P (2 ^ 105)) as [Hsmall | Hlarge].
  - destruct (round_aux_bound s P (eq + -52) 1 0 52 loc_Exact)
      as (mp & ep & Hres & Hmp & Hep & Herr); try lia.
    { left. split; reflexivity. }
    exists mp, ep, 52.
    destruct Hep as [-> | ->]; [exists 0 | exists 1];
      (split; [exact Hres |]); (split; [exact Hmp |]);
      (split; [now left |]); (split; [auto |]); (split; [lia |]).
    + replace (eq + -52 + 52 - (eq + -52)) with (52 + 0) in Herr by lia. lia.
    + replace (eq + -52 + 52 + 1 - (eq + -52)) with (52 + 1) in Herr by lia.
      lia.
  - destruct (round_aux_bound s P (eq + -52) 1 0 53 loc_Exact)
      as (mp & ep & Hres & Hmp & Hep & Herr); try lia.
    { left. split; reflexivity. }
    exists mp, ep, 53.
    destruct Hep as [-> | ->]; [exists 0 | exists 1];
      (split; [exact Hres |]); (split; [exact Hmp |]);
      (split; [now right |]); (split; [auto |]); (split; [lia |]).
    + replace (eq + -52 + 53 - (eq + -52)) with (53 + 0) in Herr by lia. lia.
    + replace (eq + -52 + 53 + 1 - (eq + -52)) with (53 + 1) in Herr by lia.
      lia.
Qed.

Lemma feq_finite_refl (s : bool) (m : positive) (e : Z) :
  feq (S754_finite s m e) (S754_finite s m e) = true.
Proof.
  unfold feq, SFeqb, SFcompare. rewrite Z.compare_refl.
  change (Pos.compare_cont Eq m m) with (Pos.compare m m).
  rewrite Pos.compare_refl. now destruct s.
Qed.


Ltac literal_powers_in H :=
  repeat match type of H with
  | context [2 ^ (?a + ?b)] =>
      let v := eval compute in (a + b) in
      change (2 ^ (a + b)) with (2 ^ v) in H
  end.

Lemma stable_finite (s : bool) (M1 : positive) (E1 n : Z) :
  2 ^ 52 <= Z.pos M1 < 2 ^ 53 -> - 52 <= E1 <= - 2 ->
  Z.pos M1 = n * 2 ^ (- E1) ->
  round_half_away
    (fmul (fdiv (S754_finite s M1 E1) kUvMvScale) kUvMvScale)
  = Some (if s then - n else n)
  /\ feq (fdiv (S754_finite s M1 E1) kUvMvScale)
         (fdiv (S754_finite s M1 E1) kUvMvScale) = true.
Proof.
  intros HM1 HE1 Hn.
  destruct (fdiv_scale_bound s M1 E1 HM1 ltac:(lia))
    as (mq & eq & k1 & j1 & Hq & Hmq & Hk1 & Hj1 & Heq & Herr1).
  rewrite Hq. split; [| apply feq_finite_refl].
  destruct (fmul_scale_bound s mq eq Hmq ltac:(lia))
    as (mp & ep & k2 & j2 & Hp & Hmp & Hk2 & Hj2 & Hep & Herr2).
  rewrite Hp. clear Hq Hp.
  assert (Hc : scale_mantissa = 0x10624DD2F1A9FC) by reflexivity.
  assert (Hsum : exists t, ep = E1 - 53 + t /\ (t = 52 \/ t = 53 \/ t = 54)
            /\ 2 * Z.abs (Z.pos mp * 2 ^ t - Z.pos M1 * 2 ^ 53) < 2 ^ 55).
  { subst eq.
    destruct Hk1 as [-> | ->], Hj1 as [-> | ->], Hk2 as [-> | ->],
      Hj2 as [-> | ->];
      literal_powers_in Herr1; literal_powers_in Herr2.
    all: try (exfalso; lia).
    all: try (exists 52; split; [lia |]; split; [auto | lia]).
    all: try (exists 53; split; [lia |]; split; [auto | lia]).
    all: try (exists 54; split; [lia |]; split; [auto | lia]). }
  destruct Hsum as (t & -> & Ht & Herr).
  clear Herr1 Herr2 Hep Heq Hk1 Hj1 Hk2 Hj2 Hmq.
  set (A := 2 ^ (- E1)) in *.
  assert (HA : 4 <= A).
  { change 4 with (2 ^ 2). apply Z.pow_le_mono_r; lia. }
  apply round_half_away_near; [lia |].
  destruct Ht as [-> | [-> | ->]].
  - replace (- (E1 - 53 + 52)) with (- E1 + 1) by lia.
    rewrite Z.pow_add_r by lia. change (2 ^ 1) with 2. fold A. lia.
  - replace (- (E1 - 53 + 53)) with (- E1) by lia. fold A. lia.
  - replace (- (E1 - 53 + 54)) with (- E1 - 1) by lia.
    assert (Hhalf : A = 2 * 2 ^ (- E1 - 1)).
    { unfold A. rewrite <- (Z.pow_succ_r 2 (- E1 - 1)) by lia.
      f_equal. lia. }
    set (B := 2 ^ (- E1 - 1)) in *.
    assert (HM : Z.pos M1 = 2 * (n * B)) by lia.
    set (X := n * B) in *. lia.
Qed.

(** Every step count below [2 ^ 51] in magnitude survives the division
    by the scale and the multiplication back. *)
Lemma wide_steps_stable (n : Z) :
  - 2 ^ 51 < n < 2 ^ 51 -> steps_stable n = true.
Proof.
  intros Hn. unfold steps_stable. cbv zeta.
  assert (Hpos : forall (s : bool) (p : positive),
            Z.pos p < 2 ^ 51 ->
            let x := binary_round prec emax s p 0 in
            llround (fmul (fdiv x kUvMvScale) kUvMvScale)
            = (if s then - Z.pos p else Z.pos p)
            /\ feq (fdiv x kUvMvScale) (fdiv x kUvMvScale) = true).
  { intros s p Hp x. subst x.
    pose proof (Zdigits2_bounds (Z.pos p) _ ltac:(lia) eq_refl) as Hd.
    set (d := Zdigits2 (Z.pos p)) in *.
    assert (Hd1 : 1 <= d <= 51).
    { split.
      - unfold d. rewrite Zdigits2_log2.
        pose proof (Z.log2_nonneg (Z.pos p)). lia.
      - destruct (Z.le_gt_cases d 51) as [H | H]; [exact H |].
        assert (2 ^ 51 <= 2 ^ (d - 1)) by (apply Z.pow_le_mono_r; lia).
        lia. }
    destruct (binary_round_exact s p d Hd ltac:(lia)) as (M1 & -> & HM1).
    assert (Hlow : 2 ^ (d - 1) * 2 ^ (53 - d) = 2 ^ 52).
    { rewrite <- Z.pow_add_r by lia. f_equal. lia. }
    assert (Hhigh : 2 ^ d * 2 ^ (53 - d) = 2 ^ 53).
    { rewrite <- Z.pow_add_r by lia. f_equal. lia. }
    assert (Hshift : 0 < 2 ^ (53 - d)) by (apply Z.pow_pos_nonneg; lia).
    destruct (stable_finite s M1 (d - 53) (Z.pos p)) as [Hround Hnum].
    - rewrite HM1, <- Hlow, <- Hhigh. split.
      + apply Z.mul_le_mono_nonneg_r; lia.
      + apply Z.mul_lt_mono_pos_r; lia.
    - lia.
    - rewrite HM1. f_equal. f_equal. lia.
    - split; [| exact Hnum]. unfold llround. rewrite Hround.
      unfold LLONG_MIN, LLONG_MAX.
      destruct s.
      + destruct (Z.leb_spec (- 2 ^ 63) (- Z.pos p)); [| lia].
        destruct (Z.leb_spec (- Z.pos p) (2 ^ 63 - 1)); [| lia].
        reflexivity.
      + destruct (Z.leb_spec (- 2 ^ 63) (Z.pos p)); [| lia].
        destruct (Z.leb_spec (Z.pos p) (2 ^ 63 - 1)); [| lia].
        reflexivity. }
  destruct n as [| p | p].
  - vm_compute. reflexivity.
  - destruct (Hpos false p ltac:(lia)) as [Hround Hnum].
    change (of_Z (Z.pos p)) with (binary_round prec emax false p 0).
    rewrite Hround, Hnum, Z.eqb_refl. reflexivity.
  - destruct (Hpos true p ltac:(lia)) as [Hround Hnum].
    change (of_Z (Z.neg p)) with (binary_round prec emax true p 0).
    rewrite Hround, Hnum. change (- Z.pos p) with (Z.neg p).
    rewrite Z.eqb_refl. reflexivity.
Qed.

End Rounding.

(** ** The voltage-offset step *)

Section Quantize.

Local Open Scope Z_scope.

Lemma block_sound (P : Z -> bool) (depth : nat) :
  forall lo, block P depth lo = true ->
  forall n, lo <= n < lo + 2 ^ Z.of_nat depth -> P n = true.
Proof.
  induction depth as [| d IH]; intros lo Hblock n Hn.
  - simpl in *. replace n with lo by lia. exact Hblock.
  - simpl in Hblock. apply andb_prop in Hblock as [Hlow Hhigh].
    rewrite Nat2Z.inj_succ, Z.pow_succ_r in Hn by lia.
    destruct (Z.lt_ge_cases n (lo + 2 ^ Z.of_nat d)).
    + apply (IH lo Hlow). lia.
    + apply (IH _ Hhigh). lia.
Qed.

Lemma spin_steps_are_small (mv : Z) :
  - 500 <= mv <= 500 -> small_steps (uv_steps (of_Z mv)).
Proof.
  intros Hmv.
  assert (H : spin_steps_small mv = true).
  { apply (block_sound spin_steps_small 10 (- 500)).
    - vm_compute. reflexivity.
    - change (2 ^ Z.of_nat 10) with 1024. lia. }
  unfold spin_steps_small in H. apply andb_prop in H as [Hlo Hhi].
  apply Z.leb_le in Hlo. apply Z.ltb_lt in Hhi. split; assumption.
Qed.

Lemma quantize_of_steps (x : double) :
  quantize_uv_mv x = fdiv (of_Z (uv_steps x)) kUvMvScale.
Proof. reflexivity. Qed.

Lemma quantize_stable (x : double) :
  - 2 ^ 51 < uv_steps x < 2 ^ 51 ->
  quantize_uv_mv (quantize_uv_mv x) = quantize_uv_mv x
  /\ feq (quantize_uv_mv (quantize_uv_mv x)) (quantize_uv_mv x) = true.
Proof.
  intros Hsteps. apply wide_steps_stable in Hsteps.
  unfold steps_stable in Hsteps. cbv zeta in Hsteps.
  apply andb_prop in Hsteps as [Hsteps Hnum]. apply Z.eqb_eq in Hsteps.
  assert (Heq : quantize_uv_mv (quantize_uv_mv x) = quantize_uv_mv x).
  { rewrite (quantize_of_steps (quantize_uv_mv x)).
    unfold uv_steps at 1. rewrite (quantize_of_steps x).
    now rewrite Hsteps. }
  split; [exact Heq |]. rewrite Heq, quantize_of_steps. exact Hnum.
Qed.

(** C9, as amended. Quantisation is stable on every [double] whose step
    count [llround(x * 1.024)] is below [2 ^ 51] in magnitude, whatever
    the value: below that count one unit in the last place of the
    product is at most a quarter, so dividing by the scale and
    multiplying back cannot leave the count. This covers every whole
    number of millivolts from -500 to 500, the values of the offset
    control. The bound is where stability ends: it fails for a step
    count less than 7 % above [2 ^ 51]. *)
Theorem quantize_uv_mv_stable_below_2_pow_51 :
  (forall x : double,
     - 2 ^ 51 < uv_steps x < 2 ^ 51 ->
     quantize_uv_mv (quantize_uv_mv x) = quantize_uv_mv x
     /\ feq (quantize_uv_mv (quantize_uv_mv x)) (quantize_uv_mv x) = true)
  /\ (forall mv : Z,
        - 500 <= mv <= 500 ->
        quantize_uv_mv (quantize_uv_mv (of_Z mv)) = quantize_uv_mv (of_Z mv)
        /\ feq (quantize_uv_mv (quantize_uv_mv (of_Z mv)))
               (quantize_uv_mv (of_Z mv)) = true)
  /\ (let x := S754_finite false 4691249611844349 (- 1) in
      is_double x = true
      /\ uv_steps x = 2401919801264307
      /\ 100 * uv_steps x < 107 * 2 ^ 51
      /\ feq (quantize_uv_mv (quantize_uv_mv x)) (quantize_uv_mv x) = false).
Proof.
  split; [exact quantize_stable | split].
  - intros mv Hmv. apply quantize_stable.
    destruct (spin_steps_are_small mv Hmv). lia.
  - vm_compute. repeat split; reflexivity.
Qed.

Lemma quantize_uv_mv_stable_below_2_pow_51_witness :
  - 2 ^ 51 < uv_steps (of_Z 2000000000000001) < 2 ^ 51
  /\ uv_steps (of_Z 2000000000000001) = 2048000000000001
  /\ quantize_uv_mv (quantize_uv_mv (of_Z 2000000000000001))
     = quantize_uv_mv (of_Z 2000000000000001).
Proof.
  assert (Hsteps : uv_steps (of_Z 2000000000000001) = 2048000000000001)
    by (vm_compute; reflexivity).
  assert (Hwide : - 2 ^ 51 < uv_steps (of_Z 2000000000000001) < 2 ^ 51)
    by (rewrite Hsteps; lia).
  split; [exact Hwide | split; [exact Hsteps |]].
  apply (proj1 quantize_uv_mv_stable_below_2_pow_51
           (of_Z 2000000000000001) Hwide).
Defined.

(** C9 as stated fails: 3000000000000070 is a finite [double], both
    roundings stay within [long long], and quantising it twice differs
    from quantising it once (...070.5 against ...071.0). *)
Lemma quantize_uv_mv_not_idempotent :
  let x := of_Z 3000000000000070 in
  is_double x = true
  /\ is_finite x = true
  /\ llround_in_range (fmul x kUvMvScale) = true
  /\ llround_in_range (fmul (quantize_uv_mv x) kUvMvScale) = true
  /\ quantize_uv_mv x = S754_finite false 6000000000000141 (-1)
  /\ quantize_uv_mv (quantize_uv_mv x)
     = S754_finite false 6000000000000142 (-1)
  /\ feq (quantize_uv_mv (quantize_uv_mv x)) (quantize_uv_mv x) = false.
Proof. vm_compute. repeat split; reflexivity. Qed.

(** 50 mV is applied as 51 steps, about 49.8047 mV. *)
Example quantize_uv_mv_example :
  uv_steps (of_Z 50) = 51
  /\ quantize_uv_mv (of_Z 50) = fdiv (of_Z 51) kUvMvScale.
Proof. vm_compute. split; reflexivity. Qed.

(** The scale is the [double] nearest to 1.024. *)
Example kUvMvScale_literal : kUvMvScale = fdiv (of_Z 1024) (of_Z 1000).
Proof. vm_compute. reflexivity. Qed.

End Quantize.

(** ** The apply workflow of the Qt front end *)

(** One stretch of a run, up to the next decision. *)
Ltac run_step :=
  cbn [Gui.bind Gui.emit Gui.ret Gui.stop Gui.show_error Gui.when Gui.asked
       Gui.finish fst snd app Gui.is_msr_target Gui.is_mmio_target].

Section ApplyLimits.

Import HelperState Gui.
Local Open Scope Z_scope.

(** *** Runs *)

Lemma bind_cases {A B} (m : Run A) (k : A -> Run B) :
  (snd m = None /\ bind m k = (fst m, None))
  \/ (exists a, snd m = Some a
                /\ bind m k = (fst m ++ fst (k a), snd (k a))).
Proof.
  destruct m as [t [a |]]; simpl.
  - right. exists a. split; [reflexivity |]. now destruct (k a).
  - left. split; reflexivity.
Qed.

(** *** A declined confirmation ends the run *)

Lemma declines_end_run_app (t t' : list event) :
  has_decline t = false ->
  declines_end_run (t ++ t') = declines_end_run t'
  /\ has_decline (t ++ t') = has_decline t'.
Proof.
  induction t as [| e t IH]; simpl; [auto |].
  intros H. apply orb_false_iff in H as [He Ht].
  destruct (IH Ht) as [IH1 IH2]. rewrite IH2.
  split; [| now rewrite He].
  destruct e as [| p [|] | | |]; simpl in *; auto; discriminate.
Qed.

Lemma tidy_bind {A B} (m : Run A) (k : A -> Run B) :
  tidy m -> (forall a, tidy (k a)) -> tidy (bind m k).
Proof.
  intros [Hend Hstop] Hk.
  destruct (bind_cases m k) as [[Hnone ->] | (a & Hsome & ->)].
  - split; simpl; auto.
  - assert (Hclean : has_decline (fst m) = false).
    { destruct (has_decline (fst m)); [| reflexivity].
      rewrite Hstop in Hsome by reflexivity. discriminate. }
    destruct (declines_end_run_app (fst m) (fst (k a)) Hclean) as [H1 H2].
    destruct (Hk a) as [Hend' Hstop'].
    split; simpl; [now rewrite H1 | now rewrite H2].
Qed.

Lemma tidy_ret {A} (a : A) : tidy (ret a).
Proof. split; simpl; [reflexivity | discriminate]. Qed.

Lemma tidy_stop {A} : tidy (@stop A).
Proof. split; simpl; [reflexivity | discriminate]. Qed.

Lemma tidy_emit (e : event) : is_decline e = false -> tidy (emit e).
Proof.
  intros He. split; simpl.
  - destruct e as [| p [|] | | |]; simpl in *; auto; discriminate.
  - rewrite He. discriminate.
Qed.

Lemma tidy_show_error {A} (title detail : string) :
  tidy (@show_error A title detail).
Proof.
  apply tidy_bind; [now apply tidy_emit | intros; apply tidy_stop].
Qed.

Lemma tidy_confirm_action (env : Env) (p : prompt) :
  tidy (confirm_action env p).
Proof.
  unfold confirm_action. destruct (env_confirm env p).
  - apply tidy_bind; [now apply tidy_emit | intros; apply tidy_ret].
  - split; simpl; reflexivity.
Qed.

Lemma tidy_when {A} (b : bool) (m : Run A) : tidy m -> tidy (when b m).
Proof.
  intros Hm. unfold when. destruct b; [| apply tidy_ret].
  apply tidy_bind; [exact Hm | intros; apply tidy_ret].
Qed.

Lemma tidy_helper_read (env : Env) (title : string) :
  tidy (helper_read env title).
Proof.
  unfold helper_read. destruct (env_read env).
  - apply tidy_bind; [now apply tidy_emit | intros; apply tidy_ret].
  - apply tidy_bind; [now apply tidy_emit | intros; apply tidy_show_error].
Qed.

Lemma tidy_helper_write (req : request) (answer : reply unit)
  (title : string) : tidy (helper_write req answer title).
Proof.
  unfold helper_write. destruct answer.
  - now apply tidy_emit.
  - apply tidy_bind; [now apply tidy_emit | intros; apply tidy_show_error].
Qed.

Lemma tidy_build_units (unit_watts : double) (ui : Ui) :
  tidy (build_units unit_watts ui).
Proof.
  unfold build_units. destruct (fle unit_watts zero);
    [apply tidy_show_error |].
  destruct (build_units_values _ _ _);
    [apply tidy_ret | apply tidy_show_error].
Qed.

Create HintDb tidy.
#[local] Hint Resolve tidy_ret tidy_stop tidy_show_error tidy_confirm_action
  tidy_when tidy_helper_read tidy_helper_write tidy_build_units : tidy.
#[local] Hint Extern 1 (tidy (emit _)) =>
  apply tidy_emit; reflexivity : tidy.
#[local] Hint Extern 2 (tidy (bind _ _)) =>
  apply tidy_bind; [| intros] : tidy.
#[local] Hint Extern 2 (tidy (if ?b then _ else _)) => destruct b : tidy.
#[local] Hint Extern 2 (tidy (let '(_, _) := ?p in _)) => destruct p : tidy.

Lemma tidy_apply_limits_run (target : Target) (confirm do_refresh : bool)
  (env : Env) (ui : Ui) :
  tidy (apply_limits_run target confirm do_refresh env ui).
Proof. unfold apply_limits_run. auto 20 with tidy. Qed.

Lemma has_decline_middle (pre post : list event) (p : prompt) :
  has_decline (pre ++ Confirm p false :: post) = true.
Proof.
  unfold has_decline. rewrite existsb_app. simpl. apply orb_true_r.
Qed.

Lemma decline_is_last (pre post : list event) (p : prompt) :
  declines_end_run (pre ++ Confirm p false :: post) = true -> post = [].
Proof.
  induction pre as [| e pre IH]; simpl.
  - destruct post; [auto | discriminate].
  - intros Hend. apply IH.
    destruct e as [| q [|] | | |]; auto.
    destruct pre; discriminate.
Qed.

(** C10. With confirmation enabled, a declined prompt of the apply
    workflow (for the MSR write, the MMIO write or the powercap write) is
    the last interaction of the invocation, which returns [false]: no
    write follows it, and the writes performed before it are all the
    writes there are, with no further request undoing them. *)
Theorem declined_confirmation_stops_apply (target : Target)
  (do_refresh ok : bool) (env : Env) (ui : Ui) (t pre post : list event)
  (p : prompt) :
  apply_limits_internal target true do_refresh env ui = (ok, t) ->
  t = pre ++ Confirm p false :: post ->
  ok = false /\ post = [] /\ writes t = writes pre.
Proof.
  unfold apply_limits_internal, finish. intros [= <- <-] Ht.
  destruct (tidy_apply_limits_run target true do_refresh env ui)
    as [Hend Hstop].
  rewrite Ht in Hend, Hstop.
  apply decline_is_last in Hend as ->.
  rewrite Hstop by apply has_decline_middle.
  split; [reflexivity | split; [reflexivity |]].
  rewrite Ht. unfold writes. rewrite List.filter_app. simpl.
  apply app_nil_r.
Qed.

Lemma declined_confirmation_stops_apply_witness :
  let run := apply_limits_internal Both true true env_declines_mmio bench_ui in
  let next := apply_pl_units (msr bench_state) 440 1256 in
  fst run = false /\ writes (snd run) = [Helper (WriteMsr next) true].
Proof.
  intros run next.
  destruct (declined_confirmation_stops_apply Both true (fst run)
              env_declines_mmio bench_ui (snd run)
              [Helper ReadReq true; Confirm (AskWriteMsr next) true;
               Helper (WriteMsr next) true; LogMessage (WroteMsr next)]
              [] (AskWriteMmio (apply_pl_units (mmio bench_state) 440 1256)))
    as (Hok & _ & Hwrites).
  - vm_compute. reflexivity.
  - vm_compute. reflexivity.
  - split; [exact Hok | exact Hwrites].
Defined.

(** *** Where the written values come from *)

Lemma all_bind {A B} (P : event -> Prop) (m : Run A) (k : A -> Run B) :
  Forall P (fst m) ->
  (forall a, snd m = Some a -> Forall P (fst (k a))) ->
  Forall P (fst (bind m k)).
Proof.
  intros Hm Hk.
  destruct (bind_cases m k) as [[Hnone ->] | (a & Hsome & ->)]; simpl.
  - exact Hm.
  - apply Forall_app. split; [exact Hm | exact (Hk a Hsome)].
Qed.

Section OwnRegister.

Variable env : Env.
Variable ui : Ui.

Let P := own_register env ui.

Lemma own_emit (e : event) : P e -> Forall P (fst (emit e)).
Proof using Type. intros He. simpl. auto. Qed.

Lemma own_show_error {A} (title detail : string) :
  Forall P (fst (@show_error A title detail)).
Proof using Type. simpl. repeat constructor. Qed.

Lemma own_confirm_action (p : prompt) :
  Forall P (fst (confirm_action env p)).
Proof using Type.
  unfold confirm_action. destruct (env_confirm env p); simpl;
    repeat constructor.
Qed.

Lemma own_when {A} (b : bool) (m : Run A) :
  Forall P (fst m) -> Forall P (fst (when b m)).
Proof using Type.
  intros Hm. unfold when. destruct b; [| constructor].
  apply all_bind; [exact Hm | intros; constructor].
Qed.

Lemma own_helper_write (req : request) (answer : reply unit)
  (title : string) :
  (forall done, P (Helper req done)) ->
  Forall P (fst (helper_write req answer title)).
Proof using Type.
  intros Hreq. unfold helper_write. destruct answer; simpl.
  - repeat constructor. apply Hreq.
  - repeat constructor. apply Hreq.
Qed.

Lemma helper_read_some (title : string) (state : ReadState) :
  snd (helper_read env title) = Some state -> env_read env = Replied state.
Proof using Type.
  unfold helper_read. destruct (env_read env); simpl; congruence.
Qed.

Lemma own_helper_read (title : string) :
  Forall P (fst (helper_read env title)).
Proof using Type.
  unfold helper_read. destruct (env_read env); simpl; repeat constructor.
Qed.

Lemma build_units_some (unit_watts : double) (units : Z * Z) :
  snd (build_units unit_watts ui) = Some units ->
  build_units_values unit_watts (pl1_spin ui) (pl2_spin ui) = Some units.
Proof using Type.
  unfold build_units. destruct (fle unit_watts zero); [discriminate |].
  destruct (build_units_values _ _ _); simpl; congruence.
Qed.

Lemma own_build_units (unit_watts : double) :
  Forall P (fst (build_units unit_watts ui)).
Proof using Type.
  unfold build_units. destruct (fle unit_watts zero);
    [apply own_show_error |].
  destruct (build_units_values _ _ _); simpl; repeat constructor.
Qed.

Lemma own_apply_limits_run (target : Target) (confirm do_refresh : bool) :
  Forall P (fst (apply_limits_run target confirm do_refresh env ui)).
Proof using Type.
  unfold apply_limits_run.
  apply all_bind; [apply own_helper_read | intros state Hstate].
  apply helper_read_some in Hstate.
  apply all_bind.
  { destruct (update_units state); [constructor | apply own_show_error]. }
  intros _ _.
  apply all_bind; [apply own_build_units | intros [pl1 pl2] Hunits].
  apply build_units_some in Hunits.
  apply all_bind.
  { apply own_when. apply all_bind;
      [apply own_when, own_confirm_action | intros _ _].
    apply all_bind; [| intros; apply own_emit; exact I].
    apply own_helper_write. intros done. exists state, pl1, pl2. auto. }
  intros _ _. apply all_bind.
  { apply own_when. apply all_bind;
      [apply own_when, own_confirm_action | intros _ _].
    apply all_bind; [| intros; apply own_emit; exact I].
    apply own_helper_write. intros done. exists state, pl1, pl2. auto. }
  intros _ _. apply all_bind.
  { apply own_when. apply all_bind.
    { destruct (_ || _); [apply own_show_error | constructor]. }
    intros _ _. apply all_bind;
      [apply own_when, own_confirm_action | intros _ _].
    apply all_bind; [| intros; apply own_emit; exact I].
    apply own_helper_write. intros done. exact I. }
  intros _ _. apply own_when, own_emit. exact I.
Qed.

End OwnRegister.

(** *** Failures with both targets selected *)

(** C4, as amended. With both targets selected the MSR is written first.
    If that write fails, the failure is shown and the invocation returns
    [false] with no MMIO write attempted; if it succeeds and the MMIO
    write fails, that failure is shown and the invocation returns
    [false], the MSR write standing. *)
Theorem both_targets_stop_at_first_failure (confirm do_refresh : bool)
  (env : Env) (ui : Ui) (state : ReadState) (pl1_units pl2_units : Z)
  (err : string) :
  env_read env = Replied state ->
  update_units state = true ->
  build_units_values (unit_watts state) (pl1_spin ui) (pl2_spin ui)
    = Some (pl1_units, pl2_units) ->
  let next_msr := apply_pl_units (msr state) pl1_units pl2_units in
  let next_mmio := apply_pl_units (mmio state) pl1_units pl2_units in
  (confirm = true -> env_confirm env (AskWriteMsr next_msr) = true) ->
  (env_write_msr env next_msr = Failed err ->
   apply_limits_internal Both confirm do_refresh env ui =
   (false,
    Helper ReadReq true :: asked confirm (AskWriteMsr next_msr) ++
    [Helper (WriteMsr next_msr) false;
     ShowError "Write MSR failed" err]))
  /\ (env_write_msr env next_msr = Replied tt ->
      (confirm = true -> env_confirm env (AskWriteMmio next_mmio) = true) ->
      env_write_mmio env next_mmio = Failed err ->
      apply_limits_internal Both confirm do_refresh env ui =
      (false,
       Helper ReadReq true :: asked confirm (AskWriteMsr next_msr) ++
       [Helper (WriteMsr next_msr) true; LogMessage (WroteMsr next_msr)] ++
       asked confirm (AskWriteMmio next_mmio) ++
       [Helper (WriteMmio next_mmio) false;
        ShowError "Write MMIO failed" err])).
Proof.
  intros Hread Hunit Hunits next_msr next_mmio Hyes_msr.
  assert (Hfle : fle (unit_watts state) zero = false).
  { unfold update_units in Hunit. now apply negb_true_iff in Hunit. }
  unfold apply_limits_internal, apply_limits_run, helper_read, build_units.
  rewrite Hread. run_step. rewrite Hunit. run_step.
  rewrite Hfle, Hunits. run_step. fold next_msr next_mmio.
  split.
  - intros Hfail. unfold helper_write at 1. rewrite Hfail.
    destruct confirm.
    + unfold confirm_action at 1. rewrite Hyes_msr by reflexivity.
      run_step. reflexivity.
    + run_step. reflexivity.
  - intros Hdone Hyes_mmio Hfail.
    unfold helper_write. rewrite Hdone, Hfail.
    destruct confirm.
    + unfold confirm_action. rewrite Hyes_msr, Hyes_mmio by reflexivity.
      run_step. reflexivity.
    + run_step. reflexivity.
Qed.

Lemma both_targets_stop_at_first_failure_witness :
  apply_limits_internal Both true true env_msr_write_fails bench_ui =
  (false,
   [Helper ReadReq true;
    Confirm (AskWriteMsr (apply_pl_units (msr bench_state) 440 1256)) true;
    Helper (WriteMsr (apply_pl_units (msr bench_state) 440 1256)) false;
    ShowError "Write MSR failed" "pwrite: Input/output error"]).
Proof.
  apply (both_targets_stop_at_first_failure true true env_msr_write_fails
           bench_ui bench_state 440 1256 "pwrite: Input/output error");
    reflexivity.
Defined.

(** C4 as stated fails: the MSR write is refused with both targets
    selected, the invocation returns [false] after showing the error, and
    no MMIO write is attempted. *)
Lemma msr_failure_skips_mmio_write :
  let run := apply_limits_internal Both true true env_msr_write_fails
               bench_ui in
  fst run = false
  /\ attempts_msr (snd run) = true
  /\ attempts_mmio (snd run) = false
  /\ last (snd run)
     = Some (ShowError "Write MSR failed" "pwrite: Input/output error").
Proof. vm_compute. repeat split; reflexivity. Qed.

End ApplyLimits.

(** ** The line-based tool *)

Section LineTool.

Import Cli.
Local Open Scope Z_scope.

Lemma u64_is_u64 (x : Z) : is_u64 (u64 x).
Proof. unfold is_u64, u64. apply Z.mod_pos_bound. lia. Qed.

Lemma u64_small (x : Z) : is_u64 x -> u64 x = x.
Proof. intros Hx. apply Z.mod_small. exact Hx. Qed.

Lemma lor_is_u64 (a b : Z) : is_u64 a -> is_u64 b -> is_u64 (Z.lor a b).
Proof.
  intros Ha Hb.
  assert (Heq : Z.lor a b = Z.lor a b mod 2 ^ 64).
  { apply Z.bits_inj'. intros n Hn.
    rewrite testbit_mod_pow2, Z.lor_spec by lia.
    destruct (Z.ltb_spec n 64); [reflexivity |].
    now rewrite (testbit_u64_range a), (testbit_u64_range b). }
  rewrite Heq. apply Z.mod_pos_bound. lia.
Qed.

Lemma rd64_is_u64 (base : window) (off : Z) : is_u64 (rd64 base off).
Proof. unfold rd64. apply lor_is_u64; apply u64_is_u64. Qed.

Lemma rd64_wr64 (base : window) (off v : Z) :
  is_u64 v -> rd64 (wr64 base off v) off = v.
Proof.
  intros Hv. unfold rd64, wr64, store32.
  rewrite !Z.eqb_refl.
  replace (off =? off + 4) with false by (symmetry; apply Z.eqb_neq; lia).
  apply Z.bits_inj'. intros n Hn. unfold u64, u32.
  rewrite Z.lor_spec, !testbit_mod_pow2, Z.land_spec, testbit_ones_32
    by lia.
  destruct (Z.ltb_spec n 32) as [H32 | H32].
  - rewrite Z.shiftl_spec_low by lia.
    destruct (Z.ltb_spec n 64); [| lia].
    simpl. now rewrite andb_true_r, orb_false_r.
  - rewrite Z.shiftl_spec, !testbit_mod_pow2, Z.shiftr_spec by lia.
    replace (n - 32 + 32) with n by lia.
    destruct (Z.ltb_spec n 64) as [H64 | H64]; simpl.
    + destruct (Z.ltb_spec (n - 32) 64), (Z.ltb_spec (n - 32) 32);
        try lia. reflexivity.
    + symmetry. now apply testbit_u64_range.
Qed.

Lemma msr_now_is_u64 (w : World) : is_u64 (msr_now w).
Proof. apply u64_is_u64. Qed.

Lemma mmio_now_is_u64 (w : World) : is_u64 (mmio_now w).
Proof. apply rd64_is_u64. Qed.

Lemma msr_now_with_msr (w : World) (v : Z) :
  is_u64 v -> msr_now (with_msr w MSR_PKG_POWER_LIMIT v) = v.
Proof. intros Hv. unfold msr_now. simpl. now apply u64_small. Qed.

Lemma mmio_now_with_mmio (w : World) (v : Z) :
  is_u64 v -> mmio_now (with_mmio w (wr64 (mmio_base w) PL_OFF v)) = v.
Proof. intros Hv. unfold mmio_now. simpl. now apply rd64_wr64. Qed.

Lemma set_pl_units_is_u64 (cur a b : Z) : is_u64 (set_pl_units cur a b).
Proof. apply apply_pl_units_is_u64. Qed.

Lemma set_limits_msr_registers (inp : Input) (target pl1 pl2 : Z)
  (w w' : World) :
  set_limits_msr inp target pl1 pl2 w = Some w' ->
  kept_or_encoded (msr_now w) (msr_now w') pl1 pl2
  /\ mmio_now w' = mmio_now w.
Proof.
  unfold set_limits_msr, rdmsr, wrmsr, kept_or_encoded.
  destruct ((target =? 1) || (target =? 3)).
  - destruct (rdmsr_works inp); [| discriminate].
    destruct (yes_msr inp).
    + destruct (wrmsr_works inp); [| discriminate].
      intros [= <-]. split; [right | reflexivity].
      apply msr_now_with_msr, set_pl_units_is_u64.
    + intros [= <-]. auto.
  - intros [= <-]. auto.
Qed.

Lemma set_limits_mmio_registers (inp : Input) (target pl1 pl2 : Z)
  (w : World) :
  kept_or_encoded (mmio_now w)
    (mmio_now (set_limits_mmio inp target pl1 pl2 w)) pl1 pl2
  /\ msr_now (set_limits_mmio inp target pl1 pl2 w) = msr_now w.
Proof.
  unfold set_limits_mmio, kept_or_encoded.
  destruct ((target =? 2) || (target =? 3)); [| auto].
  destruct (yes_mmio inp); [| auto].
  split; [right | reflexivity].
  apply mmio_now_with_mmio, set_pl_units_is_u64.
Qed.

Lemma set_limits_powercap_registers (inp : Input) (pl1_w pl2_w : double)
  (w : World) :
  msr_now (snd (set_limits_powercap inp pl1_w pl2_w w)) = msr_now w
  /\ mmio_now (snd (set_limits_powercap inp pl1_w pl2_w w)) = mmio_now w.
Proof.
  unfold set_limits_powercap, write_powercap_uw.
  destruct (yes_powercap inp); [| auto].
  destruct (_ || _); [auto |].
  destruct (pl1_file_works inp); simpl; [| auto].
  destruct (pl2_file_works inp); simpl; auto.
Qed.

Lemma set_limits_registers (inp : Input) (unit_watts : double) (w : World) :
  (msr_now (snd (set_limits inp unit_watts w)) = msr_now w
   /\ mmio_now (snd (set_limits inp unit_watts w)) = mmio_now w)
  \/ exists pl1_w pl2_w pl1_units pl2_units,
       in_pl1 inp = Some pl1_w /\ in_pl2 inp = Some pl2_w
       /\ set_limits_units unit_watts pl1_w pl2_w
          = Some (pl1_units, pl2_units)
       /\ kept_or_encoded (msr_now w)
            (msr_now (snd (set_limits inp unit_watts w)))
            pl1_units pl2_units
       /\ kept_or_encoded (mmio_now w)
            (mmio_now (snd (set_limits inp unit_watts w)))
            pl1_units pl2_units.
Proof.
  unfold set_limits.
  destruct (in_pl1 inp) as [pl1_w |]; [| auto].
  destruct (in_pl2 inp) as [pl2_w |]; [| auto].
  destruct (_ || _); [auto |].
  destruct (in_target inp) as [target |]; [| auto].
  destruct (_ || _); [auto |].
  destruct (set_limits_units unit_watts pl1_w pl2_w) as [[pl1 pl2] |] eqn:Hu;
    [| auto].
  destruct (set_limits_msr inp target pl1 pl2 w) as [w1 |] eqn:Hmsr;
    [| auto].
  right. exists pl1_w, pl2_w, pl1, pl2.
  destruct (set_limits_msr_registers _ _ _ _ _ _ Hmsr) as [Hm1 Hm2].
  destruct (set_limits_mmio_registers inp target pl1 pl2 w1) as [Hn1 Hn2].
  destruct (set_limits_powercap_registers inp pl1_w pl2_w
              (set_limits_mmio inp target pl1 pl2 w1)) as [Hp1 Hp2].
  cbv beta iota zeta.
  split; [reflexivity | split; [reflexivity | split; [exact Hu |]]].
  split.
  - rewrite Hp1, Hn2. exact Hm1.
  - rewrite Hp2, <- Hm2. exact Hn1.
Qed.

(** [sync_limits] in the direction MSR -> MMIO. *)
Lemma sync_limits_to_mmio (inp : Input) (w : World) :
  in_dir inp = Some 1 ->
  msr_now (snd (sync_limits inp w)) = msr_now w
  /\ (mmio_now (snd (sync_limits inp w)) = mmio_now w
      \/ mmio_now (snd (sync_limits inp w)) = msr_now w)
  /\ (rdmsr_works inp = true -> yes_mmio inp = true ->
      sync_limits inp w
      = (0, with_mmio w (wr64 (mmio_base w) PL_OFF (msr_now w)))
      /\ mmio_now (snd (sync_limits inp w)) = msr_now w).
Proof.
  intros Hdir. unfold sync_limits, rdmsr. rewrite Hdir.
  change (1 =? 1) with true. cbv iota.
  destruct (rdmsr_works inp), (yes_mmio inp); cbn [fst snd].
  - split; [reflexivity | split].
    + right. apply mmio_now_with_mmio, msr_now_is_u64.
    + intros _ _. split; [reflexivity |].
      apply mmio_now_with_mmio, msr_now_is_u64.
  - split; [reflexivity | split; [now left | discriminate]].
  - split; [reflexivity | split; [now left | discriminate]].
  - split; [reflexivity | split; [now left | discriminate]].
Qed.

(** With the same answers a second MSR -> MMIO sync changes nothing. *)
Lemma sync_limits_to_mmio_twice (inp : Input) (w : World) :
  in_dir inp = Some 1 ->
  mmio_now (snd (sync_limits inp (snd (sync_limits inp w))))
  = mmio_now (snd (sync_limits inp w)).
Proof.
  intros Hdir.
  destruct (sync_limits_to_mmio inp w Hdir) as (Hmsr & _ & Hdone).
  destruct (sync_limits_to_mmio inp (snd (sync_limits inp w)) Hdir)
    as (_ & _ & Hdone').
  destruct (rdmsr_works inp) eqn:Hread, (yes_mmio inp) eqn:Hyes.
  - destruct (Hdone eq_refl eq_refl) as [_ H1].
    destruct (Hdone' eq_refl eq_refl) as [_ H2]. congruence.
  - unfold sync_limits, rdmsr. rewrite Hdir, Hread, Hyes. reflexivity.
  - unfold sync_limits, rdmsr. rewrite Hdir, Hread. reflexivity.
  - unfold sync_limits, rdmsr. rewrite Hdir, Hread. reflexivity.
Qed.

(** [sync_limits] in the direction MMIO -> MSR. *)
Lemma sync_limits_to_msr (inp : Input) (w : World) :
  in_dir inp = Some 2 -> yes_msr inp = true -> wrmsr_works inp = true ->
  msr_now (snd (sync_limits inp w)) = mmio_now w
  /\ mmio_now (snd (sync_limits inp w)) = mmio_now w.
Proof.
  intros Hdir Hyes Hworks. unfold sync_limits, wrmsr.
  rewrite Hdir, Hyes, Hworks.
  change (2 =? 1) with false. change (2 =? 2) with true. cbv iota. simpl.
  split; [| reflexivity]. apply msr_now_with_msr, mmio_now_is_u64.
Qed.

End LineTool.

(** ** Register writes of the two front ends *)

Section RegisterWrites.

Import HelperState Gui.
Local Open Scope Z_scope.

Lemma in_bind_l {A B} (m : Run A) (k : A -> Run B) (e : event) :
  In e (fst m) -> In e (fst (bind m k)).
Proof.
  intros Hin.
  destruct (bind_cases m k) as [[_ ->] | (a & _ & ->)]; cbn [fst].
  - exact Hin.
  - apply in_or_app. now left.
Qed.

Lemma in_bind_r {A B} (m : Run A) (k : A -> Run B) (a : A) (e : event) :
  snd m = Some a -> In e (fst (k a)) -> In e (fst (bind m k)).
Proof.
  intros Hsome Hin.
  destruct (bind_cases m k) as [[Hnone _] | (a' & Hsome' & ->)];
    [congruence |].
  cbn [fst]. apply in_or_app. right.
  replace a' with a by congruence. exact Hin.
Qed.

(** The write block of one register: once its confirmation, if any, is
    given, the request is made, with the answer the helper gives. *)
Lemma write_block_requests (env : Env) (confirm : bool) (p : prompt)
  (req : request) (answer : reply unit) (title : string) (msg : message) :
  (confirm = true -> env_confirm env p = true) ->
  In (Helper req (Machine.answered answer))
    (fst (when true (when confirm (confirm_action env p) ;;;
                     helper_write req answer title ;;;
                     emit (LogMessage msg))))
  /\ (answer = Replied tt ->
      snd (when true (when confirm (confirm_action env p) ;;;
                      helper_write req answer title ;;;
                      emit (LogMessage msg))) = Some tt).
Proof.
  intros Hyes. unfold when, confirm_action, helper_write.
  destruct confirm; [rewrite Hyes by reflexivity |];
    destruct answer as [[] | err]; run_step; cbn [Machine.answered];
    (split; [simpl; auto | intros; try discriminate; reflexivity]).
Qed.

(** The apply run makes the write request of every selected register it
    reaches, with the encoding into that register's value. *)
Lemma apply_limits_run_writes (target : Target) (confirm do_refresh : bool)
  (env : Env) (ui : Ui) (state : ReadState) (pl1_units pl2_units : Z) :
  env_read env = Replied state ->
  update_units state = true ->
  build_units_values (unit_watts state) (pl1_spin ui) (pl2_spin ui)
    = Some (pl1_units, pl2_units) ->
  let next_msr := apply_pl_units (msr state) pl1_units pl2_units in
  let next_mmio := apply_pl_units (mmio state) pl1_units pl2_units in
  let t := snd (apply_limits_internal target confirm do_refresh env ui) in
  (is_msr_target target = true ->
   (confirm = true -> env_confirm env (AskWriteMsr next_msr) = true) ->
   In (Helper (WriteMsr next_msr)
         (Machine.answered (env_write_msr env next_msr))) t)
  /\ (is_mmio_target target = true ->
      (is_msr_target target = true ->
       (confirm = true -> env_confirm env (AskWriteMsr next_msr) = true)
       /\ env_write_msr env next_msr = Replied tt) ->
      (confirm = true -> env_confirm env (AskWriteMmio next_mmio) = true) ->
      In (Helper (WriteMmio next_mmio)
            (Machine.answered (env_write_mmio env next_mmio))) t).
Proof.
  intros Hread Hunit Hunits next_msr next_mmio t. subst t.
  assert (Hfle : fle (unit_watts state) zero = false).
  { unfold update_units in Hunit. now apply negb_true_iff in Hunit. }
  unfold apply_limits_internal, finish. cbn [snd].
  unfold apply_limits_run.
  split.
  - intros Hsel Hyes.
    apply (in_bind_r _ _ state);
      [unfold helper_read; now rewrite Hread |].
    apply (in_bind_r _ _ tt); [now rewrite Hunit |].
    apply (in_bind_r _ _ (pl1_units, pl2_units));
      [unfold build_units; now rewrite Hfle, Hunits |].
    cbv beta iota zeta. apply in_bind_l. rewrite Hsel.
    apply write_block_requests. exact Hyes.
  - intros Hsel Hmsr Hyes.
    apply (in_bind_r _ _ state);
      [unfold helper_read; now rewrite Hread |].
    apply (in_bind_r _ _ tt); [now rewrite Hunit |].
    apply (in_bind_r _ _ (pl1_units, pl2_units));
      [unfold build_units; now rewrite Hfle, Hunits |].
    cbv beta iota zeta. apply (in_bind_r _ _ tt).
    { destruct (is_msr_target target); [| reflexivity].
      destruct (Hmsr eq_refl) as [Hy Hdone].
      now apply write_block_requests. }
    apply in_bind_l. rewrite Hsel.
    apply write_block_requests. exact Hyes.
Qed.

(** What [set_limits] leaves in the two registers once the inputs are
    accepted and the operations it needs work. *)
Lemma set_limits_encodes (inp : Cli.Input) (unit_watts : double)
  (w : Cli.World) (pl1_w pl2_w : double) (target pl1_units pl2_units : Z) :
  Cli.in_pl1 inp = Some pl1_w -> Cli.in_pl2 inp = Some pl2_w ->
  fle pl1_w zero || fle pl2_w zero || flt d5000 pl1_w || flt d5000 pl2_w
    = false ->
  Cli.in_target inp = Some target -> 1 <= target <= 3 ->
  set_limits_units unit_watts pl1_w pl2_w = Some (pl1_units, pl2_units) ->
  ((target =? 1) || (target =? 3) = true ->
   Cli.rdmsr_works inp = true
   /\ (Cli.yes_msr inp = true -> Cli.wrmsr_works inp = true)) ->
  let w' := snd (Cli.set_limits inp unit_watts w) in
  Cli.msr_now w'
  = (if ((target =? 1) || (target =? 3)) && Cli.yes_msr inp
     then set_pl_units (Cli.msr_now w) pl1_units pl2_units
     else Cli.msr_now w)
  /\ Cli.mmio_now w'
     = (if ((target =? 2) || (target =? 3)) && Cli.yes_mmio inp
        then set_pl_units (Cli.mmio_now w) pl1_units pl2_units
        else Cli.mmio_now w).
Proof.
  intros Hpl1 Hpl2 Hrange Htarget Hsel Hunits Hworks w'. subst w'.
  unfold Cli.set_limits. rewrite Hpl1, Hpl2, Hrange, Htarget.
  replace ((target <? 1) || (3 <? target)) with false
    by (symmetry; apply orb_false_iff; split; apply Z.ltb_ge; lia).
  rewrite Hunits.
  assert (Hmsr : exists w1,
    Cli.set_limits_msr inp target pl1_units pl2_units w = Some w1
    /\ Cli.msr_now w1
       = (if ((target =? 1) || (target =? 3)) && Cli.yes_msr inp
          then set_pl_units (Cli.msr_now w) pl1_units pl2_units
          else Cli.msr_now w)
    /\ Cli.mmio_now w1 = Cli.mmio_now w).
  { unfold Cli.set_limits_msr, Cli.rdmsr, Cli.wrmsr.
    destruct ((target =? 1) || (target =? 3)); cbn [andb]; [| eauto].
    destruct (Hworks eq_refl) as [-> Hwr].
    destruct (Cli.yes_msr inp); [| eauto].
    rewrite Hwr by reflexivity. eexists. split; [reflexivity |].
    split; [| reflexivity].
    apply msr_now_with_msr, set_pl_units_is_u64. }
  destruct Hmsr as (w1 & -> & Hm1 & Hm2).
  destruct (set_limits_powercap_registers inp pl1_w pl2_w
              (Cli.set_limits_mmio inp target pl1_units pl2_units w1))
    as [Hp1 Hp2].
  rewrite Hp1, Hp2.
  destruct (set_limits_mmio_registers inp target pl1_units pl2_units w1)
    as [_ Hn2].
  rewrite Hn2, Hm1. split; [reflexivity |].
  unfold Cli.set_limits_mmio.
  destruct ((target =? 2) || (target =? 3)); cbn [andb];
    [| exact Hm2].
  destruct (Cli.yes_mmio inp); [| exact Hm2].
  rewrite <- Hm2. apply mmio_now_with_mmio, set_pl_units_is_u64.
Qed.

(** C6. Every register write of the apply workflow carries the encoding
    of the converted units into the value read from that same register:
    the MSR write is computed from the MSR value of the state read, the
    MMIO write from its MMIO value. These writes are made: once the state
    is read and the watts convert, the run asks for the MSR write with the
    encoding into the MSR value whenever the MSR is selected and its
    confirmation, if any, is given, and for the MMIO write with the
    encoding into the MMIO value whenever MMIO is selected, the MSR block
    before it went through and its own confirmation is given.
    [set_limits] of the line-based tool likewise leaves each register
    either as it was or as the encoding into that register's own previous
    value; with inputs it accepts, and [rdmsr] and [wrmsr] working where
    it calls them, a register that is selected and confirmed ends as the
    encoding into its own previous value, and any other register as it
    was. *)
Theorem writes_encode_own_register :
  (forall (target : Target) (confirm do_refresh ok : bool) (env : Env)
          (ui : Ui) (t : list event),
     apply_limits_internal target confirm do_refresh env ui = (ok, t) ->
     (forall val done, In (Helper (WriteMsr val) done) t ->
        exists state pl1_units pl2_units,
          env_read env = Replied state
          /\ build_units_values (unit_watts state) (pl1_spin ui)
               (pl2_spin ui) = Some (pl1_units, pl2_units)
          /\ val = apply_pl_units (msr state) pl1_units pl2_units)
     /\ (forall val done, In (Helper (WriteMmio val) done) t ->
           exists state pl1_units pl2_units,
             env_read env = Replied state
             /\ build_units_values (unit_watts state) (pl1_spin ui)
                  (pl2_spin ui) = Some (pl1_units, pl2_units)
             /\ val = apply_pl_units (mmio state) pl1_units pl2_units))
  /\ (forall (target : Target) (confirm do_refresh : bool) (env : Env)
             (ui : Ui) (state : ReadState) (pl1_units pl2_units : Z),
        env_read env = Replied state ->
        update_units state = true ->
        build_units_values (unit_watts state) (pl1_spin ui) (pl2_spin ui)
          = Some (pl1_units, pl2_units) ->
        let next_msr := apply_pl_units (msr state) pl1_units pl2_units in
        let next_mmio := apply_pl_units (mmio state) pl1_units pl2_units in
        let t := snd (apply_limits_internal target confirm do_refresh env ui)
        in
        (is_msr_target target = true ->
         (confirm = true -> env_confirm env (AskWriteMsr next_msr) = true) ->
         In (Helper (WriteMsr next_msr)
               (Machine.answered (env_write_msr env next_msr))) t)
        /\ (is_mmio_target target = true ->
            (is_msr_target target = true ->
             (confirm = true ->
              env_confirm env (AskWriteMsr next_msr) = true)
             /\ env_write_msr env next_msr = Replied tt) ->
            (confirm = true ->
             env_confirm env (AskWriteMmio next_mmio) = true) ->
            In (Helper (WriteMmio next_mmio)
                  (Machine.answered (env_write_mmio env next_mmio))) t))
  /\ (forall (inp : Cli.Input) (unit_watts : double) (w : Cli.World),
        let w' := snd (Cli.set_limits inp unit_watts w) in
        (Cli.msr_now w' = Cli.msr_now w /\ Cli.mmio_now w' = Cli.mmio_now w)
        \/ exists pl1_w pl2_w pl1_units pl2_units,
             Cli.in_pl1 inp = Some pl1_w /\ Cli.in_pl2 inp = Some pl2_w
             /\ set_limits_units unit_watts pl1_w pl2_w
                = Some (pl1_units, pl2_units)
             /\ Cli.kept_or_encoded (Cli.msr_now w) (Cli.msr_now w')
                  pl1_units pl2_units
             /\ Cli.kept_or_encoded (Cli.mmio_now w) (Cli.mmio_now w')
                  pl1_units pl2_units)
  /\ (forall (inp : Cli.Input) (unit_watts : double) (w : Cli.World)
             (pl1_w pl2_w : double) (target pl1_units pl2_units : Z),
        Cli.in_pl1 inp = Some pl1_w -> Cli.in_pl2 inp = Some pl2_w ->
        fle pl1_w zero || fle pl2_w zero || flt d5000 pl1_w
          || flt d5000 pl2_w = false ->
        Cli.in_target inp = Some target -> 1 <= target <= 3 ->
        set_limits_units unit_watts pl1_w pl2_w
          = Some (pl1_units, pl2_units) ->
        ((target =? 1) || (target =? 3) = true ->
         Cli.rdmsr_works inp = true
         /\ (Cli.yes_msr inp = true -> Cli.wrmsr_works inp = true)) ->
        let w' := snd (Cli.set_limits inp unit_watts w) in
        Cli.msr_now w'
        = (if ((target =? 1) || (target =? 3)) && Cli.yes_msr inp
           then set_pl_units (Cli.msr_now w) pl1_units pl2_units
           else Cli.msr_now w)
        /\ Cli.mmio_now w'
           = (if ((target =? 2) || (target =? 3)) && Cli.yes_mmio inp
              then set_pl_units (Cli.mmio_now w) pl1_units pl2_units
              else Cli.mmio_now w)).
Proof.
  split; [| split; [exact apply_limits_run_writes |
                    split; [| exact set_limits_encodes]]].
  - intros target confirm do_refresh ok env ui t.
    unfold apply_limits_internal, finish. intros [= <- <-].
    pose proof (own_apply_limits_run env ui target confirm do_refresh) as H.
    rewrite Forall_forall in H.
    split; intros val done Hin; apply list_elem_of_In in Hin;
      exact (H _ Hin).
  - intros inp unit_watts w. exact (set_limits_registers inp unit_watts w).
Qed.

(** On a machine whose two registers hold 40 W and 200 W and differ
    outside the power fields, 55 W and 157 W written to both: each
    register receives the encoding into its own value, and the two
    encodings differ. *)
Lemma writes_encode_own_register_witness :
  let t := snd (apply_limits_internal Both true true Machine.env_split
                  bench_ui) in
  let w' := snd (Cli.set_limits (Cli.bench_input 55 157 1)
                   (unit_watts_of 3) Machine.split_world) in
  let next_msr := apply_pl_units (msr Machine.split_state) 440 1256 in
  let next_mmio := apply_pl_units (mmio Machine.split_state) 440 1256 in
  next_msr = 0x004284e800df81b8
  /\ next_mmio = 0x004204e800dd81b8
  /\ In (Helper (WriteMsr next_msr) true) t
  /\ In (Helper (WriteMmio next_mmio) true) t
  /\ (forall val done, In (Helper (WriteMsr val) done) t -> val = next_msr)
  /\ (forall val done, In (Helper (WriteMmio val) done) t -> val = next_mmio)
  /\ Cli.msr_now w' = 0x004284e800df81b8
  /\ Cli.mmio_now w' = 0x004204e800dd81b8.
Proof.
  intros t w' next_msr next_mmio.
  destruct writes_encode_own_register as (Hown & Hmade & _ & Hcli).
  assert (Hunits : build_units_values (unit_watts Machine.split_state)
                     (pl1_spin bench_ui) (pl2_spin bench_ui)
                   = Some (440, 1256)) by (vm_compute; reflexivity).
  pose proof (Hmade Both true true Machine.env_split bench_ui
              Machine.split_state 440 1256 eq_refl) as H1.
  specialize (H1 ltac:(vm_compute; reflexivity) Hunits).
  destruct H1 as [Hmsr Hmmio].
  destruct (Hown Both true true (fst (apply_limits_internal Both true true
              Machine.env_split bench_ui)) Machine.env_split bench_ui t)
    as [Hown_msr Hown_mmio]; [subst t; apply surjective_pairing |].
  pose proof (Hcli (Cli.bench_input 55 157 1) (unit_watts_of 3)
              Machine.split_world (of_Z 55) (of_Z 157) 3 440 1256
              eq_refl eq_refl) as H2.
  specialize (H2 ltac:(vm_compute; reflexivity) eq_refl ltac:(lia)
                ltac:(vm_compute; reflexivity)
                (fun _ => conj eq_refl (fun _ => eq_refl))).
  destruct H2 as [Hw_msr Hw_mmio].
  split; [vm_compute; reflexivity |].
  split; [vm_compute; reflexivity |].
  split; [exact (Hmsr eq_refl (fun _ => eq_refl)) |].
  split.
  { exact (Hmmio eq_refl (fun _ => conj (fun _ => eq_refl) eq_refl)
             (fun _ => eq_refl)). }
  split.
  { intros val done Hin.
    destruct (Hown_msr val done Hin) as (state & pl1 & pl2 & Hr & Hu & ->).
    injection Hr as <-.
    assert (Hsame : Some (pl1, pl2) = Some (440, 1256))
      by (rewrite <- Hu; exact Hunits).
    injection Hsame as -> ->. reflexivity. }
  split.
  { intros val done Hin.
    destruct (Hown_mmio val done Hin) as (state & pl1 & pl2 & Hr & Hu & ->).
    injection Hr as <-.
    assert (Hsame : Some (pl1, pl2) = Some (440, 1256))
      by (rewrite <- Hu; exact Hunits).
    injection Hsame as -> ->. reflexivity. }
  subst w'.
  split; [rewrite Hw_msr | rewrite Hw_mmio]; vm_compute; reflexivity.
Defined.

(** *** Synchronising the two registers *)

Lemma sync_msr_to_mmio_writes (env : Env) (e : event) :
  In e (sync_msr_to_mmio env) -> is_write e = true ->
  exists state done,
    env_read env = Replied state /\ e = Helper (WriteMmio (msr state)) done.
Proof.
  unfold sync_msr_to_mmio, helper_read, confirm_action, helper_write.
  destruct (env_read env) as [state | err]; run_step.
  - destruct (env_confirm env (AskSyncMsrToMmio (msr state))); run_step.
    + destruct (env_write_mmio env (msr state)); run_step; simpl;
        intros H Hw; repeat (destruct H as [<- | H]; try discriminate);
        try contradiction; eauto.
    + simpl. intros H Hw;
        repeat (destruct H as [<- | H]; try discriminate); contradiction.
  - simpl. intros H Hw;
      repeat (destruct H as [<- | H]; try discriminate); contradiction.
Qed.

Lemma sync_mmio_to_msr_writes (env : Env) (e : event) :
  In e (sync_mmio_to_msr env) -> is_write e = true ->
  exists state done,
    env_read env = Replied state /\ e = Helper (WriteMsr (mmio state)) done.
Proof.
  unfold sync_mmio_to_msr, helper_read, confirm_action, helper_write.
  destruct (env_read env) as [state | err]; run_step.
  - destruct (env_confirm env (AskSyncMmioToMsr (mmio state))); run_step.
    + destruct (env_write_msr env (mmio state)); run_step; simpl;
        intros H Hw; repeat (destruct H as [<- | H]; try discriminate);
        try contradiction; eauto.
    + simpl. intros H Hw;
        repeat (destruct H as [<- | H]; try discriminate); contradiction.
  - simpl. intros H Hw;
      repeat (destruct H as [<- | H]; try discriminate); contradiction.
Qed.

(** A confirmed sync makes exactly one write request: the value read from
    the source register, for the other register. *)
Lemma sync_msr_to_mmio_confirmed (env : Env) (state : ReadState) :
  env_read env = Replied state ->
  env_confirm env (AskSyncMsrToMmio (msr state)) = true ->
  writes (sync_msr_to_mmio env)
  = [Helper (WriteMmio (msr state))
       (Machine.answered (env_write_mmio env (msr state)))].
Proof.
  intros Hread Hyes.
  unfold sync_msr_to_mmio, helper_read, confirm_action, helper_write.
  rewrite Hread. run_step. rewrite Hyes. run_step.
  destruct (env_write_mmio env (msr state)); reflexivity.
Qed.

Lemma sync_mmio_to_msr_confirmed (env : Env) (state : ReadState) :
  env_read env = Replied state ->
  env_confirm env (AskSyncMmioToMsr (mmio state)) = true ->
  writes (sync_mmio_to_msr env)
  = [Helper (WriteMsr (mmio state))
       (Machine.answered (env_write_msr env (mmio state)))].
Proof.
  intros Hread Hyes.
  unfold sync_mmio_to_msr, helper_read, confirm_action, helper_write.
  rewrite Hread. run_step. rewrite Hyes. run_step.
  destruct (env_write_msr env (mmio state)); reflexivity.
Qed.

(** On registers that nothing else touches, a sync of the MSR into MMIO
    leaves the MSR alone and, when confirmed, MMIO equal to it; a second
    sync then changes nothing. *)
Lemma sync_msr_to_mmio_replayed (regs : Machine.Registers)
  (confirm : prompt -> bool) :
  let r1 := Machine.replay
              (sync_msr_to_mmio (Machine.obedient regs confirm)) regs in
  Machine.reg_msr r1 = Machine.reg_msr regs
  /\ Machine.reg_mmio r1
     = (if confirm (AskSyncMsrToMmio (Machine.reg_msr regs))
        then Machine.reg_msr regs else Machine.reg_mmio regs)
  /\ Machine.replay (sync_msr_to_mmio (Machine.obedient r1 confirm)) r1 = r1
  /\ (confirm (AskSyncMsrToMmio (Machine.reg_msr regs)) = true ->
      forall confirm2,
        Machine.replay (sync_msr_to_mmio (Machine.obedient r1 confirm2)) r1
        = r1).
Proof.
  assert (Hrun : forall r c,
    Machine.replay (sync_msr_to_mmio (Machine.obedient r c)) r
    = if c (AskSyncMsrToMmio (Machine.reg_msr r))
      then {| Machine.reg_msr := Machine.reg_msr r;
              Machine.reg_mmio := Machine.reg_msr r |}
      else r).
  { intros r c.
    unfold sync_msr_to_mmio, helper_read, confirm_action, helper_write.
    cbn [Machine.obedient env_read env_confirm env_write_mmio
         Machine.state_of msr].
    run_step. destruct (c _); reflexivity. }
  intros r1. subst r1. rewrite Hrun.
  destruct (confirm _) eqn:Hyes; cbn [Machine.reg_msr Machine.reg_mmio].
  - split; [reflexivity | split; [reflexivity |]]. split.
    + rewrite Hrun. cbn [Machine.reg_msr]. now rewrite Hyes.
    + intros _ confirm2. rewrite Hrun. cbn [Machine.reg_msr].
      now destruct (confirm2 _).
  - split; [reflexivity | split; [reflexivity |]]. split.
    + rewrite Hrun. now rewrite Hyes.
    + discriminate.
Qed.

(** C7. A sync writes the raw 64-bit value read from one register into
    the other as it is. In the Qt front end the only write request of
    [sync_msr_to_mmio] carries the MSR value of the state read (and of
    [sync_mmio_to_msr] the MMIO value); a second application, the MSR
    being what it was, asks for the same value again. Once the state is
    read and the prompt confirmed, that request is made, and it is the
    only write: the value read from the source register, as it is, for
    the other register. On registers that nothing else touches and a
    helper that carries out the writes, a sync of the MSR into MMIO
    leaves the MSR alone and MMIO equal to it when confirmed (as it was
    when declined), and a second sync changes neither register,
    whatever is answered to its prompt. In the line-based tool, once
    MSR -> MMIO has been carried out, MMIO reads back the MSR value, and
    any further MSR -> MMIO sync leaves it at that value; with the same
    answers given twice, the second sync never changes what the first
    left in MMIO. *)
Theorem sync_copies_raw_value_and_is_idempotent :
  (forall env e,
     In e (sync_msr_to_mmio env) -> is_write e = true ->
     exists state done,
       env_read env = Replied state
       /\ e = Helper (WriteMmio (msr state)) done)
  /\ (forall env e,
        In e (sync_mmio_to_msr env) -> is_write e = true ->
        exists state done,
          env_read env = Replied state
          /\ e = Helper (WriteMsr (mmio state)) done)
  /\ (forall env1 env2 state1 state2 e,
        env_read env1 = Replied state1 ->
        env_read env2 = Replied state2 ->
        msr state2 = msr state1 ->
        In e (sync_msr_to_mmio env2) -> is_write e = true ->
        exists done, e = Helper (WriteMmio (msr state1)) done)
  /\ (forall inp w,
        Cli.in_dir inp = Some 1 ->
        Cli.rdmsr_works inp = true -> Cli.yes_mmio inp = true ->
        let w1 := snd (Cli.sync_limits inp w) in
        Cli.mmio_now w1 = Cli.msr_now w
        /\ Cli.msr_now w1 = Cli.msr_now w
        /\ (forall inp2, Cli.in_dir inp2 = Some 1 ->
              Cli.mmio_now (snd (Cli.sync_limits inp2 w1))
              = Cli.mmio_now w1))
  /\ (forall inp w,
        Cli.in_dir inp = Some 1 ->
        Cli.mmio_now
          (snd (Cli.sync_limits inp (snd (Cli.sync_limits inp w))))
        = Cli.mmio_now (snd (Cli.sync_limits inp w)))
  /\ (forall inp w,
        Cli.in_dir inp = Some 2 ->
        Cli.yes_msr inp = true -> Cli.wrmsr_works inp = true ->
        let w1 := snd (Cli.sync_limits inp w) in
        Cli.msr_now w1 = Cli.mmio_now w
        /\ Cli.mmio_now w1 = Cli.mmio_now w)
  /\ (forall env state,
        env_read env = Replied state ->
        env_confirm env (AskSyncMsrToMmio (msr state)) = true ->
        writes (sync_msr_to_mmio env)
        = [Helper (WriteMmio (msr state))
             (Machine.answered (env_write_mmio env (msr state)))])
  /\ (forall env state,
        env_read env = Replied state ->
        env_confirm env (AskSyncMmioToMsr (mmio state)) = true ->
        writes (sync_mmio_to_msr env)
        = [Helper (WriteMsr (mmio state))
             (Machine.answered (env_write_msr env (mmio state)))])
  /\ (forall regs confirm,
        let r1 := Machine.replay
                    (sync_msr_to_mmio (Machine.obedient regs confirm)) regs
        in
        Machine.reg_msr r1 = Machine.reg_msr regs
        /\ Machine.reg_mmio r1
           = (if confirm (AskSyncMsrToMmio (Machine.reg_msr regs))
              then Machine.reg_msr regs else Machine.reg_mmio regs)
        /\ Machine.replay
             (sync_msr_to_mmio (Machine.obedient r1 confirm)) r1 = r1
        /\ (confirm (AskSyncMsrToMmio (Machine.reg_msr regs)) = true ->
            forall confirm2,
              Machine.replay
                (sync_msr_to_mmio (Machine.obedient r1 confirm2)) r1
              = r1)).
Proof.
  split; [exact sync_msr_to_mmio_writes |].
  split; [exact sync_mmio_to_msr_writes |].
  split; [| split; [| split; [exact sync_limits_to_mmio_twice |
    split; [| split; [exact sync_msr_to_mmio_confirmed |
      split; [exact sync_mmio_to_msr_confirmed |
              exact sync_msr_to_mmio_replayed]]]]]].
  - intros env1 env2 state1 state2 e Hread1 Hread2 Hsame Hin Hw.
    destruct (sync_msr_to_mmio_writes env2 e Hin Hw)
      as (state & done & Hread & ->).
    exists done. congruence.
  - intros inp w Hdir Hread Hyes w1.
    destruct (sync_limits_to_mmio inp w Hdir) as (Hmsr & _ & Hdone).
    destruct (Hdone Hread Hyes) as [_ Hmmio]. fold w1 in Hmsr, Hmmio.
    split; [exact Hmmio | split; [exact Hmsr |]].
    intros inp2 Hdir2.
    destruct (sync_limits_to_mmio inp2 w1 Hdir2) as (_ & [Hkeep | Hcopy] & _).
    + exact Hkeep.
    + rewrite Hcopy. congruence.
  - intros inp w Hdir Hyes Hworks w1.
    exact (sync_limits_to_msr inp w Hdir Hyes Hworks).
Qed.

(** The bench machine under the line tool, and the machine with two
    different registers under the Qt front end: the sync copies the whole
    MSR value, opaque bits included, and a second sync changes nothing. *)
Lemma sync_copies_raw_value_and_is_idempotent_witness :
  let w1 := snd (Cli.sync_limits (Cli.bench_input 55 157 1)
                   Cli.bench_world) in
  let r1 := Machine.replay (sync_msr_to_mmio Machine.env_split)
              Machine.split_registers in
  (Cli.mmio_now Cli.bench_world = 0x0042864000df8140
   /\ Cli.mmio_now w1 = 0x004284e800df81b8
   /\ Cli.mmio_now (snd (Cli.sync_limits (Cli.bench_input 55 157 1) w1))
      = Cli.mmio_now w1)
  /\ writes (sync_msr_to_mmio Machine.env_split)
     = [Helper (WriteMmio 0x0042864000df8140) true]
  /\ Machine.reg_mmio Machine.split_registers = 0x0042064000dd8140
  /\ Machine.reg_mmio r1 = 0x0042864000df8140
  /\ Machine.replay
       (sync_msr_to_mmio (Machine.obedient r1 (fun _ => true))) r1 = r1.
Proof.
  intros w1 r1.
  destruct sync_copies_raw_value_and_is_idempotent
    as (_ & _ & _ & Hline & _ & _ & Hone & _ & Hreplay).
  split.
  - destruct (Hline (Cli.bench_input 55 157 1) Cli.bench_world)
      as (Hcopy & _ & Hagain); try reflexivity.
    split; [vm_compute; reflexivity |].
    split.
    + fold w1 in Hcopy. rewrite Hcopy. vm_compute. reflexivity.
    + apply Hagain. reflexivity.
  - split.
    { exact (Hone Machine.env_split Machine.split_state eq_refl eq_refl). }
    destruct (Hreplay Machine.split_registers (fun _ => true))
      as (_ & Hmmio & Hagain & _).
    split; [reflexivity |].
    split; [exact Hmmio | exact Hagain].
Defined.

End RegisterWrites.

(** * Further properties of the code *)

(** ** The codec, both ways *)

Section CodecMore.

Local Open Scope Z_scope.

Lemma decode_pl1_testbit (val n : Z) :
  0 <= n -> Z.testbit (decode_pl1 val) n = (n <? 15) && Z.testbit val n.
Proof.
  intros Hn. unfold decode_pl1, u16.
  rewrite testbit_mod_pow2, Z.land_spec, testbit_ones_15 by lia.
  destruct (Z.ltb_spec n 16), (Z.ltb_spec n 15); try lia; simpl;
    rewrite ?andb_true_r, ?andb_false_r; reflexivity.
Qed.

Lemma decode_pl2_testbit (val n : Z) :
  0 <= n ->
  Z.testbit (decode_pl2 val) n = (n <? 15) && Z.testbit val (n + 32).
Proof.
  intros Hn. unfold decode_pl2, u16.
  rewrite testbit_mod_pow2, Z.land_spec, testbit_ones_15, Z.shiftr_spec
    by lia.
  destruct (Z.ltb_spec n 16), (Z.ltb_spec n 15); try lia; simpl;
    rewrite ?andb_true_r, ?andb_false_r; reflexivity.
Qed.

(** X1. Writing back the two unit fields just decoded from a 64-bit
    register value gives that value again: the fields and the opaque bits
    together are the whole register. *)
Theorem encode_decoded_fields_is_identity (raw : Z) :
  is_u64 raw ->
  apply_pl_units raw (decode_pl1 raw) (decode_pl2 raw) = raw
  /\ set_pl_units raw (fst (decode raw)) (snd (decode raw)) = raw.
Proof.
  intros Hraw.
  assert (H : apply_pl_units raw (decode_pl1 raw) (decode_pl2 raw) = raw).
  { apply Z.bits_inj'. intros n Hn.
    rewrite apply_pl_units_testbit by lia.
    destruct (Z.ltb_spec n 15).
    - rewrite decode_pl1_testbit by lia.
      destruct (Z.ltb_spec n 15); [reflexivity | lia].
    - destruct (Z.ltb_spec n 32); [reflexivity |].
      destruct (Z.ltb_spec n 47).
      + rewrite decode_pl2_testbit by lia.
        replace (n - 32 + 32) with n by lia.
        destruct (Z.ltb_spec (n - 32) 15); [reflexivity | lia].
      + destruct (Z.ltb_spec n 64); [reflexivity |].
        symmetry. now apply testbit_u64_range. }
  split; exact H.
Qed.

Lemma encode_decoded_fields_is_identity_witness :
  apply_pl_units 0x004284e800df81b8 (decode_pl1 0x004284e800df81b8)
    (decode_pl2 0x004284e800df81b8) = 0x004284e800df81b8.
Proof.
  apply (encode_decoded_fields_is_identity 0x004284e800df81b8).
  unfold is_u64. lia.
Defined.

(** X2. Of two encodings applied one after the other only the second
    counts, so encoding the same units twice is the same as once; and of
    each 16-bit unit argument only the low 15 bits are used. *)
Theorem encode_last_write_wins (raw a b c d : Z) :
  apply_pl_units (apply_pl_units raw a b) c d = apply_pl_units raw c d
  /\ apply_pl_units (apply_pl_units raw a b) a b = apply_pl_units raw a b
  /\ apply_pl_units raw a b
     = apply_pl_units raw (Z.land a 0x7FFF) (Z.land b 0x7FFF).
Proof.
  assert (Hlast : forall a b c d,
    apply_pl_units (apply_pl_units raw a b) c d = apply_pl_units raw c d).
  { clear a b c d. intros a b c d. apply Z.bits_inj'. intros n Hn.
    rewrite !apply_pl_units_testbit by lia.
    destruct (Z.ltb_spec n 15), (Z.ltb_spec n 32), (Z.ltb_spec n 47),
      (Z.ltb_spec n 64); try lia; reflexivity. }
  split; [apply Hlast | split; [apply Hlast |]].
  apply Z.bits_inj'. intros n Hn.
  rewrite !apply_pl_units_testbit by lia.
  destruct (Z.ltb_spec n 15).
  - rewrite Z.land_spec, testbit_ones_15 by lia.
    destruct (Z.ltb_spec n 15); [now rewrite andb_true_r | lia].
  - destruct (Z.ltb_spec n 32); [reflexivity |].
    destruct (Z.ltb_spec n 47); [| reflexivity].
    rewrite Z.land_spec, testbit_ones_15 by lia.
    destruct (Z.ltb_spec (n - 32) 15); [now rewrite andb_true_r | lia].
Qed.

End CodecMore.

(** ** The mapped register window *)

Section WindowMore.

Import Cli.
Local Open Scope Z_scope.

Lemma rd64_wr64_apart (base : window) (off off' v : Z) :
  off' + 8 <= off \/ off + 8 <= off' ->
  rd64 (wr64 base off v) off' = rd64 base off'.
Proof.
  intros Hapart. unfold rd64, wr64, store32.
  replace (off' =? off + 4) with false by (symmetry; apply Z.eqb_neq; lia).
  replace (off' =? off) with false by (symmetry; apply Z.eqb_neq; lia).
  replace (off' + 4 =? off + 4) with false
    by (symmetry; apply Z.eqb_neq; lia).
  replace (off' + 4 =? off) with false by (symmetry; apply Z.eqb_neq; lia).
  reflexivity.
Qed.

(** X3. A 64-bit value written with [wr64] as two 32-bit words is read
    back by [rd64] at the same offset; a register eight or more bytes away
    reads as before; and [rd64] always yields a 64-bit value. *)
Theorem wr64_then_rd64 (base : window) (off v : Z) :
  is_u64 v ->
  rd64 (wr64 base off v) off = v
  /\ (forall off', off' + 8 <= off \/ off + 8 <= off' ->
                   rd64 (wr64 base off v) off' = rd64 base off')
  /\ is_u64 (rd64 base off).
Proof.
  intros Hv. split; [now apply rd64_wr64 | split].
  - intros off' Hapart. now apply rd64_wr64_apart.
  - apply rd64_is_u64.
Qed.

Lemma wr64_then_rd64_witness :
  rd64 (wr64 (mmio_base bench_world) PL_OFF 0x004284e800df81b8) PL_OFF
  = 0x004284e800df81b8.
Proof.
  apply (wr64_then_rd64 (mmio_base bench_world) PL_OFF 0x004284e800df81b8).
  unfold is_u64. lia.
Defined.

End WindowMore.

(** ** Units, once more *)

Section UnitsMore.

Local Open Scope Z_scope.

Lemma power_unit_of_range (rapl_units : Z) :
  0 <= power_unit_of rapl_units <= 15.
Proof.
  unfold power_unit_of.
  change (Z.land rapl_units 0x0F) with (Z.land rapl_units (Z.ones 4)).
  rewrite Z.land_ones by lia. change (2 ^ 4) with 16.
  pose proof (Z.mod_pos_bound rapl_units 16 ltac:(lia)). lia.
Qed.

(** X4. Whatever the RAPL unit register holds, the power unit taken from
    its low four bits is between 0 and 15 and the unit scale derived from
    it is exactly 2^-power_unit watts: finite, positive, never zero, so
    that the later division by it is a division by a power of two. *)
Theorem unit_watts_is_power_of_two (rapl_units : Z) :
  let power_unit := power_unit_of rapl_units in
  0 <= power_unit <= 15
  /\ unit_watts_of power_unit
     = S754_finite false (2 ^ 52) (- 52 - power_unit)
  /\ flt zero (unit_watts_of power_unit) = true.
Proof.
  intros power_unit.
  pose proof (power_unit_of_range rapl_units) as Hrange.
  fold power_unit in Hrange. split; [exact Hrange |].
  assert (Hcases : power_unit = 0 \/ power_unit = 1 \/ power_unit = 2
    \/ power_unit = 3 \/ power_unit = 4 \/ power_unit = 5 \/ power_unit = 6
    \/ power_unit = 7 \/ power_unit = 8 \/ power_unit = 9
    \/ power_unit = 10 \/ power_unit = 11 \/ power_unit = 12
    \/ power_unit = 13 \/ power_unit = 14 \/ power_unit = 15) by lia.
  clearbody power_unit.
  repeat (destruct Hcases as [-> | Hcases];
          [vm_compute; split; reflexivity |]).
  subst. vm_compute. split; reflexivity.
Qed.

(** X5. The conversion of the Qt front end yields a pair of units exactly
    when both rounded quotients are numbers from 1 to 32767, and the pair
    is then those two numbers; in every other case (a quotient of zero,
    negative, above 32767, or not a number) it yields nothing. *)
Theorem build_units_accepts_exactly (unit_watts pl1_w pl2_w : double)
  (pl1_units pl2_units : Z) :
  build_units_values unit_watts pl1_w pl2_w = Some (pl1_units, pl2_units)
  <-> round_half_away (fdiv pl1_w unit_watts) = Some pl1_units
      /\ round_half_away (fdiv pl2_w unit_watts) = Some pl2_units
      /\ 1 <= pl1_units <= 0x7FFF /\ 1 <= pl2_units <= 0x7FFF.
Proof.
  rewrite build_units_values_accepts. split.
  - destruct (units_in_range (calc_units pl1_w unit_watts)) eqn:E1;
      [| discriminate].
    destruct (units_in_range (calc_units pl2_w unit_watts)) eqn:E2;
      [| discriminate].
    apply calc_units_in_range in E1 as (r1 & Hr1 & Hrange1).
    apply calc_units_in_range in E2 as (r2 & Hr2 & Hrange2).
    rewrite (calc_units_value _ _ r1 Hr1 Hrange1).
    rewrite (calc_units_value _ _ r2 Hr2 Hrange2).
    simpl. intros [= <- <-]. auto.
  - intros (Hr1 & Hr2 & Hrange1 & Hrange2).
    assert (E1 : units_in_range (calc_units pl1_w unit_watts) = true).
    { apply calc_units_in_range. eauto. }
    assert (E2 : units_in_range (calc_units pl2_w unit_watts) = true).
    { apply calc_units_in_range. eauto. }
    rewrite E1, E2. simpl.
    rewrite (calc_units_value _ _ _ Hr1 Hrange1).
    now rewrite (calc_units_value _ _ _ Hr2 Hrange2).
Qed.

(** X6. The conversion of the line-based tool and of the scanner keeps
    only the low 16 bits of each rounded quotient before it tests the
    range: it yields units exactly when those low 16 bits are numbers
    from 1 to 32767, and the units are those low 16 bits. *)
Theorem set_limits_units_tests_low_16_bits (unit_watts pl1_w pl2_w : double)
  (r1 r2 : Z) :
  round_half_away (fdiv pl1_w unit_watts) = Some r1 ->
  round_half_away (fdiv pl2_w unit_watts) = Some r2 ->
  LLONG_MIN <= r1 <= LLONG_MAX -> LLONG_MIN <= r2 <= LLONG_MAX ->
  set_limits_units unit_watts pl1_w pl2_w =
  if (1 <=? r1 mod 2 ^ 16) && (r1 mod 2 ^ 16 <=? 0x7FFF)
     && (1 <=? r2 mod 2 ^ 16) && (r2 mod 2 ^ 16 <=? 0x7FFF)
  then Some (r1 mod 2 ^ 16, r2 mod 2 ^ 16) else None.
Proof.
  intros Hr1 Hr2 Hrange1 Hrange2. unfold set_limits_units.
  destruct (narrow_units_in_range _ _ _ Hr1 Hrange1) as [-> _].
  destruct (narrow_units_in_range _ _ _ Hr2 Hrange2) as [-> _].
  change (2 ^ 16) with 65536.
  pose proof (Z.mod_pos_bound r1 65536 ltac:(lia)).
  pose proof (Z.mod_pos_bound r2 65536 ltac:(lia)).
  change 65536 with (2 ^ 16) in *.
  destruct (Z.eqb_spec (r1 mod 2 ^ 16) 0), (Z.eqb_spec (r2 mod 2 ^ 16) 0),
    (Z.ltb_spec 0x7FFF (r1 mod 2 ^ 16)), (Z.ltb_spec 0x7FFF (r2 mod 2 ^ 16)),
    (Z.leb_spec 1 (r1 mod 2 ^ 16)), (Z.leb_spec (r1 mod 2 ^ 16) 0x7FFF),
    (Z.leb_spec 1 (r2 mod 2 ^ 16)), (Z.leb_spec (r2 mod 2 ^ 16) 0x7FFF);
    simpl; try reflexivity; lia.
Qed.

Lemma set_limits_units_tests_low_16_bits_witness :
  set_limits_units (unit_watts_of 3) (of_Z 55) (of_Z 157)
  = Some (440, 1256).
Proof.
  rewrite (set_limits_units_tests_low_16_bits (unit_watts_of 3) (of_Z 55)
             (of_Z 157) 440 1256);
    try (vm_compute; reflexivity);
    vm_compute; split; discriminate.
Defined.

End UnitsMore.

(** ** Locating the host bridge *)

Section LocatorMore.

Import Mchbar.
Local Open Scope string_scope.
Local Open Scope Z_scope.

Lemma is_intel_host_bridge_ident (fs : sysfs) (dev_path : string) :
  mchbar_is_intel_host_bridge fs dev_path = true <->
  exists class vendor,
    class_val (ident_of fs dev_path) = Some class
    /\ vendor_val (ident_of fs dev_path) = Some vendor
    /\ vendor = 0x8086 /\ Z.land class 0xFFFF00 = 0x060000.
Proof.
  unfold mchbar_is_intel_host_bridge.
  destruct (class_val (ident_of fs dev_path)) as [class |].
  - destruct (vendor_val (ident_of fs dev_path)) as [vendor |].
    + destruct (Z.eqb_spec vendor 0x8086) as [Hv | Hv]; simpl.
      * destruct (Z.eqb_spec (Z.land class 0xFFFF00) 0x060000) as [Hc | Hc];
          simpl; split.
        -- intros _. exists class, vendor. auto.
        -- reflexivity.
        -- discriminate.
        -- intros (c & v & Hc1 & Hv1 & _ & Hc'). congruence.
      * split; [discriminate |].
        intros (c & v & _ & Hv1 & Hv' & _). congruence.
    + split; [discriminate | intros (c & v & _ & Hv & _); discriminate].
  - split; [discriminate | intros (c & v & Hc & _); discriminate].
Qed.

Lemma strlen_append (a b : string) : strlen (a +:+ b) = strlen a + strlen b.
Proof.
  unfold strlen. induction a as [| c a IH].
  - reflexivity.
  - change (String c a +:+ b) with (String c (a +:+ b)).
    change (String.length (String c (a +:+ b)))
      with (S (String.length (a +:+ b))).
    change (String.length (String c a)) with (S (String.length a)).
    rewrite !Nat2Z.inj_succ, IH. lia.
Qed.

Lemma scan_devices_first_match (fs : sysfs) (before after : list string)
  (d_name : string) :
  (forall name, In name before -> passed_over fs name) ->
  starts_with_dot d_name = false ->
  mchbar_is_intel_host_bridge fs (devices_dir +:+ d_name) = true ->
  strlen d_name <= 255 ->
  scan_devices fs PATH_MAX (before ++ d_name :: after)
  = Ok (devices_dir +:+ d_name +:+ "/config").
Proof.
  intros Hbefore Hdot Hbridge Hlen.
  induction before as [| name before IH]; cbn [scan_devices app].
  - rewrite Hdot. fold devices_dir. rewrite Hbridge. cbn [negb].
    rewrite strlen_append.
    change (strlen devices_dir) with 21. change (strlen "/config") with 7.
    unfold PATH_MAX.
    destruct (Z.ltb_spec 4096 (21 + strlen d_name + 7 + 1)); [lia |].
    reflexivity.
  - fold devices_dir.
    assert (Hrest : forall n, In n before -> passed_over fs n)
      by (intros n Hn; apply Hbefore; now right).
    destruct (Hbefore name (or_introl eq_refl)) as [Hd | Hb].
    + rewrite Hd. apply IH, Hrest.
    + destruct (starts_with_dot name); [apply IH, Hrest |].
      rewrite Hb. cbn [negb]. apply IH, Hrest.
Qed.

Lemma scan_devices_none (fs : sysfs) (ents : list string) :
  (forall name, In name ents -> passed_over fs name) ->
  scan_devices fs PATH_MAX ents = Err HostBridgeNotFound.
Proof.
  induction ents as [| name ents IH]; intros Hall; cbn [scan_devices]; [reflexivity |].
  fold devices_dir.
  assert (Hrest : forall n, In n ents -> passed_over fs n)
    by (intros n Hn; apply Hall; now right).
  destruct (Hall name (or_introl eq_refl)) as [Hd | Hb].
  - rewrite Hd. apply IH, Hrest.
  - destruct (starts_with_dot name); [apply IH, Hrest |].
    rewrite Hb. cbn [negb]. apply IH, Hrest.
Qed.

Lemma scan_devices_found (fs : sysfs) (out_sz : Z) (ents : list string)
  (path : string) :
  scan_devices fs out_sz ents = Ok path ->
  exists d_name,
    In d_name ents /\ starts_with_dot d_name = false
    /\ mchbar_is_intel_host_bridge fs (devices_dir +:+ d_name) = true
    /\ path = devices_dir +:+ d_name +:+ "/config".
Proof.
  induction ents as [| name ents IH]; cbn [scan_devices In];
    [discriminate |].
  fold devices_dir.
  destruct (starts_with_dot name) eqn:Hdot.
  - intros H. destruct (IH H) as (d & Hin & Hrest). exists d. auto.
  - destruct (mchbar_is_intel_host_bridge fs (devices_dir +:+ name))
      eqn:Hbridge; cbn [negb].
    + destruct (out_sz <? _); [discriminate |].
      intros [= <-]. exists name. auto.
    + intros H. destruct (IH H) as (d & Hin & Hrest). exists d. auto.
Qed.

(** X7. The locator prefers the conventional device 0000:00:00.0 and
    does not list the directory when that is an Intel host bridge;
    otherwise it returns the first directory entry, in listing order and
    not starting with a dot, whose vendor is 0x8086 and whose class is
    0x0600xx, and reports that none was found when every entry is passed
    over. Whatever it returns is the [config] file of such a device. *)
Theorem host_bridge_locator (fs : sysfs) :
  (mchbar_is_intel_host_bridge fs primary_device = true ->
   mchbar_find_host_bridge_config fs PATH_MAX
   = Ok (primary_device +:+ "/config"))
  /\ (forall before d_name after,
        mchbar_is_intel_host_bridge fs primary_device = false ->
        dir_entries fs = Some (before ++ d_name :: after)%list ->
        (forall name, In name before -> passed_over fs name) ->
        starts_with_dot d_name = false ->
        mchbar_is_intel_host_bridge fs (devices_dir +:+ d_name) = true ->
        strlen d_name <= 255 ->
        mchbar_find_host_bridge_config fs PATH_MAX
        = Ok (devices_dir +:+ d_name +:+ "/config"))
  /\ (forall ents,
        mchbar_is_intel_host_bridge fs primary_device = false ->
        dir_entries fs = Some ents ->
        (forall name, In name ents -> passed_over fs name) ->
        mchbar_find_host_bridge_config fs PATH_MAX = Err HostBridgeNotFound)
  /\ (mchbar_is_intel_host_bridge fs primary_device = false ->
      dir_entries fs = None ->
      mchbar_find_host_bridge_config fs PATH_MAX = Err OpenDevicesFailed)
  /\ (forall path,
        mchbar_find_host_bridge_config fs PATH_MAX = Ok path ->
        exists dev class vendor,
          path = dev +:+ "/config"
          /\ class_val (ident_of fs dev) = Some class
          /\ vendor_val (ident_of fs dev) = Some vendor
          /\ vendor = 0x8086 /\ Z.land class 0xFFFF00 = 0x060000).
Proof.
  unfold mchbar_find_host_bridge_config. fold primary_device.
  split; [| split; [| split; [| split]]].
  - intros ->. reflexivity.
  - intros before d_name after -> -> Hbefore Hdot Hbridge Hlen.
    now apply scan_devices_first_match.
  - intros ents -> -> Hall. now apply scan_devices_none.
  - intros -> ->. reflexivity.
  - intros path.
    destruct (mchbar_is_intel_host_bridge fs primary_device) eqn:Hprimary.
    + change (PATH_MAX <? strlen primary_device + strlen "/config" + 1)
        with false. cbv iota. intros [= <-].
      apply is_intel_host_bridge_ident in Hprimary
        as (class & vendor & Hrest).
      exists primary_device, class, vendor. auto.
    + destruct (dir_entries fs) as [ents |]; [| discriminate].
      intros Hscan.
      apply scan_devices_found in Hscan as (d & _ & _ & Hbridge & ->).
      apply is_intel_host_bridge_ident in Hbridge
        as (class & vendor & Hrest).
      exists (devices_dir +:+ d), class, vendor. auto.
Qed.

Lemma host_bridge_locator_witness :
  mchbar_find_host_bridge_config desktop_sysfs PATH_MAX
  = Ok (primary_device +:+ "/config").
Proof.
  apply (proj1 (host_bridge_locator desktop_sysfs)).
  vm_compute. reflexivity.
Defined.

(** X8. A base that [mchbar_get_base] returns is a non-zero multiple of
    4096 below 2^64, namely the value of the register at 0x48 of the
    located host bridge with its low twelve bits cleared, and that value
    has its enable bit set. When the host bridge is not located, the
    locator's failure is the result. *)
Theorem mchbar_base_is_page_aligned (fs : sysfs) :
  (forall base,
     mchbar_get_base fs = Ok base ->
     base mod 4096 = 0 /\ 0 < base < 2 ^ 64
     /\ exists config_path val,
          mchbar_find_host_bridge_config fs PATH_MAX = Ok config_path
          /\ mchbar_read_config_u64 fs config_path 0x48 = Ok val
          /\ Z.testbit val 0 = true
          /\ base = val - val mod 4096)
  /\ (forall e,
        mchbar_find_host_bridge_config fs PATH_MAX = Err e ->
        mchbar_get_base fs = Err e).
Proof.
  split.
  - intros base. unfold mchbar_get_base.
    destruct (mchbar_find_host_bridge_config fs PATH_MAX)
      as [config_path | e]; [| discriminate].
    destruct (mchbar_read_config_u64 fs config_path 0x48) as [val | e]
      eqn:Hread; [| discriminate].
    pose proof (read_config_is_u64 _ _ _ _ Hread) as Hval.
    rewrite (mask_low_12 val Hval).
    destruct (Z.eqb_spec (Z.land val 1) 0) as [H0 | H0]; [discriminate |].
    destruct (Z.eqb_spec (4096 * (val / 4096)) 0) as [Hz | Hz];
      [discriminate |].
    intros [= <-].
    assert (Hbit : Z.testbit val 0 = true).
    { destruct (Z.testbit val 0) eqn:Hbit; [reflexivity |].
      apply enable_bit_clear in Hbit. contradiction. }
    unfold is_u64 in Hval.
    pose proof (Z.div_mod val 4096 ltac:(lia)) as Hdm.
    pose proof (Z.mod_pos_bound val 4096 ltac:(lia)) as Hm.
    split; [| split].
    + rewrite Z.mul_comm. apply Z.mod_mul. lia.
    + lia.
    + exists config_path, val. repeat split; auto. lia.
  - intros e Hfind. unfold mchbar_get_base. now rewrite Hfind.
Qed.

Lemma mchbar_base_is_page_aligned_witness :
  0xFEDC0000 mod 4096 = 0 /\ 0 < 0xFEDC0000 < 2 ^ 64.
Proof.
  destruct (proj1 (mchbar_base_is_page_aligned desktop_sysfs) 0xFEDC0000)
    as (Haligned & Hrange & _).
  - vm_compute. reflexivity.
  - split; [exact Haligned | exact Hrange].
Defined.

End LocatorMore.

(** ** Lines of the helper's response *)

Section ResponseLines.

Import HelperState HelperKeys.
Local Open Scope string_scope.
Local Open Scope Z_scope.

Lemma split_nonempty (sep : ascii) (s : string) : split sep s <> [].
Proof.
  destruct s as [| a r]; simpl; [discriminate |].
  destruct (Ascii.eqb a sep); [discriminate |].
  destruct (split sep r); discriminate.
Qed.

Lemma split_append (sep : ascii) (s1 s2 : string) :
  split sep (s1 +:+ String sep s2) = (split sep s1 ++ split sep s2)%list.
Proof.
  induction s1 as [| a r IH].
  - simpl. now rewrite Ascii.eqb_refl.
  - change (String a r +:+ String sep s2)
      with (String a (r +:+ String sep s2)).
    cbn [split]. rewrite IH.
    destruct (Ascii.eqb a sep); [reflexivity |].
    destruct (split sep r) as [| h t] eqn:Hr; [| reflexivity].
    now destruct (split_nonempty sep r).
Qed.

Lemma split_without_separator (sep : ascii) (s : string) :
  forall i, 0 <= i -> indexOf_from sep s i = -1 -> split sep s = [s].
Proof.
  induction s as [| a r IH]; intros i Hi; simpl; [reflexivity |].
  destruct (Ascii.eqb a sep); [lia |].
  intros Hrest. now rewrite (IH (i + 1)) by (lia || assumption).
Qed.

Lemma indexOf_from_empty (c : ascii) (i : Z) :
  indexOf_from c "" i = -1.
Proof. reflexivity. Qed.

Lemma lines_of_appended (out line : string) :
  indexOf line newline = -1 -> is_empty line = false ->
  lines_of (out +:+ String newline line) = (lines_of out ++ [line])%list.
Proof.
  intros Hnl Hne. unfold lines_of, split_skip_empty.
  rewrite split_append, List.filter_app.
  rewrite (split_without_separator newline line 0) by (lia || exact Hnl).
  simpl. now rewrite Hne.
Qed.

Lemma collect_appended (lines : list string) (line : string) :
  collect (lines ++ [line]) = collect_line (collect lines) line.
Proof. unfold collect. now rewrite fold_left_app. Qed.

Lemma positive_index_nonempty (line : string) (c : ascii) :
  0 < indexOf line c -> is_empty line = false.
Proof. destruct line; [discriminate | reflexivity]. Qed.

Lemma value_insert (values : gmap string string) (key key' text : string) :
  value (<[key := text]> values) key'
  = if String.eqb key key' then text else value values key'.
Proof.
  unfold value. destruct (String.eqb_spec key key') as [-> | Hne].
  - now rewrite lookup_insert_eq.
  - now rewrite lookup_insert_ne.
Qed.

(** X9. A line appended to a response whose first [=] comes after its
    first character stores its text (both sides stripped of surrounding
    white space) under its key, replacing what an earlier line stored
    there and leaving every other key as it was; an appended line without
    [=], or starting with it, changes nothing. *)
Theorem appended_line_overrides (out line : string) :
  indexOf line newline = -1 ->
  (0 < indexOf line "="%char ->
   value (collect (lines_of (out +:+ String newline line))) (line_key line)
   = line_value line
   /\ forall key, key <> line_key line ->
        value (collect (lines_of (out +:+ String newline line))) key
        = value (collect (lines_of out)) key)
  /\ (indexOf line "="%char <= 0 -> is_empty line = false ->
      collect (lines_of (out +:+ String newline line))
      = collect (lines_of out)).
Proof.
  intros Hnl. split.
  - intros Hidx.
    rewrite lines_of_appended
      by (assumption || now apply (positive_index_nonempty line "=")).
    rewrite collect_appended. unfold collect_line.
    destruct (Z.leb_spec (indexOf line "=") 0); [lia |].
    fold (line_key line). fold (line_value line). split.
    + rewrite value_insert. now rewrite String.eqb_refl.
    + intros key Hkey. rewrite value_insert.
      destruct (String.eqb_spec (line_key line) key); [congruence |].
      reflexivity.
  - intros Hidx Hne. rewrite lines_of_appended by assumption.
    rewrite collect_appended. unfold collect_line.
    destruct (Z.leb_spec (indexOf line "=") 0); [reflexivity | lia].
Qed.

Lemma appended_line_overrides_witness :
  value (collect (lines_of (response_complete +:+
                            String newline " MSR = 0x10 ")))
    "MSR" = "0x10".
Proof.
  apply (proj1 (appended_line_overrides response_complete " MSR = 0x10 "
                  eq_refl)).
  vm_compute. reflexivity.
Defined.

Lemma parse_state_same_consulted
  (toInt : string -> option Z) (toDouble : string -> option double)
  (toULongLong : string -> option Z) (out out' : string) :
  same_consulted (collect (lines_of out)) (collect (lines_of out')) ->
  parse_state toInt toDouble toULongLong out'
  = parse_state toInt toDouble toULongLong out.
Proof.
  intros Hsame. unfold parse_state, int_or_0, double_or_0. cbv zeta.
  fold (lines_of out). fold (lines_of out').
  repeat match goal with
  | |- context [value (collect (lines_of out')) ?k] =>
      rewrite (Hsame k) by (unfold consulted_keys; simpl; tauto)
  end.
  reflexivity.
Qed.

(** X10. [parse_state] ignores what it does not look up: a response with
    one more line, which has no [=], or starts with it, or stores a key
    that is none of the nineteen keys read, parses to exactly the same
    result, failure or state, as the response without that line. *)
Theorem unknown_line_is_ignored
  (toInt : string -> option Z) (toDouble : string -> option double)
  (toULongLong : string -> option Z) (out line : string) :
  indexOf line newline = -1 -> is_empty line = false ->
  indexOf line "="%char <= 0 \/ ~ In (line_key line) consulted_keys ->
  parse_state toInt toDouble toULongLong (out +:+ String newline line)
  = parse_state toInt toDouble toULongLong out
  /\ read_state toInt toDouble toULongLong
       (Replied (out +:+ String newline line))
     = read_state toInt toDouble toULongLong (Replied out).
Proof.
  intros Hnl Hne Hunknown.
  assert (H : parse_state toInt toDouble toULongLong
                (out +:+ String newline line)
              = parse_state toInt toDouble toULongLong out).
  { apply parse_state_same_consulted. intros key Hkey.
    rewrite lines_of_appended, collect_appended by assumption.
    unfold collect_line.
    destruct (Z.leb_spec (indexOf line "=") 0) as [Hle | Hgt];
      [reflexivity |].
    destruct Hunknown as [Hle | Hnot]; [lia |].
    fold (line_key line). rewrite value_insert.
    destruct (String.eqb_spec (line_key line) key) as [Heq | Hneq];
      [| reflexivity].
    subst key. contradiction. }
  split; [exact H | exact H].
Qed.

Lemma unknown_line_is_ignored_witness :
  parse_state decimal decimal_double decimal
    (response_without_mmio +:+ String newline "COLOUR=blue")
  = parse_state decimal decimal_double decimal response_without_mmio.
Proof.
  apply (unknown_line_is_ignored decimal decimal_double decimal
           response_without_mmio "COLOUR=blue"); try reflexivity.
  right. vm_compute. intuition discriminate.
Defined.

End ResponseLines.

(** ** Runs of the apply workflow *)

Section ApplyRuns.

Import HelperState Gui GuiRuns.
Local Open Scope Z_scope.

(** X11. When the state cannot be read, when its unit scale is not
    positive, or when the watts do not convert to units in range, the
    apply workflow shows the error and returns [false] having made no
    write request at all: the read is its only contact with the helper. *)
Theorem rejected_apply_writes_nothing (target : Target)
  (confirm do_refresh : bool) (env : Env) (ui : Ui) :
  (forall err, env_read env = Failed err ->
     apply_limits_internal target confirm do_refresh env ui
     = (false, [Helper ReadReq false; ShowError "Read failed" err]))
  /\ (forall state, env_read env = Replied state ->
        update_units state = false ->
        apply_limits_internal target confirm do_refresh env ui
        = (false, [Helper ReadReq true;
                   ShowError "Invalid unit"
                     "Power unit is unknown or zero."]))
  /\ (forall state, env_read env = Replied state ->
        update_units state = true ->
        build_units_values (unit_watts state) (pl1_spin ui) (pl2_spin ui)
        = None ->
        apply_limits_internal target confirm do_refresh env ui
        = (false, [Helper ReadReq true;
                   ShowError "Invalid values"
                     "Converted units out of range."])).
Proof.
  unfold apply_limits_internal, apply_limits_run, helper_read, build_units.
  split; [| split].
  - intros err ->. run_step. reflexivity.
  - intros state -> Hunit. run_step. rewrite Hunit. run_step. reflexivity.
  - intros state -> Hunit Hunits. run_step. rewrite Hunit. run_step.
    unfold update_units in Hunit. apply negb_true_iff in Hunit.
    rewrite Hunit, Hunits. run_step. reflexivity.
Qed.

Lemma rejected_apply_writes_nothing_witness :
  writes (snd (apply_limits_internal Both true true env_read_fails
                 bench_ui)) = [].
Proof.
  rewrite (proj1 (rejected_apply_writes_nothing Both true true
                    env_read_fails bench_ui) "Helper failed (exit 1)"%string
             eq_refl).
  reflexivity.
Defined.

(** *** What a successful run wrote *)

Lemma finish_bind_true {A B} (m : Run A) (k : A -> Run B)
  (t : list event) :
  finish (bind m k) = (true, t) ->
  exists a t', snd m = Some a /\ t = fst m ++ t'
               /\ finish (k a) = (true, t').
Proof.
  destruct (bind_cases m k) as [[Hnone ->] | (a & Hsome & ->)].
  - unfold finish. simpl. discriminate.
  - unfold finish. simpl. intros [= Hok <-].
    exists a, (fst (k a)). split; [exact Hsome |].
    split; [reflexivity |]. now rewrite Hok.
Qed.

Lemma write_block_done (env : Env) (confirm : bool) (p : prompt)
  (req : request) (answer : reply unit) (title : string) (msg : message)
  (b : bool) (a : unit) :
  is_write (Helper req true) = true ->
  snd (when b (when confirm (confirm_action env p) ;;;
               helper_write req answer title ;;;
               emit (LogMessage msg))) = Some a ->
  writes (fst (when b (when confirm (confirm_action env p) ;;;
                       helper_write req answer title ;;;
                       emit (LogMessage msg))))
  = if b then [Helper req true] else [].
Proof.
  intros Hreq. unfold when, confirm_action, helper_write.
  destruct b; [| reflexivity].
  destruct req; try discriminate Hreq;
    (destruct confirm; [destruct (env_confirm env p) |];
     destruct answer; run_step; try discriminate; reflexivity).
Qed.

Lemma writes_app (t t' : list event) :
  writes (t ++ t') = writes t ++ writes t'.
Proof. unfold writes. apply List.filter_app. Qed.

(** X12. When the apply workflow returns [true], its write requests are
    exactly the ones selected, each made once and answered with success,
    in the order MSR, MMIO, powercap: the MSR and MMIO values are the
    encodings of the converted units into the values read, the powercap
    values the microwatts of the two spin boxes. *)
Theorem successful_apply_writes (target : Target)
  (confirm do_refresh : bool) (env : Env) (ui : Ui) (t : list event) :
  apply_limits_internal target confirm do_refresh env ui = (true, t) ->
  exists state pl1_units pl2_units,
    env_read env = Replied state
    /\ build_units_values (unit_watts state) (pl1_spin ui) (pl2_spin ui)
       = Some (pl1_units, pl2_units)
    /\ writes t = expected_writes target ui state pl1_units pl2_units.
Proof.
  unfold apply_limits_internal, apply_limits_run. intros Hrun.
  apply finish_bind_true in Hrun as (state & t1 & Hstate & -> & Hrun).
  assert (Hread : env_read env = Replied state).
  { revert Hstate. unfold helper_read.
    destruct (env_read env); simpl; congruence. }
  assert (Hw0 : writes (fst (helper_read env "Read failed")) = []).
  { unfold helper_read. now destruct (env_read env). }
  apply finish_bind_true in Hrun as (u1 & t2 & Hu1 & -> & Hrun).
  apply finish_bind_true in Hrun as ([pl1 pl2] & t3 & Hunits & -> & Hrun).
  assert (Hw2 : writes (fst (build_units (unit_watts state) ui)) = []).
  { unfold build_units. destruct (fle (unit_watts state) zero);
      [reflexivity |]. now destruct (build_units_values _ _ _). }
  assert (Hvalues : build_units_values (unit_watts state) (pl1_spin ui)
                      (pl2_spin ui) = Some (pl1, pl2)).
  { revert Hunits. unfold build_units.
    destruct (fle (unit_watts state) zero); [discriminate |].
    destruct (build_units_values _ _ _); simpl; congruence. }
  apply finish_bind_true in Hrun as (a1 & t4 & Hmsr & -> & Hrun).
  apply finish_bind_true in Hrun as (a2 & t5 & Hmmio & -> & Hrun).
  apply finish_bind_true in Hrun as (a3 & t6 & Hpc & -> & Hrun).
  exists state, pl1, pl2. split; [exact Hread |]. split; [exact Hvalues |].
  rewrite !writes_app, Hw0.
  destruct (update_units state); [| discriminate Hu1].
  change (writes (fst (@ret unit tt))) with (@nil event).
  rewrite Hw2.
  rewrite (write_block_done _ _ _ (WriteMsr _) _ _ _ _ a1 eq_refl Hmsr).
  rewrite (write_block_done _ _ _ (WriteMmio _) _ _ _ _ a2 eq_refl Hmmio).
  assert (Hw6 : writes t6 = []).
  { revert Hrun. unfold finish, when. destruct do_refresh; simpl;
      intros [= <-]; reflexivity. }
  rewrite Hw6. unfold expected_writes. cbn [app]. f_equal. f_equal.
  rewrite app_nil_r.
  revert Hpc. unfold when.
  destruct (powercap_check ui); [| reflexivity].
  destruct ((watts_to_uw (pl1_spin ui) =? 0)
            || (watts_to_uw (pl2_spin ui) =? 0)); run_step;
    [discriminate |].
  unfold confirm_action, helper_write.
  destruct confirm;
    [destruct (env_confirm env _) |];
    destruct (env_write_powercap env _ _); run_step; try discriminate;
    reflexivity.
Qed.

Lemma successful_apply_writes_witness :
  exists state pl1_units pl2_units,
    env_read env_all_fine = Replied state
    /\ build_units_values (unit_watts state) (pl1_spin ui_with_powercap)
         (pl2_spin ui_with_powercap) = Some (pl1_units, pl2_units)
    /\ writes (snd (apply_limits_internal Both true true env_all_fine
                      ui_with_powercap))
       = expected_writes Both ui_with_powercap state pl1_units pl2_units.
Proof.
  apply (successful_apply_writes Both true true env_all_fine
           ui_with_powercap).
  vm_compute. reflexivity.
Defined.

(** *** Only what is selected *)

Lemma all_when {A} (P : event -> Prop) (b : bool) (m : Run A) :
  (b = true -> Forall P (fst m)) -> Forall P (fst (when b m)).
Proof.
  intros Hm. unfold when. destruct b; [| constructor].
  apply all_bind; [now apply Hm | intros; constructor].
Qed.

Lemma all_write_block (P : event -> Prop) (env : Env) (confirm : bool)
  (p : prompt) (req : request) (answer : reply unit) (title : string)
  (msg : message) :
  spares_the_rest P -> (forall done, P (Helper req done)) ->
  Forall P (fst (when confirm (confirm_action env p) ;;;
                 helper_write req answer title ;;;
                 emit (LogMessage msg))).
Proof.
  intros Hrest Hreq. unfold when, confirm_action, helper_write.
  destruct confirm; [destruct (env_confirm env p) |];
    destruct answer; run_step;
    repeat (constructor; try apply Hreq; try (apply Hrest; reflexivity)).
Qed.

Lemma selected_spares_the_rest (target : Target) (ui : Ui) :
  spares_the_rest (selected target ui).
Proof.
  intros [[| v | v | a b] ok | | | |]; simpl; try discriminate; auto.
Qed.

(** X13. The apply workflow never asks the helper to write what was not
    selected: no MSR write with target MMIO, no MMIO write with target
    MSR, and no powercap write unless the powercap box is ticked,
    whatever the helper and the operator answer. *)
Theorem apply_writes_only_selected (target : Target)
  (confirm do_refresh : bool) (env : Env) (ui : Ui) :
  let t := snd (apply_limits_internal target confirm do_refresh env ui) in
  Forall (selected target ui) t
  /\ (target = Mmio -> attempts_msr t = false)
  /\ (target = Msr -> attempts_mmio t = false).
Proof.
  intros t.
  assert (Hall : Forall (selected target ui) t).
  { pose proof (selected_spares_the_rest target ui) as Hrest.
    subst t. unfold apply_limits_internal, finish, apply_limits_run.
    cbn [snd].
    apply all_bind.
    { unfold helper_read. destruct (env_read env); run_step;
        repeat (constructor; try (apply Hrest; reflexivity)). }
    intros state _. apply all_bind.
    { destruct (update_units state); run_step;
        repeat (constructor; try (apply Hrest; reflexivity)). }
    intros _ _. apply all_bind.
    { unfold build_units. destruct (fle (unit_watts state) zero);
        [| destruct (build_units_values _ _ _)]; run_step;
        repeat (constructor; try (apply Hrest; reflexivity)). }
    intros [pl1 pl2] _. apply all_bind.
    { apply all_when. intros Hsel.
      apply all_write_block; [exact Hrest | intros done; exact Hsel]. }
    intros _ _. apply all_bind.
    { apply all_when. intros Hsel.
      apply all_write_block; [exact Hrest | intros done; exact Hsel]. }
    intros _ _. apply all_bind.
    { apply all_when. intros Hsel. apply all_bind.
      { destruct (_ || _); run_step;
          repeat (constructor; try (apply Hrest; reflexivity)). }
      intros _ _.
      apply all_write_block; [exact Hrest | intros done; exact Hsel]. }
    intros _ _. apply all_when. intros _. run_step.
    repeat (constructor; try (apply Hrest; reflexivity)). }
  split; [exact Hall | split].
  - intros ->. unfold attempts_msr.
    induction Hall as [| e t' He _ IH]; [reflexivity |].
    simpl. rewrite IH.
    destruct e as [[| v | v | a b] ok | | | |]; try reflexivity.
    simpl in He. discriminate.
  - intros ->. unfold attempts_mmio.
    induction Hall as [| e t' He _ IH]; [reflexivity |].
    simpl. rewrite IH.
    destruct e as [[| v | v | a b] ok | | | |]; try reflexivity.
    simpl in He. discriminate.
Qed.

(** *** The two syncs *)

(** X14. A sync makes at most one write request, and only after the state
    was read and the operator agreed; it refreshes the display exactly
    when that write succeeded. With a failed read or a declined prompt it
    writes nothing and does not refresh. *)
Theorem sync_writes_once_after_confirmation (env : Env) :
  (forall state, env_read env = Replied state ->
     sync_msr_to_mmio env =
     Helper ReadReq true ::
     Confirm (AskSyncMsrToMmio (msr state))
       (env_confirm env (AskSyncMsrToMmio (msr state))) ::
     (if env_confirm env (AskSyncMsrToMmio (msr state)) then
        match env_write_mmio env (msr state) with
        | Replied _ =>
            [Helper (WriteMmio (msr state)) true;
             LogMessage (SyncedMsrToMmio (msr state)); Refresh]
        | Failed err =>
            [Helper (WriteMmio (msr state)) false;
             ShowError "Write MMIO failed" err]
        end
      else [])
     /\ sync_mmio_to_msr env =
        Helper ReadReq true ::
        Confirm (AskSyncMmioToMsr (mmio state))
          (env_confirm env (AskSyncMmioToMsr (mmio state))) ::
        (if env_confirm env (AskSyncMmioToMsr (mmio state)) then
           match env_write_msr env (mmio state) with
           | Replied _ =>
               [Helper (WriteMsr (mmio state)) true;
                LogMessage (SyncedMmioToMsr (mmio state)); Refresh]
           | Failed err =>
               [Helper (WriteMsr (mmio state)) false;
                ShowError "Write MSR failed" err]
           end
         else []))
  /\ (forall err, env_read env = Failed err ->
        sync_msr_to_mmio env
        = [Helper ReadReq false; ShowError "Read failed" err]
        /\ sync_mmio_to_msr env
           = [Helper ReadReq false; ShowError "Read failed" err])
  /\ (length (writes (sync_msr_to_mmio env)) <= 1)%nat
  /\ (length (writes (sync_mmio_to_msr env)) <= 1)%nat.
Proof.
  unfold sync_msr_to_mmio, sync_mmio_to_msr, helper_read, confirm_action,
    helper_write.
  split; [| split; [| split]].
  - intros state ->. run_step.
    destruct (env_confirm env (AskSyncMsrToMmio (msr state)));
      destruct (env_confirm env (AskSyncMmioToMsr (mmio state)));
      destruct (env_write_mmio env (msr state));
      destruct (env_write_msr env (mmio state)); run_step;
      split; reflexivity.
  - intros err ->. run_step. split; reflexivity.
  - destruct (env_read env) as [state | err]; run_step.
    + destruct (env_confirm env (AskSyncMsrToMmio (msr state)));
        [destruct (env_write_mmio env (msr state)) |]; run_step;
        simpl; lia.
    + simpl. lia.
  - destruct (env_read env) as [state | err]; run_step.
    + destruct (env_confirm env (AskSyncMmioToMsr (mmio state)));
        [destruct (env_write_msr env (mmio state)) |]; run_step;
        simpl; lia.
    + simpl. lia.
Qed.

Lemma sync_writes_once_after_confirmation_witness :
  sync_msr_to_mmio env_read_fails
  = [Helper ReadReq false; ShowError "Read failed" "Helper failed (exit 1)"].
Proof.
  apply (proj1 (proj2 (sync_writes_once_after_confirmation env_read_fails))
           "Helper failed (exit 1)"%string).
  reflexivity.
Defined.

End ApplyRuns.

(** ** The unattended start *)

Section StartupActions.

Import HelperState Gui Tuning.
Local Open Scope Z_scope.

Lemma quiet_apply_limits_run (target : Target) (env : Env) (ui : Ui) :
  Forall quiet_event (fst (apply_limits_run target false false env ui)).
Proof.
  unfold apply_limits_run.
  apply all_bind.
  { unfold helper_read. destruct (env_read env); run_step;
      repeat constructor. }
  intros state _. apply all_bind.
  { destruct (update_units state); run_step; repeat constructor. }
  intros _ _. apply all_bind.
  { unfold build_units. destruct (fle (unit_watts state) zero);
      [| destruct (build_units_values _ _ _)]; run_step;
      repeat constructor. }
  intros [pl1 pl2] _. apply all_bind.
  { apply all_when. intros _. unfold helper_write.
    destruct (env_write_msr env _); run_step; repeat constructor. }
  intros _ _. apply all_bind.
  { apply all_when. intros _. unfold helper_write.
    destruct (env_write_mmio env _); run_step; repeat constructor. }
  intros _ _. apply all_bind.
  { apply all_when. intros _. apply all_bind.
    { destruct (_ || _); run_step; repeat constructor. }
    intros _ _. unfold helper_write.
    destruct (env_write_powercap env _ _); run_step; repeat constructor. }
  intros _ _. run_step. constructor.
Qed.

Lemma quiet_startup_limits (sui : StartupUi) (env : Env) (ui : Ui) :
  Forall (fun a => is_prompt a = false /\ is_refresh a = false
                   /\ is_tuning a = false)
    (snd (startup_limits sui env ui)).
Proof.
  unfold startup_limits, apply_limits_internal, finish. cbn [snd].
  pose proof (quiet_apply_limits_run (startup_limits_target_value sui)
                env ui) as H.
  induction H as [| e t He _ IH]; simpl; constructor; [| exact IH].
  destruct e as [| p yes | | |]; simpl in *; auto; contradiction.
Qed.

Lemma quiet_tune_step (tenv : TuneEnv) (p : tuning_prompt)
  (req : tuning_request) (failed : string) (msg : tuning_message) :
  Forall (fun a => is_prompt a = false /\ is_refresh a = false)
    (snd (tune_step tenv false false p req failed msg)).
Proof.
  unfold tune_step. cbn [andb]. destruct (tune_answer tenv req); simpl;
    repeat constructor.
Qed.

Lemma quiet_apply_ratio (target : RatioTarget) (tenv : TuneEnv)
  (tui : TuneUi) :
  Forall (fun a => is_prompt a = false /\ is_refresh a = false)
    (snd (apply_ratio_internal target false false tenv tui)).
Proof. destruct target; apply quiet_tune_step. Qed.

Lemma quiet_apply_core_uv (tenv : TuneEnv) (tui : TuneUi) :
  Forall (fun a => is_prompt a = false /\ is_refresh a = false)
    (snd (apply_core_uv_internal false false tenv tui)).
Proof. apply quiet_tune_step. Qed.

Lemma no_prompt_filter (t : list action) :
  Forall (fun a => is_prompt a = false /\ is_refresh a = false) t ->
  List.filter is_prompt t = [] /\ List.filter is_refresh t = [].
Proof.
  induction 1 as [| a t [Hp Hr] _ [IH1 IH2]]; simpl; [auto |].
  now rewrite Hp, Hr.
Qed.

Lemma tune_step_unattended (tenv : TuneEnv) (p : tuning_prompt)
  (req : tuning_request) (failed : string) (msg : tuning_message) :
  exists tail,
    tune_step tenv false false p req failed msg
    = (tuned tenv req, Tune req (tuned tenv req) :: tail)
    /\ List.filter is_tuning tail = []
    /\ List.filter is_limits tail = [].
Proof.
  unfold tune_step, tuned. cbn [andb].
  destruct (tune_answer tenv req); eexists; repeat split.
Qed.

Lemma apply_ratio_unattended (target : RatioTarget) (tenv : TuneEnv)
  (tui : TuneUi) :
  exists tail,
    apply_ratio_internal target false false tenv tui
    = (tuned tenv (ratio_request target tui),
       Tune (ratio_request target tui)
         (tuned tenv (ratio_request target tui)) :: tail)
    /\ List.filter is_tuning tail = []
    /\ List.filter is_limits tail = [].
Proof. destruct target; apply tune_step_unattended. Qed.

Lemma apply_core_uv_unattended (tenv : TuneEnv) (tui : TuneUi) :
  exists tail,
    apply_core_uv_internal false false tenv tui
    = (tuned tenv (SetCoreUv (core_uv_spin tui)),
       Tune (SetCoreUv (core_uv_spin tui))
         (tuned tenv (SetCoreUv (core_uv_spin tui))) :: tail)
    /\ List.filter is_tuning tail = []
    /\ List.filter is_limits tail = [].
Proof. apply tune_step_unattended. Qed.

Lemma filter_tuning_limits (t : list event) :
  List.filter is_tuning (map Limits t) = [].
Proof. induction t; simpl; auto. Qed.

(** X15. The unattended start applies limits, then ratios, then the core
    offset, each only if ticked and only while everything before it
    succeeded. It never shows a confirmation; a failed limits step is
    followed by no ratio or offset request; and the display is refreshed
    once, at the very end, exactly when the result is [true]. In full:
    the interactions begin with those of the limits workflow on the
    start-up target when limits are ticked, and no interaction of that
    workflow comes later or otherwise; the ratio request of the start-up
    ratio target is sent exactly when ratios are ticked and the limits
    step was not ticked or returned [true]; the offset request is sent,
    after it, exactly when the offset is ticked and neither of the two
    earlier steps failed; there is no other ratio or offset request; and
    the result is [true] exactly when no step that ran failed. *)
Theorem startup_is_unattended_and_stops (sui : StartupUi) (env : Env)
  (ui : Ui) (tenv : TuneEnv) (tui : TuneUi) :
  let run := apply_startup_actions sui env ui tenv tui in
  let lim := apply_limits_internal (startup_limits_target_value sui)
               false false env ui in
  let req_r := ratio_request (startup_ratio_target_value sui) tui in
  let req_u := SetCoreUv (core_uv_spin tui) in
  let ok_l := negb (startup_apply_limits sui) || fst lim in
  let ok_r := ok_l && (negb (startup_apply_ratios sui) || tuned tenv req_r) in
  let ok_u := ok_r && (negb (startup_apply_core_uv sui) || tuned tenv req_u)
  in
  List.filter is_prompt (snd run) = []
  /\ List.filter is_refresh (snd run)
     = (if fst run then [RefreshAll] else [])
  /\ (startup_apply_limits sui = true ->
      fst (startup_limits sui env ui) = false ->
      fst run = false /\ List.filter is_tuning (snd run) = [])
  /\ fst run = ok_u
  /\ (exists rest,
        snd run
        = ((if startup_apply_limits sui then map Limits (snd lim) else [])
           ++ rest)%list
        /\ List.filter is_limits rest = [])
  /\ List.filter is_tuning (snd run)
     = ((if ok_l && startup_apply_ratios sui
         then [Tune req_r (tuned tenv req_r)] else [])
        ++ (if ok_r && startup_apply_core_uv sui
            then [Tune req_u (tuned tenv req_u)] else []))%list
  /\ (fst run = true -> exists t, snd run = (t ++ [RefreshAll])%list).
Proof.
  intros run lim req_r req_u ok_l ok_r ok_u.
  assert (Hquiet : List.filter is_prompt (snd run) = []
    /\ List.filter is_refresh (snd run)
       = (if fst run then [RefreshAll] else [])
    /\ (startup_apply_limits sui = true ->
        fst (startup_limits sui env ui) = false ->
        fst run = false /\ List.filter is_tuning (snd run) = [])).
  { subst run. unfold apply_startup_actions.
    pose proof (quiet_startup_limits sui env ui) as Hlimits.
    pose proof (quiet_apply_ratio (startup_ratio_target_value sui) tenv tui)
      as Hratio.
    pose proof (quiet_apply_core_uv tenv tui) as Huv.
    destruct (startup_limits sui env ui) as [ok1 t1].
    destruct (apply_ratio_internal _ false false tenv tui) as [ok2 t2].
    destruct (apply_core_uv_internal false false tenv tui) as [ok3 t3].
    cbn [fst snd] in *.
    assert (H1 : List.filter is_prompt t1 = []
                 /\ List.filter is_refresh t1 = []
                 /\ List.filter is_tuning t1 = []).
    { clear -Hlimits. induction Hlimits as [| a t (Hp & Hr & Ht) _ IH];
        simpl; [auto |]. now rewrite Hp, Hr, Ht. }
    destruct H1 as (H1p & H1r & H1t).
    destruct (no_prompt_filter t2 Hratio) as [H2p H2r].
    destruct (no_prompt_filter t3 Huv) as [H3p H3r].
    destruct (startup_apply_limits sui), ok1, (startup_apply_ratios sui),
      ok2, (startup_apply_core_uv sui), ok3;
      cbn [andb fst snd app];
      rewrite ?List.filter_app, ?H1p, ?H1r, ?H1t, ?H2p, ?H2r, ?H3p, ?H3r;
      cbn [app List.filter is_prompt is_refresh is_tuning];
      repeat split; try reflexivity; try discriminate;
      intros; try reflexivity; try discriminate. }
  destruct Hquiet as (Hprompt & Hrefresh & Hstop).
  split; [exact Hprompt | split; [exact Hrefresh | split; [exact Hstop |]]].
  clear Hprompt Hrefresh Hstop.
  subst run ok_u ok_r ok_l. unfold apply_startup_actions, startup_limits.
  fold lim.
  destruct (apply_ratio_unattended (startup_ratio_target_value sui) tenv tui)
    as (tail_r & -> & Hr_tuning & Hr_limits).
  destruct (apply_core_uv_unattended tenv tui)
    as (tail_u & -> & Hu_tuning & Hu_limits).
  fold req_r req_u.
  pose proof (filter_tuning_limits (snd lim)) as Hl_tuning.
  destruct lim as [okl tl]. cbn [fst snd] in *.
  destruct (startup_apply_limits sui), okl, (startup_apply_ratios sui),
    (tuned tenv req_r), (startup_apply_core_uv sui), (tuned tenv req_u);
    cbn [andb orb negb fst snd];
    (split; [reflexivity |]);
    (split; [eexists; split; [reflexivity |];
             repeat first [rewrite List.filter_app | rewrite Hr_limits
                          | rewrite Hu_limits
                          | progress cbn [app List.filter is_limits]];
             reflexivity |]);
    (split; [repeat first [rewrite List.filter_app | rewrite Hr_tuning
                          | rewrite Hu_tuning | rewrite Hl_tuning
                          | progress cbn [app List.filter is_tuning]];
             reflexivity |]);
    intros Hok; try discriminate.
  all: rewrite !List.app_assoc; eexists; reflexivity.
Qed.

Lemma startup_is_unattended_and_stops_witness :
  let run := apply_startup_actions startup_everything GuiRuns.env_all_fine
               bench_ui tune_refused bench_tune_ui in
  let stopped := apply_startup_actions startup_everything
                   env_msr_write_fails bench_ui tune_all_fine
                   bench_tune_ui in
  (fst run = false
   /\ List.filter is_tuning (snd run) = [Tune (SetAllRatio 40) false])
  /\ fst stopped = false /\ List.filter is_tuning (snd stopped) = [].
Proof.
  intros run stopped. split.
  - destruct (startup_is_unattended_and_stops startup_everything
                GuiRuns.env_all_fine bench_ui tune_refused bench_tune_ui)
      as (_ & _ & _ & Hok & _ & Htuning & _).
    fold run in Hok, Htuning. rewrite Hok, Htuning.
    vm_compute. split; reflexivity.
  - apply (startup_is_unattended_and_stops startup_everything
             env_msr_write_fails bench_ui tune_all_fine bench_tune_ui);
      vm_compute; reflexivity.
Defined.

(** *** The core offset *)

Lemma shows_applied_whole_mv (mv : Z) :
  - 500 <= mv <= 500 ->
  shows_applied (of_Z mv) = negb (mv mod 125 =? 0).
Proof.
  intros Hmv.
  assert (H : shows_applied_as_expected mv = true).
  { apply (block_sound shows_applied_as_expected 10 (- 500)).
    - vm_compute. reflexivity.
    - change (2 ^ Z.of_nat 10) with 1024. lia. }
  unfold shows_applied_as_expected in H. now apply Bool.eqb_prop in H.
Qed.

(** X16. For a whole number of millivolts from -500 to 500 in the offset
    box, the helper is sent that number itself, not its quantised value;
    the confirmation and the log mention the quantised value exactly when
    the number is not a multiple of 125: those multiples are the only
    offsets in the range whose quantised value lies within 0.0005 mV of
    them. *)
Theorem core_uv_sends_target_and_reports_step (mv : Z)
  (confirm do_refresh : bool) (tenv : TuneEnv) (tui : TuneUi) :
  - 500 <= mv <= 500 ->
  core_uv_spin tui = of_Z mv ->
  let shown := if mv mod 125 =? 0 then None
               else Some (quantize_uv_mv (of_Z mv)) in
  apply_core_uv_internal confirm do_refresh tenv tui
  = tune_step tenv confirm do_refresh (AskCoreUv (of_Z mv) shown)
      (SetCoreUv (of_Z mv)) "Set core offset failed"
      (LogCoreUv (of_Z mv) shown)
  /\ (forall req done,
        In (Tune req done)
          (snd (apply_core_uv_internal confirm do_refresh tenv tui)) ->
        req = SetCoreUv (of_Z mv)).
Proof.
  intros Hmv Hspin shown.
  assert (Heq : apply_core_uv_internal confirm do_refresh tenv tui
    = tune_step tenv confirm do_refresh (AskCoreUv (of_Z mv) shown)
        (SetCoreUv (of_Z mv)) "Set core offset failed"
        (LogCoreUv (of_Z mv) shown)).
  { unfold apply_core_uv_internal. rewrite Hspin. cbv zeta.
    rewrite (shows_applied_whole_mv mv Hmv). subst shown.
    now destruct (mv mod 125 =? 0). }
  split; [exact Heq |].
  intros req done. rewrite Heq. unfold tune_step.
  destruct (confirm && negb (tune_confirm tenv _)).
  - simpl. intros [H | []]. discriminate.
  - destruct (tune_answer tenv (SetCoreUv (of_Z mv))), confirm, do_refresh;
      simpl; intros H;
      repeat (destruct H as [H | H]; [try discriminate; congruence |]);
      contradiction.
Qed.

Lemma core_uv_sends_target_and_reports_step_witness :
  apply_core_uv_internal false false tune_all_fine bench_tune_ui
  = (true,
     [Tune (SetCoreUv (of_Z (- 50))) true;
      TuneLog (LogCoreUv (of_Z (- 50))
                 (Some (quantize_uv_mv (of_Z (- 50)))))]).
Proof.
  rewrite (proj1 (core_uv_sends_target_and_reports_step (- 50) false false
                    tune_all_fine bench_tune_ui ltac:(lia) eq_refl)).
  reflexivity.
Defined.

End StartupActions.

(** ** The line tool: failures and sessions *)

Section LineToolMore.

Import Cli Session.
Local Open Scope Z_scope.

(** X17. Without the powercap step, a failing [set_limits] has written
    nothing: whenever it returns [-1] with the powercap prompt declined,
    MSR, MMIO and powercap files are as before. In particular a refused
    MSR write with target Both leaves the MMIO register alone. *)
Theorem set_limits_failure_writes_nothing (inp : Input)
  (unit_watts : double) (w : World) :
  yes_powercap inp = false ->
  fst (set_limits inp unit_watts w) = -1 ->
  snd (set_limits inp unit_watts w) = w.
Proof.
  intros Hpc. unfold set_limits.
  destruct (in_pl1 inp) as [pl1_w |]; [| reflexivity].
  destruct (in_pl2 inp) as [pl2_w |]; [| reflexivity].
  destruct (_ || _); [reflexivity |].
  destruct (in_target inp) as [target |]; [| reflexivity].
  destruct (_ || _); [reflexivity |].
  destruct (set_limits_units unit_watts pl1_w pl2_w) as [[pl1 pl2] |];
    [| reflexivity].
  destruct (set_limits_msr inp target pl1 pl2 w) as [w1 |]; [| reflexivity].
  unfold set_limits_powercap. rewrite Hpc. cbn [fst]. discriminate.
Qed.

Lemma set_limits_failure_writes_nothing_witness :
  snd (set_limits (locked_msr_input 150 170) (unit_watts_of 3) bench_world)
  = bench_world.
Proof.
  apply (set_limits_failure_writes_nothing (locked_msr_input 150 170)
           (unit_watts_of 3) bench_world);
    vm_compute; reflexivity.
Defined.

(** X18. A failure of the powercap step comes after the register writes
    and does not undo them: with target Both and every prompt confirmed,
    if one of the two powercap files cannot be written [set_limits]
    returns [-1], yet MSR and MMIO hold the new encoding; the second file
    is never written, the first one is when it was writable. *)
Theorem powercap_failure_keeps_register_writes (inp : Input)
  (unit_watts pl1_w pl2_w : double) (pl1_units pl2_units : Z) (w : World) :
  in_pl1 inp = Some pl1_w -> in_pl2 inp = Some pl2_w ->
  in_target inp = Some 3 ->
  fle pl1_w zero || fle pl2_w zero || flt d5000 pl1_w || flt d5000 pl2_w
  = false ->
  set_limits_units unit_watts pl1_w pl2_w = Some (pl1_units, pl2_units) ->
  rdmsr_works inp = true -> wrmsr_works inp = true ->
  yes_msr inp = true -> yes_mmio inp = true -> yes_powercap inp = true ->
  watts_to_uw pl1_w <> 0 -> watts_to_uw pl2_w <> 0 ->
  pl1_file_works inp && pl2_file_works inp = false ->
  let w' := snd (set_limits inp unit_watts w) in
  fst (set_limits inp unit_watts w) = -1
  /\ msr_now w' = set_pl_units (msr_now w) pl1_units pl2_units
  /\ mmio_now w' = set_pl_units (mmio_now w) pl1_units pl2_units
  /\ powercap_pl1 w'
     = (if pl1_file_works inp then Some (watts_to_uw pl1_w)
        else powercap_pl1 w)
  /\ powercap_pl2 w' = powercap_pl2 w.
Proof.
  intros H1 H2 Ht Hok Hu Hrd Hwr Hym Hyi Hyp Hu1 Hu2 Hfiles w'.
  subst w'. unfold set_limits.
  rewrite H1, H2, Hok, Ht, Hu.
  change ((3 <? 1) || (3 <? 3)) with false. cbv iota.
  unfold set_limits_msr, rdmsr, wrmsr. rewrite Hrd, Hym, Hwr.
  change ((3 =? 1) || (3 =? 3)) with true. cbv iota beta zeta.
  unfold set_limits_mmio. rewrite Hyi.
  change ((3 =? 2) || (3 =? 3)) with true. cbv iota beta zeta.
  unfold set_limits_powercap. rewrite Hyp.
  apply Z.eqb_neq in Hu1, Hu2. rewrite Hu1, Hu2. cbn [orb].
  unfold write_powercap_uw.
  assert (Hmsr : forall v, is_u64 v ->
            msr_now (with_msr w MSR_PKG_POWER_LIMIT v) = v).
  { intros v Hv. apply msr_now_with_msr, Hv. }
  destruct (pl1_file_works inp); cbn [negb andb] in *.
  - rewrite Hfiles. cbn [negb fst snd].
    repeat split.
    + apply (msr_now_with_msr w), set_pl_units_is_u64.
    + apply (mmio_now_with_mmio (with_msr w MSR_PKG_POWER_LIMIT _)),
        set_pl_units_is_u64.
  - cbn [fst snd]. repeat split.
    + apply (msr_now_with_msr w), set_pl_units_is_u64.
    + apply (mmio_now_with_mmio (with_msr w MSR_PKG_POWER_LIMIT _)),
        set_pl_units_is_u64.
Qed.

Lemma powercap_failure_keeps_register_writes_witness :
  let w' := snd (set_limits (eager_input 150 170) (unit_watts_of 3)
                   bench_world) in
  fst (set_limits (eager_input 150 170) (unit_watts_of 3) bench_world) = -1
  /\ msr_now w' = set_pl_units (msr_now bench_world) 1200 1360
  /\ mmio_now w' = set_pl_units (mmio_now bench_world) 1200 1360
  /\ powercap_pl1 w' = Some 150000000
  /\ powercap_pl2 w' = None.
Proof.
  apply (powercap_failure_keeps_register_writes (eager_input 150 170)
           (unit_watts_of 3) (of_Z 150) (of_Z 170) 1200 1360 bench_world);
    vm_compute; try reflexivity; discriminate.
Defined.

(** *** What a session can touch *)

Lemma same_elsewhere_refl (w : World) : same_elsewhere w w.
Proof. split; reflexivity. Qed.

Lemma same_elsewhere_trans (w1 w2 w3 : World) :
  same_elsewhere w1 w2 -> same_elsewhere w2 w3 -> same_elsewhere w1 w3.
Proof.
  intros [Ha Hb] [Hc Hd]. split.
  - intros reg Hreg. rewrite Hc, Ha by exact Hreg. reflexivity.
  - intros off H1 H2. rewrite Hd, Hb by assumption. reflexivity.
Qed.

Lemma same_elsewhere_with_msr (w : World) (v : Z) :
  same_elsewhere w (with_msr w MSR_PKG_POWER_LIMIT v).
Proof.
  split; [| reflexivity]. intros reg Hreg. cbn [with_msr msr_regs].
  apply Z.eqb_neq in Hreg. now rewrite Hreg.
Qed.

Lemma same_elsewhere_with_mmio (w : World) (v : Z) :
  same_elsewhere w (with_mmio w (wr64 (mmio_base w) PL_OFF v)).
Proof.
  split; [reflexivity |]. intros off H1 H2.
  cbn [with_mmio mmio_base]. unfold wr64, store32.
  apply Z.eqb_neq in H1, H2. now rewrite H1, H2.
Qed.

Lemma same_elsewhere_with_powercap (w : World) (a b : option Z) :
  same_elsewhere w (with_powercap w a b).
Proof. split; reflexivity. Qed.

Lemma set_limits_same_elsewhere (inp : Input) (unit_watts : double)
  (w : World) :
  same_elsewhere w (snd (set_limits inp unit_watts w)).
Proof.
  unfold set_limits.
  destruct (in_pl1 inp) as [pl1_w |]; [| apply same_elsewhere_refl].
  destruct (in_pl2 inp) as [pl2_w |]; [| apply same_elsewhere_refl].
  destruct (_ || _); [apply same_elsewhere_refl |].
  destruct (in_target inp) as [target |]; [| apply same_elsewhere_refl].
  destruct (_ || _); [apply same_elsewhere_refl |].
  destruct (set_limits_units unit_watts pl1_w pl2_w) as [[pl1 pl2] |];
    [| apply same_elsewhere_refl].
  destruct (set_limits_msr inp target pl1 pl2 w) as [w1 |] eqn:Hmsr;
    [| apply same_elsewhere_refl].
  assert (H1 : same_elsewhere w w1).
  { revert Hmsr. unfold set_limits_msr, rdmsr, wrmsr.
    destruct (_ || _); [| intros [= <-]; apply same_elsewhere_refl].
    destruct (rdmsr_works inp); [| discriminate].
    destruct (yes_msr inp); [| intros [= <-]; apply same_elsewhere_refl].
    destruct (wrmsr_works inp); [| discriminate].
    intros [= <-]. apply same_elsewhere_with_msr. }
  assert (H2 : same_elsewhere w1 (set_limits_mmio inp target pl1 pl2 w1)).
  { unfold set_limits_mmio.
    destruct (_ || _); [| apply same_elsewhere_refl].
    destruct (yes_mmio inp); [| apply same_elsewhere_refl].
    apply same_elsewhere_with_mmio. }
  apply (same_elsewhere_trans _ _ _ H1).
  apply (same_elsewhere_trans _ _ _ H2).
  unfold set_limits_powercap, write_powercap_uw.
  destruct (yes_powercap inp); [| apply same_elsewhere_refl].
  destruct (_ || _); [apply same_elsewhere_refl |].
  destruct (pl1_file_works inp); [| apply same_elsewhere_refl].
  destruct (pl2_file_works inp); cbn [negb snd].
  - eapply same_elsewhere_trans; apply same_elsewhere_with_powercap.
  - apply same_elsewhere_with_powercap.
Qed.

Lemma sync_limits_same_elsewhere (inp : Input) (w : World) :
  same_elsewhere w (snd (sync_limits inp w)).
Proof.
  unfold sync_limits, rdmsr, wrmsr.
  destruct (in_dir inp) as [dir |]; [| apply same_elsewhere_refl].
  destruct (dir =? 1).
  - destruct (rdmsr_works inp); [| apply same_elsewhere_refl].
    destruct (yes_mmio inp); [| apply same_elsewhere_refl].
    apply same_elsewhere_with_mmio.
  - destruct (dir =? 2); [| apply same_elsewhere_refl].
    destruct (yes_msr inp); [| apply same_elsewhere_refl].
    destruct (wrmsr_works inp); [| apply same_elsewhere_refl].
    apply same_elsewhere_with_msr.
Qed.

Lemma menu_same_elsewhere (unit_watts : double) (cmds : list Command) :
  forall w, same_elsewhere w (menu unit_watts cmds w).
Proof.
  induction cmds as [| cmd rest IH]; intros w; cbn [menu].
  - apply same_elsewhere_refl.
  - destruct (choice cmd) as [c |]; [| apply same_elsewhere_refl].
    destruct (c =? 1); [apply IH |].
    destruct (c =? 2).
    { eapply same_elsewhere_trans;
        [apply set_limits_same_elsewhere | apply IH]. }
    destruct (c =? 3).
    { eapply same_elsewhere_trans;
        [apply sync_limits_same_elsewhere | apply IH]. }
    destruct (c =? 4); [apply same_elsewhere_refl | apply IH].
Qed.

(** X19. Whatever is typed during a session of the line tool, no MSR
    other than [0x610] and no MMIO word other than the two at [0x59A0]
    and [0x59A4] is changed; and when the set-up fails (exit code 1)
    nothing is changed at all. *)
Theorem session_touches_only_limit_registers (fs : Mchbar.sysfs)
  (s : Setup) (cmds : list Command) (w : World) :
  same_elsewhere w (snd (main fs s cmds w))
  /\ (fst (main fs s cmds w) = 1 -> snd (main fs s cmds w) = w).
Proof.
  unfold main.
  destruct (negb (open_mmio fs s));
    [split; [apply same_elsewhere_refl | reflexivity] |].
  destruct (negb (msr_opens s));
    [split; [apply same_elsewhere_refl | reflexivity] |].
  destruct (negb (unit_read_works s));
    [split; [apply same_elsewhere_refl | reflexivity] |].
  cbn [fst snd]. split; [apply menu_same_elsewhere | discriminate].
Qed.

(** *** Opaque bits over a session *)

Lemma kept_or_encoded_opaque (before after a b : Z) :
  kept_or_encoded before after a b ->
  opaque_bits after = opaque_bits before.
Proof.
  unfold opaque_bits. intros [-> | ->]; [reflexivity |].
  apply apply_pl_units_opaque.
Qed.

Lemma set_limits_opaque (inp : Input) (unit_watts : double) (w : World) :
  opaque_bits (msr_now (snd (set_limits inp unit_watts w)))
  = opaque_bits (msr_now w)
  /\ opaque_bits (mmio_now (snd (set_limits inp unit_watts w)))
     = opaque_bits (mmio_now w).
Proof.
  destruct (set_limits_registers inp unit_watts w)
    as [[-> ->] | (p1 & p2 & u1 & u2 & _ & _ & _ & Hm & Hn)].
  - split; reflexivity.
  - split; eapply kept_or_encoded_opaque; eassumption.
Qed.

Lemma menu_opaque (unit_watts : double) (cmds : list Command) :
  Forall (fun cmd => choice cmd <> Some 3) cmds ->
  forall w,
    opaque_bits (msr_now (menu unit_watts cmds w)) = opaque_bits (msr_now w)
    /\ opaque_bits (mmio_now (menu unit_watts cmds w))
       = opaque_bits (mmio_now w).
Proof.
  induction 1 as [| cmd rest Hcmd _ IH]; intros w; cbn [menu].
  - split; reflexivity.
  - destruct (choice cmd) as [c |]; [| split; reflexivity].
    destruct (c =? 1); [apply IH |].
    destruct (c =? 2).
    { destruct (IH (snd (set_limits (answers cmd) unit_watts w)))
        as [-> ->].
      apply set_limits_opaque. }
    destruct (Z.eqb_spec c 3) as [-> | _]; [now elim Hcmd |].
    destruct (c =? 4); [split; reflexivity | apply IH].
Qed.

(** X20. A session in which no sync is chosen keeps every bit outside the
    two power fields, in the MSR and in the MMIO register, as it was when
    the tool started, however many times the limits are set and whatever
    the answers and failures along the way. *)
Theorem session_without_sync_keeps_opaque_bits (fs : Mchbar.sysfs)
  (s : Setup) (cmds : list Command) (w : World) :
  Forall (fun cmd => choice cmd <> Some 3) cmds ->
  opaque_bits (msr_now (snd (main fs s cmds w))) = opaque_bits (msr_now w)
  /\ opaque_bits (mmio_now (snd (main fs s cmds w)))
     = opaque_bits (mmio_now w).
Proof.
  intros Hcmds. unfold main.
  destruct (negb (open_mmio fs s)); [split; reflexivity |].
  destruct (negb (msr_opens s)); [split; reflexivity |].
  destruct (negb (unit_read_works s)); [split; reflexivity |].
  cbn [snd]. apply menu_opaque, Hcmds.
Qed.

Lemma session_without_sync_keeps_opaque_bits_witness :
  opaque_bits
    (msr_now (snd (main Mchbar.desktop_sysfs all_works bench_session
                     bench_world)))
  = opaque_bits (msr_now bench_world)
  /\ opaque_bits
       (mmio_now (snd (main Mchbar.desktop_sysfs all_works bench_session
                         bench_world)))
     = opaque_bits (mmio_now bench_world).
Proof.
  apply (session_without_sync_keeps_opaque_bits Mchbar.desktop_sysfs
           all_works bench_session bench_world).
  repeat constructor; discriminate.
Defined.

End LineToolMore.

(** ** The MMIO writer *)

Section Writer.

Import Cli Session PlWrite.
Local Open Scope string_scope.
Local Open Scope Z_scope.

Lemma wr64_elsewhere (base : window) (v off : Z) :
  off <> PL_OFF -> off <> PL_OFF + 4 -> wr64 base PL_OFF v off = base off.
Proof.
  intros H1 H2. unfold wr64, store32.
  apply Z.eqb_neq in H1, H2. now rewrite H1, H2.
Qed.

Lemma land_low_15 (x : Z) : 0 <= x < 2 ^ 15 -> Z.land x 0x7FFF = x.
Proof.
  intros Hx. change 0x7FFF with (Z.ones 15).
  rewrite Z.land_ones by lia. now apply Z.mod_small.
Qed.

Lemma set_value_units (atoi : string -> Z) (orig : Z) (arg2 arg3 : string) :
  0 < atoi arg2 <= 500 -> 0 < atoi arg3 <= 500 ->
  set_value atoi orig arg2 arg3
  = Some (apply_pl_units orig (8 * atoi arg2) (8 * atoi arg3)).
Proof.
  intros H2 H3. unfold set_value.
  destruct (Z.leb_spec (atoi arg2) 0); [lia |].
  destruct (Z.leb_spec (atoi arg3) 0); [lia |].
  destruct (Z.ltb_spec 500 (atoi arg2)); [lia |].
  destruct (Z.ltb_spec 500 (atoi arg3)); [lia |].
  cbn [orb]. rewrite pl_write_target_eq. unfold u16.
  rewrite !Z.mod_small by lia.
  now rewrite (Z.mul_comm (atoi arg2)), (Z.mul_comm (atoi arg3)).
Qed.

(** Every word of the window outside the register is left alone. *)
Lemma main_frame (atoi : string -> Z)
  (sscanf_x64 sscanf_0x_x64 : string -> option Z) (argv : list string)
  (mem_opens : bool) (fs : Mchbar.sysfs) (mmap_works : bool)
  (mmio : window) (off : Z) :
  off <> PL_OFF -> off <> PL_OFF + 4 ->
  snd (main atoi sscanf_x64 sscanf_0x_x64 argv mem_opens fs mmap_works mmio)
    off = mmio off.
Proof.
  intros H1 H2. unfold main.
  destruct argv as [| prog [| mode args]]; [reflexivity | reflexivity |].
  destruct (String.eqb mode "--help"); [reflexivity |].
  destruct mem_opens; cbn [negb]; [| reflexivity].
  destruct (Mchbar.mchbar_get_base fs); [| reflexivity].
  destruct mmap_works; cbn [negb]; [| reflexivity].
  match goal with
  | |- context [match ?t with Some _ => _ | None => _ end] =>
      destruct t as [target |]
  end; cbn [fst snd]; [| reflexivity].
  now apply wr64_elsewhere.
Qed.

Lemma set_value_some (atoi : string -> Z) (orig : Z) (arg2 arg3 : string) :
  (exists v, set_value atoi orig arg2 arg3 = Some v)
  <-> 0 < atoi arg2 <= 500 /\ 0 < atoi arg3 <= 500.
Proof.
  unfold set_value.
  destruct (Z.leb_spec (atoi arg2) 0), (Z.leb_spec (atoi arg3) 0),
    (Z.ltb_spec 500 (atoi arg2)), (Z.ltb_spec 500 (atoi arg3));
    cbn [orb]; split; try (intros [v [=]]); try lia; eauto.
Qed.

(** The invocations that [main] carries out. *)
Lemma main_exit_0 (atoi : string -> Z)
  (sscanf_x64 sscanf_0x_x64 : string -> option Z) (argv : list string)
  (mem_opens : bool) (fs : Mchbar.sysfs) (mmap_works : bool)
  (mmio : window) :
  fst (main atoi sscanf_x64 sscanf_0x_x64 argv mem_opens fs mmap_works mmio)
  = 0
  <-> exists prog mode args base,
        argv = prog :: mode :: args
        /\ mem_opens = true
        /\ Mchbar.mchbar_get_base fs = Mchbar.Ok base
        /\ mmap_works = true
        /\ ((mode = "--restore"
             /\ exists arg2 rest v,
                  args = arg2 :: rest
                  /\ restore_value sscanf_x64 sscanf_0x_x64 arg2 = Some v)
            \/ (mode = "--set"
                /\ exists arg2 arg3 rest,
                     args = arg2 :: arg3 :: rest
                     /\ 0 < atoi arg2 <= 500 /\ 0 < atoi arg3 <= 500)).
Proof.
  split.
  - unfold main.
    destruct argv as [| prog [| mode args]]; [discriminate | discriminate |].
    destruct (String.eqb mode "--help"); [discriminate |].
    destruct mem_opens; cbn [negb]; [| discriminate].
    destruct (Mchbar.mchbar_get_base fs) as [base | e] eqn:Hbase;
      [| discriminate].
    destruct mmap_works; cbn [negb]; [| discriminate].
    intros Hexit. exists prog, mode, args, base.
    repeat (split; [reflexivity |]).
    destruct (String.eqb_spec mode "--restore") as [-> | Hrestore].
    + left. split; [reflexivity |].
      destruct args as [| arg2 rest]; [discriminate |].
      destruct (restore_value sscanf_x64 sscanf_0x_x64 arg2) as [v |] eqn:Hv;
        [| discriminate].
      exists arg2, rest, v. auto.
    + destruct (String.eqb_spec mode "--set") as [-> | Hset];
        [| discriminate].
      right. split; [reflexivity |].
      destruct args as [| arg2 [| arg3 rest]]; [discriminate | discriminate |].
      exists arg2, arg3, rest. split; [reflexivity |].
      apply (set_value_some atoi (rd64 mmio PL_OFF)).
      destruct (set_value atoi (rd64 mmio PL_OFF) arg2 arg3) as [v |];
        [eauto | discriminate].
  - intros (prog & mode & args & base & -> & -> & Hbase & -> & Hmode).
    unfold main. rewrite Hbase. cbn [negb].
    destruct Hmode as [(-> & arg2 & rest & v & -> & Hv)
                      | (-> & arg2 & arg3 & rest & -> & H2 & H3)].
    + change (String.eqb "--restore" "--help") with false.
      change (String.eqb "--restore" "--restore") with true.
      cbv iota. now rewrite Hv.
    + change (String.eqb "--set" "--help") with false.
      change (String.eqb "--set" "--restore") with false.
      change (String.eqb "--set" "--set") with true.
      cbv iota. now rewrite (set_value_units atoi _ _ _ H2 H3).
Qed.

(** X21. The writer changes the mapped window only when it exits with 0,
    and it exits with 0 exactly when the set-up works (the memory device
    opens, the base is found, the mapping succeeds) and it is given
    [--restore] with an argument that reads as a hexadecimal number, or
    [--set] with two arguments that [atoi] reads as numbers from 1 to
    500. In every other case it exits with 1 or 2 and has written
    nothing: with no mode or [--help] it exits with 2 before the set-up;
    with an unknown mode, a missing or unreadable argument, watts outside
    1..500, or a failed set-up, with 1 or 2. When it does write, only
    the two words of the register at [0x59A0] change. *)
Theorem pl_write_writes_only_on_success (atoi : string -> Z)
  (sscanf_x64 sscanf_0x_x64 : string -> option Z) (argv : list string)
  (mem_opens : bool) (fs : Mchbar.sysfs) (mmap_works : bool)
  (mmio : window) :
  let r := main atoi sscanf_x64 sscanf_0x_x64 argv mem_opens fs mmap_works
             mmio in
  let refused := (fst r = 1 \/ fst r = 2) /\ snd r = mmio in
  (fst r = 0 \/ refused)
  /\ (forall off, off <> PL_OFF -> off <> PL_OFF + 4 -> snd r off = mmio off)
  /\ (mem_opens && mmap_works = false -> snd r = mmio)
  /\ (fst r = 0
      <-> exists prog mode args base,
            argv = prog :: mode :: args
            /\ mem_opens = true
            /\ Mchbar.mchbar_get_base fs = Mchbar.Ok base
            /\ mmap_works = true
            /\ ((mode = "--restore"
                 /\ exists arg2 rest v,
                      args = arg2 :: rest
                      /\ restore_value sscanf_x64 sscanf_0x_x64 arg2
                         = Some v)
                \/ (mode = "--set"
                    /\ exists arg2 arg3 rest,
                         args = arg2 :: arg3 :: rest
                         /\ 0 < atoi arg2 <= 500 /\ 0 < atoi arg3 <= 500)))
  /\ (argv = [] \/ (exists prog, argv = [prog])
      \/ (exists prog args, argv = prog :: "--help" :: args) ->
      r = (2, mmio))
  /\ (forall prog mode args,
        argv = prog :: mode :: args ->
        mode <> "--restore" -> mode <> "--set" -> refused)
  /\ (forall prog mode,
        argv = [prog; mode] \/ (exists arg2, argv = [prog; "--set"; arg2]) ->
        refused)
  /\ (forall prog arg2 rest,
        argv = prog :: "--restore" :: arg2 :: rest ->
        restore_value sscanf_x64 sscanf_0x_x64 arg2 = None -> refused)
  /\ (forall prog arg2 arg3 rest,
        argv = prog :: "--set" :: arg2 :: arg3 :: rest ->
        atoi arg2 <= 0 \/ 500 < atoi arg2 \/ atoi arg3 <= 0
        \/ 500 < atoi arg3 ->
        refused)
  /\ (mem_opens = false \/ (exists e, Mchbar.mchbar_get_base fs = Mchbar.Err e)
      \/ mmap_works = false ->
      refused).
Proof.
  intros r refused.
  assert (Hcases : fst r = 0 \/ refused).
  { subst refused r. unfold main.
    destruct argv as [| prog [| mode args]]; [cbn; auto | cbn; auto |].
    destruct (String.eqb mode "--help"); [cbn; auto |].
    destruct mem_opens; cbn [negb andb]; [| cbn; auto].
    destruct (Mchbar.mchbar_get_base fs); [| cbn; auto].
    destruct mmap_works; cbn [negb]; [| cbn; auto].
    match goal with
    | |- context [match ?t with Some _ => _ | None => _ end] =>
        destruct t as [target |]
    end; cbn [fst snd]; auto. }
  pose proof (main_exit_0 atoi sscanf_x64 sscanf_0x_x64 argv mem_opens fs
                mmap_works mmio) as Hexit.
  fold r in Hexit.
  assert (Hnot : (fst r = 0 -> False) -> refused).
  { intros Hno. destruct Hcases as [H0 | H]; [now destruct Hno | exact H]. }
  split; [exact Hcases |].
  split; [intros off; apply main_frame |].
  split.
  { intros Hsetup. apply Hnot. intros H0. apply Hexit in H0.
    destruct H0 as (_ & _ & _ & _ & _ & -> & _ & -> & _). discriminate. }
  split; [exact Hexit |].
  split.
  { subst r. unfold main.
    intros [-> | [[prog ->] | (prog & args & ->)]]; reflexivity. }
  split.
  { intros prog mode args -> Hrestore Hset. apply Hnot. intros H0.
    apply Hexit in H0.
    destruct H0 as (p & m & a & base & [= <- <- <-] & _ & _ & _
                    & [[-> _] | [-> _]]); congruence. }
  split.
  { intros prog mode Hargv. apply Hnot. intros H0. apply Hexit in H0.
    destruct H0 as (p & m & a & base & Heq & _ & _ & _
                    & [(-> & arg2 & rest & v & -> & _)
                      | (-> & arg2 & arg3 & rest & -> & _)]);
      destruct Hargv as [-> | [arg ->]]; discriminate. }
  split.
  { intros prog arg2 rest -> Hbad. apply Hnot. intros H0. apply Hexit in H0.
    destruct H0 as (p & m & a & base & [= <- <- <-] & _ & _ & _
                    & [(_ & arg & rest' & v & [= <- <-] & Hv)
                      | ([=] & _)]).
    congruence. }
  split.
  { intros prog arg2 arg3 rest -> Hbad. apply Hnot. intros H0.
    apply Hexit in H0.
    destruct H0 as (p & m & a & base & [= <- <- <-] & _ & _ & _
                    & [([=] & _)
                      | (_ & a2 & a3 & rest' & [= <- <- <-] & H2 & H3)]).
    lia. }
  intros Hsetup. apply Hnot. intros H0. apply Hexit in H0.
  destruct H0 as (_ & _ & _ & base & _ & -> & Hbase & -> & _).
  destruct Hsetup as [? | [[e He] | ?]]; congruence.
Qed.

(** X22. [--set PL1_W PL2_W] with both numbers from 1 to 500 and a
    working set-up exits with 0 and leaves a register whose two power
    fields are eight times the watts (units of 1/8 W, whatever the unit
    of the machine) and whose other bits are those it held before. *)
Theorem pl_write_set_fields (atoi : string -> Z)
  (sscanf_x64 sscanf_0x_x64 : string -> option Z)
  (prog arg2 arg3 : string) (rest : list string) (fs : Mchbar.sysfs)
  (mchbar_base : Z) (mmio : window) :
  Mchbar.mchbar_get_base fs = Mchbar.Ok mchbar_base ->
  0 < atoi arg2 <= 500 -> 0 < atoi arg3 <= 500 ->
  let r := main atoi sscanf_x64 sscanf_0x_x64
             (prog :: "--set" :: arg2 :: arg3 :: rest) true fs true mmio in
  fst r = 0
  /\ decode (rd64 (snd r) PL_OFF) = (8 * atoi arg2, 8 * atoi arg3)
  /\ opaque_bits (rd64 (snd r) PL_OFF) = opaque_bits (rd64 mmio PL_OFF).
Proof.
  intros Hbase H2 H3 r. subst r. unfold main. rewrite Hbase.
  change (String.eqb "--set" "--help") with false.
  change (String.eqb "--set" "--restore") with false.
  change (String.eqb "--set" "--set") with true.
  cbn [negb]. cbv iota. rewrite (set_value_units atoi _ _ _ H2 H3).
  cbn [fst snd]. rewrite rd64_wr64 by apply apply_pl_units_is_u64.
  split; [reflexivity | split].
  - unfold decode. rewrite decode_pl1_apply, decode_pl2_apply.
    now rewrite !land_low_15 by lia.
  - apply apply_pl_units_opaque.
Qed.

Lemma pl_write_set_fields_witness :
  decode
    (rd64 (snd (main bench_atoi bench_sscanf bench_sscanf
                  ["mchbar_pl_write"; "--set"; "150"; "170"] true
                  Mchbar.desktop_sysfs true bench_window)) PL_OFF)
  = (1200, 1360).
Proof.
  apply (pl_write_set_fields bench_atoi bench_sscanf bench_sscanf
           "mchbar_pl_write" "150" "170" [] Mchbar.desktop_sysfs
           0xFEDC0000 bench_window);
    vm_compute; try reflexivity; split; congruence.
Defined.

(** X23. [--restore] writes the given value as it is. Run with the
    original value that an earlier run printed, on a working set-up, it
    exits with 0, the register reads as it did before that earlier run,
    whatever that run did, and every other word of the window is as it
    was. *)
Theorem pl_write_restore_brings_back (atoi : string -> Z)
  (sscanf_x64 sscanf_0x_x64 : string -> option Z)
  (argv : list string) (mem_opens mmap_works : bool)
  (prog hex : string) (rest : list string) (fs : Mchbar.sysfs)
  (mchbar_base : Z) (mmio : window) :
  Mchbar.mchbar_get_base fs = Mchbar.Ok mchbar_base ->
  restore_value sscanf_x64 sscanf_0x_x64 hex = Some (rd64 mmio PL_OFF) ->
  let changed := snd (main atoi sscanf_x64 sscanf_0x_x64 argv mem_opens fs
                        mmap_works mmio) in
  let r := main atoi sscanf_x64 sscanf_0x_x64
             (prog :: "--restore" :: hex :: rest) true fs true changed in
  fst r = 0
  /\ rd64 (snd r) PL_OFF = rd64 mmio PL_OFF
  /\ (forall off, off <> PL_OFF -> off <> PL_OFF + 4 ->
        snd r off = mmio off).
Proof.
  intros Hbase Hhex changed r.
  pose proof (main_frame atoi sscanf_x64 sscanf_0x_x64 argv mem_opens fs
                mmap_works mmio) as Hframe.
  fold changed in Hframe.
  subst r. unfold main at 1 2 3. rewrite Hbase.
  change (String.eqb "--restore" "--help") with false.
  change (String.eqb "--restore" "--restore") with true.
  cbn [negb]. cbv iota. rewrite Hhex. cbn [fst snd].
  split; [reflexivity | split].
  - apply rd64_wr64, rd64_is_u64.
  - intros off H1 H2. rewrite wr64_elsewhere by assumption.
    now apply Hframe.
Qed.

Lemma pl_write_restore_brings_back_witness :
  rd64
    (snd (main bench_atoi bench_sscanf bench_sscanf
            ["mchbar_pl_write"; "--restore"; "0x0000000000df8140"] true
            Mchbar.desktop_sysfs true
            (snd (main bench_atoi bench_sscanf bench_sscanf
                    ["mchbar_pl_write"; "--set"; "150"; "170"] true
                    Mchbar.desktop_sysfs true bench_window)))) PL_OFF
  = rd64 bench_window PL_OFF.
Proof.
  apply (pl_write_restore_brings_back bench_atoi bench_sscanf bench_sscanf
           ["mchbar_pl_write"; "--set"; "150"; "170"] true true
           "mchbar_pl_write" "0x0000000000df8140" [] Mchbar.desktop_sysfs
           0xFEDC0000 bench_window);
    vm_compute; reflexivity.
Defined.

End Writer.

(** ** The scanner's loop *)

Section ScannerLoop.

Import Cli Scanner.
Local Open Scope Z_scope.

Lemma land_pow2_eqb (x k : Z) :
  0 <= k -> (Z.land x (2 ^ k) =? 0) = negb (Z.testbit x k).
Proof.
  intros Hk. destruct (Z.testbit x k) eqn:Hbit; cbn [negb].
  - apply Z.eqb_neq. intros Hzero.
    assert (H : Z.testbit (Z.land x (2 ^ k)) k = true).
    { rewrite Z.land_spec, Hbit, Z.pow2_bits_true by lia. reflexivity. }
    rewrite Hzero, Z.bits_0 in H. discriminate.
  - apply Z.eqb_eq, Z.bits_inj'. intros n Hn.
    rewrite Z.land_spec, Z.pow2_bits_eqb, Z.bits_0 by lia.
    destruct (Z.eqb_spec k n) as [<- | _];
      [now rewrite Hbit | apply andb_false_r].
Qed.

Lemma low_field (v : Z) :
  Z.land (u32 (Z.land v 0xffffffff)) 0x7FFF = decode_pl1 v.
Proof.
  apply Z.bits_inj'. intros n Hn. unfold u32.
  rewrite decode_pl1_testbit, Z.land_spec, testbit_mod_pow2, Z.land_spec,
    testbit_ones_32, testbit_ones_15 by lia.
  destruct (Z.ltb_spec n 32), (Z.ltb_spec n 15); try lia; simpl;
    rewrite ?andb_true_r, ?andb_false_r; reflexivity.
Qed.

Lemma high_field (v : Z) :
  Z.land (u32 (Z.shiftr v 32)) 0x7FFF = decode_pl2 v.
Proof.
  apply Z.bits_inj'. intros n Hn. unfold u32.
  rewrite decode_pl2_testbit, Z.land_spec, testbit_mod_pow2, Z.shiftr_spec,
    testbit_ones_15 by lia.
  destruct (Z.ltb_spec n 32), (Z.ltb_spec n 15); try lia; simpl;
    rewrite ?andb_true_r, ?andb_false_r; reflexivity.
Qed.

Lemma low_enable (v : Z) :
  (Z.land (u32 (Z.land v 0xffffffff)) 0x8000 =? 0) = negb (Z.testbit v 15).
Proof.
  change 0x8000 with (2 ^ 15). rewrite land_pow2_eqb by lia. unfold u32.
  rewrite testbit_mod_pow2, Z.land_spec, testbit_ones_32 by lia.
  change (15 <? 32) with true. cbn [andb]. now rewrite andb_true_r.
Qed.

Lemma high_enable (v : Z) :
  (Z.land (u32 (Z.shiftr v 32)) 0x8000 =? 0) = negb (Z.testbit v 47).
Proof.
  change 0x8000 with (2 ^ 15). rewrite land_pow2_eqb by lia. unfold u32.
  rewrite testbit_mod_pow2, Z.shiftr_spec by lia.
  change (15 <? 32) with true. change (15 + 32) with 47. reflexivity.
Qed.

Lemma matches_spec (require_enable : bool) (pl1_units pl2_units v : Z) :
  matches require_enable pl1_units pl2_units v = true
  <-> decode_pl1 v = pl1_units /\ decode_pl2 v = pl2_units
      /\ (require_enable = true ->
          Z.testbit v 15 = true /\ Z.testbit v 47 = true).
Proof.
  unfold matches. cbv zeta.
  rewrite low_field, high_field, low_enable, high_enable.
  destruct (Z.eqb_spec (decode_pl1 v) pl1_units) as [H1 | H1]; cbn [negb].
  2: { split; [discriminate | intros [H _]; contradiction]. }
  destruct (Z.eqb_spec (decode_pl2 v) pl2_units) as [H2 | H2]; cbn [negb].
  2: { split; [discriminate | intros (_ & H & _); contradiction]. }
  destruct require_enable, (Z.testbit v 15), (Z.testbit v 47);
    cbn [andb orb negb]; split; intros H; try discriminate; auto;
    destruct H as (_ & _ & H); destruct (H eq_refl); discriminate.
Qed.

Lemma scan_loop_spec (mmio : window) (require_enable : bool)
  (pl1_units pl2_units off v : Z) (fuel : nat) :
  forall start,
    In (off, v) (scan_loop fuel mmio require_enable pl1_units pl2_units
                   start)
    <-> exists k : nat,
          (k < fuel)%nat /\ off = start + 8 * Z.of_nat k
          /\ off + 8 <= MAP_SIZE /\ v = rd64 mmio off
          /\ matches require_enable pl1_units pl2_units v = true.
Proof.
  induction fuel as [| fuel IH]; intros start; cbn [scan_loop].
  - split; [intros [] | intros (k & Hk & _); lia].
  - destruct (Z.leb_spec (start + 8) MAP_SIZE) as [Hin | Hout].
    + rewrite in_app_iff, IH. split.
      * intros [Hhead | (k & Hk & -> & Hle & Hv & Hm)].
        -- exists 0%nat.
           destruct (matches _ _ _ (rd64 mmio start)) eqn:Hm;
             [| destruct Hhead].
           destruct Hhead as [[= <- <-] | []].
           change (Z.of_nat 0) with 0. rewrite Z.mul_0_r, Z.add_0_r.
           repeat split; try lia; auto.
        -- exists (S k). repeat split; try lia; auto.
      * intros ([| k] & Hk & -> & Hle & Hv & Hm).
        -- left. change (Z.of_nat 0) with 0 in *.
           rewrite Z.mul_0_r, Z.add_0_r in *. subst v. rewrite Hm.
           now left.
        -- right. exists k. repeat split; try lia; auto.
    + split; [intros [] | intros (k & _ & -> & Hle & _); lia].
Qed.

(** X24. The scanner reports exactly the registers that hold the wanted
    limits: an offset and value are printed as a match if and only if the
    offset is a multiple of 8 with the whole register inside the 2 MiB
    window, the value is what [rd64] reads there, its two power fields
    decode to the two wanted unit counts and, unless [--any] was given,
    both enable bits (15 and 47) are set. No aligned register of the
    window is skipped. *)
Theorem scan_reports_exactly_matching_registers (mmio : window)
  (require_enable : bool) (pl1_units pl2_units off v : Z) :
  In (off, v) (scan mmio require_enable pl1_units pl2_units)
  <-> 0 <= off /\ off + 8 <= MAP_SIZE /\ off mod 8 = 0
      /\ v = rd64 mmio off
      /\ decode_pl1 v = pl1_units /\ decode_pl2 v = pl2_units
      /\ (require_enable = true ->
          Z.testbit v 15 = true /\ Z.testbit v 47 = true).
Proof.
  unfold scan. rewrite scan_loop_spec.
  change (MAP_SIZE / 8 + 1) with 262145.
  split.
  - intros (k & Hk & -> & Hle & Hv & Hm).
    apply matches_spec in Hm.
    repeat split; try lia; try tauto.
    rewrite Z.add_0_l, Z.mul_comm. apply Z.mod_mul. lia.
  - intros (H0 & Hle & Hmod & Hv & Hm).
    exists (Z.to_nat (off / 8)).
    assert (Hoff : off = 8 * (off / 8)).
    { rewrite (Z.div_mod off 8) at 1 by lia. lia. }
    assert (Hmap : MAP_SIZE = 2097152) by reflexivity.
    repeat split.
    + lia.
    + rewrite Z2Nat.id by (apply Z.div_pos; lia). lia.
    + exact Hle.
    + exact Hv.
    + apply matches_spec. exact Hm.
Qed.

End ScannerLoop.

(** ** Messages of the helper process *)

Section HelperMessages.

Import HelperState HelperProcess.
Local Open Scope string_scope.
Local Open Scope Z_scope.

Lemma or_default_nonempty (text : string) :
  is_empty (if is_empty text then "Failed to run helper" else text) = false.
Proof. destruct text; reflexivity. Qed.

Lemma parse_state_message
  (toInt : string -> option Z) (toDouble : string -> option double)
  (toULongLong : string -> option Z) (out err : string) :
  parse_state toInt toDouble toULongLong out = Failed err ->
  is_empty err = false.
Proof.
  unfold parse_state.
  destruct (toInt _); [| intros [= <-]; reflexivity].
  destruct (toDouble _); [| intros [= <-]; reflexivity].
  destruct (toULongLong _); [| intros [= <-]; reflexivity].
  destruct (toULongLong _); [| intros [= <-]; reflexivity].
  discriminate.
Qed.

(** X25. No failure of a helper call comes without a message: whatever
    the process did, an error returned by [run_simple] or by [read_state]
    is a non-empty text. [run_simple] succeeds exactly when the process
    finished, exited normally and with code 0; and a helper that fails
    printing only white space on its error stream is reported as
    ["Failed to run helper"]. *)
Theorem helper_failures_carry_a_message (number : Z -> string)
  (toInt : string -> option Z) (toDouble : string -> option double)
  (toULongLong : string -> option Z) (p : Process) :
  (forall err, run_simple number p = Failed err -> is_empty err = false)
  /\ (forall err,
        read_state toInt toDouble toULongLong (round_trip number p)
        = Failed err ->
        is_empty err = false)
  /\ (run_simple number p = Replied tt
      <-> finished p = true /\ normal_exit p = true /\ exit_code p = 0)
  /\ (finished p = true -> normal_exit p && (exit_code p =? 0) = false ->
      is_empty (stderr p) = false -> is_empty (trimmed (stderr p)) = true ->
      run_simple number p = Failed "Failed to run helper").
Proof.
  unfold run_simple, round_trip, run_pkexec, read_state.
  destruct (finished p); cbn [negb].
  2: { cbn. repeat split; try discriminate.
       - intros err [= <-]. reflexivity.
       - intros err [= <-]. reflexivity.
       - intros (H & _). discriminate. }
  destruct (normal_exit p); cbn [negb orb andb].
  - destruct (Z.eqb_spec (exit_code p) 0) as [Hcode | Hcode];
      cbn [negb succeeded err_text out_text].
    + repeat split; try discriminate; auto.
      intros err. apply parse_state_message.
    + repeat split; try discriminate.
      * intros err [= <-]. apply or_default_nonempty.
      * intros err [= <-]. apply or_default_nonempty.
      * intros (_ & _ & H). contradiction.
      * intros _ _ Hne Hblank. rewrite Hne. cbn [negb]. now rewrite Hblank.
  - cbn [succeeded err_text out_text negb]. repeat split; try discriminate.
    + intros err [= <-]. apply or_default_nonempty.
    + intros err [= <-]. apply or_default_nonempty.
    + intros (_ & H & _). discriminate.
    + intros _ _ Hne Hblank. rewrite Hne. cbn [negb]. now rewrite Hblank.
Qed.

Lemma helper_failures_carry_a_message_witness :
  run_simple (fun _ => "1") blank_failure = Failed "Failed to run helper".
Proof.
  apply (helper_failures_carry_a_message (fun _ => "1") decimal
           decimal_double decimal blank_failure);
    reflexivity.
Defined.

End HelperMessages.

(** ** Profiles *)

Section ProfileFiles.

Import HelperState Tuning Profiles.
Local Open Scope string_scope.
Local Open Scope Z_scope.

Lemma ratio_survives_spin (n : Z) :
  1 <= n <= 255 -> ratio_survives n = true.
Proof.
  intros Hn. apply (block_sound ratio_survives 8 0).
  - vm_compute. reflexivity.
  - change (2 ^ Z.of_nat 8) with 256. lia.
Qed.

Lemma get_int_whole (obj : gmap string json) (key : string) (n : Z) :
  obj !! key = Some (JNumber (of_Z n)) -> 1 <= n <= 255 ->
  get_int obj key = Some n.
Proof.
  intros Hkey Hn. unfold get_int. rewrite Hkey.
  pose proof (ratio_survives_spin n Hn) as H. unfold ratio_survives in H.
  apply andb_prop in H as [Hnear Hsame].
  apply negb_true_iff in Hnear. cbv zeta. rewrite Hnear.
  apply Z.eqb_eq in Hsame. now rewrite Hsame.
Qed.

Lemma to_int_range (n : Z) : - 2 ^ 31 <= to_int n < 2 ^ 31.
Proof.
  unfold to_int.
  pose proof (Z.mod_pos_bound (n + 2 ^ 31) (2 ^ 32) ltac:(lia)). lia.
Qed.

(** X26. A profile taken from the window is read back unchanged from the
    object that saving it writes: for limits that are not [<= 0], ratios
    within the spin range 1..255 and any core offset, loading the saved
    object yields exactly the profile saved. Saving itself refuses a path
    that is empty or white space only. *)
Theorem profile_round_trip (toInt : json -> Z) (path saved_at : string)
  (p : Profile) :
  toInt (JNumber (of_Z 1)) = 1 ->
  fle (pl1_w p) zero = false -> fle (pl2_w p) zero = false ->
  1 <= p_ratio p <= 255 -> 1 <= e_ratio p <= 255 ->
  load_profile_file toInt path (Object (profile_object p saved_at))
  = Replied p
  /\ (is_empty (trimmed path) = false ->
      save_profile_file path p saved_at None None
      = Replied (profile_object p saved_at))
  /\ (is_empty (trimmed path) = true ->
      forall open_error commit_error,
        save_profile_file path p saved_at open_error commit_error
        = Failed "Profile path is empty.").
Proof.
  intros Hone H1 H2 Hp He.
  split; [| split].
  - unfold load_profile_file, version_of, get_double.
    assert (Hv : profile_object p saved_at !! "version"
                 = Some (JNumber (of_Z 1))).
    { unfold profile_object.
      rewrite !lookup_insert_ne by discriminate. apply lookup_insert_eq. }
    assert (Hpl1 : profile_object p saved_at !! "pl1_w"
                   = Some (JNumber (pl1_w p))).
    { unfold profile_object.
      rewrite !lookup_insert_ne by discriminate. apply lookup_insert_eq. }
    assert (Hpl2 : profile_object p saved_at !! "pl2_w"
                   = Some (JNumber (pl2_w p))).
    { unfold profile_object.
      rewrite !lookup_insert_ne by discriminate. apply lookup_insert_eq. }
    assert (Hpr : profile_object p saved_at !! "p_ratio"
                  = Some (JNumber (of_Z (p_ratio p)))).
    { unfold profile_object.
      rewrite !lookup_insert_ne by discriminate. apply lookup_insert_eq. }
    assert (Her : profile_object p saved_at !! "e_ratio"
                  = Some (JNumber (of_Z (e_ratio p)))).
    { unfold profile_object.
      rewrite !lookup_insert_ne by discriminate. apply lookup_insert_eq. }
    assert (Huv : profile_object p saved_at !! "core_uv_mv"
                  = Some (JNumber (core_uv_mv p))).
    { unfold profile_object.
      rewrite !lookup_insert_ne by discriminate. apply lookup_insert_eq. }
    rewrite Hv, Hone, Hpl1, H1, Hpl2, H2, Huv.
    rewrite (get_int_whole _ _ _ Hpr Hp), (get_int_whole _ _ _ Her He).
    change (1 =? 1) with true. cbn [negb].
    destruct (Z.leb_spec (p_ratio p) 0); [lia |].
    destruct (Z.leb_spec (e_ratio p) 0); [lia |].
    now destruct p.
  - intros Hpath. unfold save_profile_file. now rewrite Hpath.
  - intros Hpath oe ce. unfold save_profile_file. now rewrite Hpath.
Qed.

Lemma profile_round_trip_witness :
  load_profile_file whole_number "fast.json"
    (Object (profile_object bench_profile "2024-01-01T00:00:00Z"))
  = Replied bench_profile.
Proof.
  apply (profile_round_trip whole_number "fast.json"
           "2024-01-01T00:00:00Z" bench_profile);
    vm_compute; try reflexivity; split; discriminate.
Defined.

Lemma to_int_small (n : Z) : - 2 ^ 31 <= n < 2 ^ 31 -> to_int n = n.
Proof.
  intros Hn. unfold to_int. rewrite Z.mod_small by lia. lia.
Qed.

(** X27. A profile is loaded only from an object of version 1 whose five
    fields are numbers: both limits are not [<= 0] and, like the core
    offset, are the stored numbers themselves; each ratio is the stored
    number rounded to the nearest integer, which must lie within 0.001
    of it, and then narrowed to [int], and is positive after the
    narrowing. Where the rounded number fits an [int] the ratio is that
    number, and so within 0.001 of the one stored; beyond that the
    narrowing wraps: a stored P ratio of [2 ^ 32 + 5] is loaded as the
    ratio 5. A file that cannot be opened or is no object, and an object
    without a number under one of the five keys, fail with a message. *)
Theorem loaded_profile_is_valid (toInt : json -> Z) (path : string) :
  (forall (doc : document) (p : Profile),
     load_profile_file toInt path doc = Replied p ->
     exists obj raw_p raw_e,
       doc = Object obj
       /\ version_of toInt obj = 1
       /\ obj !! "pl1_w" = Some (JNumber (pl1_w p))
       /\ obj !! "pl2_w" = Some (JNumber (pl2_w p))
       /\ obj !! "core_uv_mv" = Some (JNumber (core_uv_mv p))
       /\ obj !! "p_ratio" = Some (JNumber raw_p)
       /\ obj !! "e_ratio" = Some (JNumber raw_e)
       /\ p_ratio p = to_int (llround raw_p)
       /\ e_ratio p = to_int (llround raw_e)
       /\ flt d0_001 (fabs (fsub raw_p (of_Z (llround raw_p)))) = false
       /\ flt d0_001 (fabs (fsub raw_e (of_Z (llround raw_e)))) = false
       /\ fle (pl1_w p) zero = false /\ fle (pl2_w p) zero = false
       /\ 1 <= p_ratio p < 2 ^ 31 /\ 1 <= e_ratio p < 2 ^ 31
       /\ (- 2 ^ 31 <= llround raw_p < 2 ^ 31 ->
           p_ratio p = llround raw_p
           /\ flt d0_001 (fabs (fsub raw_p (of_Z (p_ratio p)))) = false)
       /\ (- 2 ^ 31 <= llround raw_e < 2 ^ 31 ->
           e_ratio p = llround raw_e
           /\ flt d0_001 (fabs (fsub raw_e (of_Z (e_ratio p)))) = false))
  /\ (forall (doc : document) (err : string),
        (doc = NoOpen err \/ doc = NotObject err) ->
        exists msg, load_profile_file toInt path doc = Failed msg)
  /\ (forall saved_at : string,
        toInt (JNumber (of_Z 1)) = 1 ->
        p_ratio wide_profile = 2 ^ 32 + 5
        /\ load_profile_file toInt path
             (Object (profile_object wide_profile saved_at))
           = Replied wrapped_profile
        /\ p_ratio wrapped_profile = 5).
Proof.
  split; [| split].
  - intros doc p.
    destruct doc as [e | e | obj]; cbn [load_profile_file];
      [discriminate | discriminate |].
    destruct (Z.eqb_spec (version_of toInt obj) 1) as [Hv | Hv];
      cbn [negb]; [| discriminate].
    unfold get_double, get_int.
    destruct (obj !! "pl1_w") as [[pl1 | |] |] eqn:Hpl1; try discriminate.
    destruct (fle pl1 zero) eqn:Hpos1; [discriminate |].
    destruct (obj !! "pl2_w") as [[pl2 | |] |] eqn:Hpl2; try discriminate.
    destruct (fle pl2 zero) eqn:Hpos2; [discriminate |].
    destruct (obj !! "p_ratio") as [[raw_p | |] |] eqn:Hpr;
      try discriminate.
    cbv zeta.
    destruct (flt d0_001 (fabs (fsub raw_p _))) eqn:Hnear_p;
      [discriminate |].
    destruct (Z.leb_spec (to_int (llround raw_p)) 0) as [| Hp];
      [discriminate |].
    destruct (obj !! "e_ratio") as [[raw_e | |] |] eqn:Her;
      try discriminate.
    destruct (flt d0_001 (fabs (fsub raw_e _))) eqn:Hnear_e;
      [discriminate |].
    destruct (Z.leb_spec (to_int (llround raw_e)) 0) as [| He];
      [discriminate |].
    destruct (obj !! "core_uv_mv") as [[uv | |] |] eqn:Huv;
      try discriminate.
    intros [= <-]. cbn [pl1_w pl2_w p_ratio e_ratio core_uv_mv].
    exists obj, raw_p, raw_e.
    pose proof (to_int_range (llround raw_p)).
    pose proof (to_int_range (llround raw_e)).
    do 15 (split; [auto; lia |]).
    split; intros Hfits; rewrite (to_int_small _ Hfits); auto.
  - intros doc err [-> | ->]; cbn [load_profile_file]; eauto.
  - intros saved_at Hone.
    split; [reflexivity | split; [| reflexivity]].
    unfold load_profile_file, version_of, get_double, get_int.
    assert (Hv : profile_object wide_profile saved_at !! "version"
                 = Some (JNumber (of_Z 1))).
    { unfold profile_object.
      rewrite !lookup_insert_ne by discriminate. apply lookup_insert_eq. }
    assert (Hpl1 : profile_object wide_profile saved_at !! "pl1_w"
                   = Some (JNumber (of_Z 150))).
    { unfold profile_object.
      rewrite !lookup_insert_ne by discriminate. apply lookup_insert_eq. }
    assert (Hpl2 : profile_object wide_profile saved_at !! "pl2_w"
                   = Some (JNumber (of_Z 170))).
    { unfold profile_object.
      rewrite !lookup_insert_ne by discriminate. apply lookup_insert_eq. }
    assert (Hpr : profile_object wide_profile saved_at !! "p_ratio"
                  = Some (JNumber (of_Z 4294967301))).
    { unfold profile_object.
      rewrite !lookup_insert_ne by discriminate. apply lookup_insert_eq. }
    assert (Her : profile_object wide_profile saved_at !! "e_ratio"
                  = Some (JNumber (of_Z 30))).
    { unfold profile_object.
      rewrite !lookup_insert_ne by discriminate. apply lookup_insert_eq. }
    assert (Huv : profile_object wide_profile saved_at !! "core_uv_mv"
                  = Some (JNumber (of_Z (- 50)))).
    { unfold profile_object.
      rewrite !lookup_insert_ne by discriminate. apply lookup_insert_eq. }
    rewrite Hv, Hone, Hpl1, Hpl2, Hpr, Her, Huv.
    vm_compute. reflexivity.
Qed.

Lemma loaded_profile_is_valid_witness :
  (exists raw_p,
     profile_object bench_profile "" !! "p_ratio" = Some (JNumber raw_p)
     /\ p_ratio bench_profile = llround raw_p
     /\ flt d0_001 (fabs (fsub raw_p (of_Z 40))) = false)
  /\ load_profile_file whole_number "fast.json"
       (Object (profile_object wide_profile ""))
     = Replied wrapped_profile.
Proof.
  destruct (loaded_profile_is_valid whole_number "fast.json")
    as (Hvalid & _ & Hwide).
  split.
  - destruct (Hvalid (Object (profile_object bench_profile ""))
                bench_profile)
      as (obj & raw_p & raw_e & [= <-] & _ & _ & _ & _ & Hpr & _ & Hto
          & _ & _ & _ & _ & _ & Hpos & _ & Hfits & _);
      [vm_compute; reflexivity |].
    exists raw_p. split; [exact Hpr |]. apply Hfits.
    assert (Hraw : raw_p = of_Z 40).
    { assert (Hl : profile_object bench_profile "" !! "p_ratio"
                   = Some (JNumber (of_Z 40))).
      { unfold profile_object.
        rewrite !lookup_insert_ne by discriminate. apply lookup_insert_eq. }
      congruence. }
    rewrite Hraw.
    replace (llround (of_Z 40)) with 40 by (vm_compute; reflexivity). lia.
  - apply Hwide. vm_compute. reflexivity.
Defined.

End ProfileFiles.

(** ** The start-up guard *)

Section StartupGuard.

Import HelperState Profiles Autostart.
Local Open Scope string_scope.
Local Open Scope Z_scope.

(** X28. The guard against a start that did not finish. When the guard
    file of an earlier start is found, the automatic start is switched
    off and saved, the start-up profile is neither loaded into the window
    nor applied (only the fallback profile can be), and the guard is
    removed before returning. Without a guard file, the guard is left in
    place exactly when it could be written, the profile loaded and
    applying it succeeded; after a failed apply it is removed. With the
    backend not ready or the automatic start off nothing happens. *)
Theorem startup_guard_protocol (s : Start) :
  let t := handle_startup_apply s in
  (backend_ready s && startup_enabled s = false -> t = [])
  /\ (backend_ready s = true -> startup_enabled s = true ->
      guard_exists s = true ->
      enabled_after true t = false
      /\ guard_after true t = false
      /\ In SavePreferences t
      /\ ~ In (WriteGuard true) t
      /\ (forall path, In path (applied_paths t) ->
            path = trimmed (fallback_path s)
            /\ startup_use_fallback s = true
            /\ is_empty path = false))
  /\ (backend_ready s = true -> startup_enabled s = true ->
      guard_exists s = false ->
      enabled_after true t = true
      /\ (guard_after false t = true
          <-> write_guard_error s = None
              /\ is_empty (trimmed (profile_path s)) = false
              /\ exists profile,
                   load s (trimmed (profile_path s)) = Replied profile
                   /\ apply_actions s profile = true)
      /\ (forall path, In path (applied_paths t) ->
            path = trimmed (profile_path s))).
Proof.
  intros t. subst t. unfold handle_startup_apply.
  split; [| split].
  - destruct (backend_ready s), (startup_enabled s); cbn;
      try discriminate; reflexivity.
  - intros -> -> ->. cbn [negb].
    destruct (is_empty (guard_warning s)); cbn [negb];
      destruct (startup_use_fallback s); cbn [andb];
      try destruct (is_empty (trimmed (fallback_path s))) eqn:Hpath;
      cbn [negb];
      try destruct (load s (trimmed (fallback_path s))) as [fb | err];
      try destruct (apply_actions s fb);
      cbn; repeat split; auto; try tauto;
      try (intros H; repeat (destruct H as [H | H]; try discriminate);
           contradiction);
      match goal with
      | H : _ \/ False |- _ => destruct H as [<- | []]
      end; auto.
  - intros -> -> ->. cbn [negb].
    destruct (is_empty (trimmed (profile_path s))) eqn:Hpath.
    { cbn. repeat split; try discriminate; try contradiction.
      intros (_ & H & _). discriminate. }
    destruct (load s (trimmed (profile_path s))) as [profile | err].
    2: { cbn. repeat split; try discriminate; try contradiction.
         intros (_ & _ & profile & H & _). discriminate. }
    destruct (write_guard_error s) as [werr |],
      (apply_actions s profile) eqn:Hok; cbn;
      repeat split; try discriminate; try tauto;
      try (intros (H & _); discriminate);
      try (intros (_ & _ & q & [= <-] & H); congruence);
      try (intros path [<- | []]; reflexivity).
    exists profile. auto.
Qed.

Lemma startup_guard_protocol_witness :
  let t := handle_startup_apply crashed_start in
  enabled_after true t = false
  /\ guard_after true t = false
  /\ In SavePreferences t
  /\ ~ In (WriteGuard true) t
  /\ (forall path, In path (applied_paths t) ->
        path = trimmed (fallback_path crashed_start)
        /\ startup_use_fallback crashed_start = true
        /\ is_empty path = false).
Proof.
  apply (proj1 (proj2 (startup_guard_protocol crashed_start)));
    reflexivity.
Defined.

End StartupGuard.

(** ** Answers typed at the prompts *)

Section Answers.

Import HelperState Console.
Local Open Scope string_scope.

Lemma chomp_line (line : string) :
  no_newline line = true -> chomp (line +:+ String newline "") = line.
Proof.
  induction line as [| c line IH]; [reflexivity |].
  cbn [no_newline]. intros H. apply andb_prop in H as [Hc Hline].
  change (String c line +:+ String newline "")
    with (String c (line +:+ String newline "")).
  cbn [chomp]. rewrite (IH Hline).
  destruct line; reflexivity.
Qed.

Lemma chomp_no_newline (buf : string) :
  no_newline buf = true -> chomp buf = buf.
Proof.
  induction buf as [| c buf IH]; [reflexivity |].
  cbn [no_newline chomp]. intros H. apply andb_prop in H as [Hc Hbuf].
  apply negb_true_iff in Hc. rewrite Hc, (IH Hbuf).
  destruct buf; reflexivity.
Qed.

Lemma take_line_short (n : nat) :
  forall line rest,
    no_newline line = true -> (String.length line < n)%nat ->
    take_line n (line +:+ String newline rest)
    = (line +:+ String newline "", rest).
Proof.
  induction n as [| n IH]; intros line rest Hline Hlen; [lia |].
  destruct line as [| c line].
  - cbn. reflexivity.
  - cbn [no_newline] in Hline. apply andb_prop in Hline as [Hc Hline].
    apply negb_true_iff in Hc.
    change (String c line +:+ String newline rest)
      with (String c (line +:+ String newline rest)).
    cbn [take_line]. rewrite Hc, (IH line rest Hline).
    + reflexivity.
    + cbn [String.length] in Hlen. lia.
Qed.

Lemma take_line_long (n : nat) :
  forall line rest,
    no_newline line = true -> (n <= String.length line)%nat ->
    exists kept left,
      line = kept +:+ left /\ String.length kept = n
      /\ no_newline kept = true
      /\ take_line n (line +:+ String newline rest)
         = (kept, left +:+ String newline rest).
Proof.
  induction n as [| n IH]; intros line rest Hline Hlen.
  - exists "", line. repeat split.
  - destruct line as [| c line]; [cbn in Hlen; lia |].
    cbn [no_newline] in Hline. apply andb_prop in Hline as [Hc Hline].
    cbn [String.length] in Hlen.
    destruct (IH line rest Hline ltac:(lia))
      as (kept & left & -> & Hk & Hn & Htake).
    exists (String c kept), left. repeat split.
    + cbn [String.length]. now rewrite Hk.
    + cbn [no_newline]. now rewrite Hc, Hn.
    + change (String c (kept +:+ left) +:+ String newline rest)
        with (String c ((kept +:+ left) +:+ String newline rest)).
      cbn [take_line]. apply negb_true_iff in Hc. now rewrite Hc, Htake.
Qed.

Lemma starts_with_y_append (kept left : string) :
  kept <> "" -> starts_with_y (kept +:+ left) = starts_with_y kept.
Proof. destruct kept; [congruence | reflexivity]. Qed.

(** X29. [confirm] answers yes exactly when the line typed starts with
    [y] or [Y], and takes at most 15 characters of it. A line of up to 14
    characters is consumed together with its line break; of a longer line
    only the first 15 characters are read, and the rest of it, line break
    included, is left to be read as the answer to the next prompt. At the
    end of the input the answer is no. *)
Theorem confirm_reads_at_most_15_characters (line rest : string) :
  no_newline line = true ->
  ((String.length line <= 14)%nat ->
   confirm (line +:+ String newline rest) = (starts_with_y line, rest))
  /\ ((15 <= String.length line)%nat ->
      exists kept left,
        line = kept +:+ left /\ String.length kept = 15%nat
        /\ confirm (line +:+ String newline rest)
           = (starts_with_y line, left +:+ String newline rest))
  /\ confirm "" = (false, "").
Proof.
  intros Hline. split; [| split; [| reflexivity]].
  - intros Hlen. unfold confirm, read_line, fgets.
    destruct (line +:+ String newline rest) eqn:Hin.
    { destruct line; discriminate. }
    rewrite <- Hin. change (16 - 1)%nat with 15%nat.
    rewrite (take_line_short 15 line rest Hline) by lia.
    now rewrite (chomp_line line Hline).
  - intros Hlen.
    destruct (take_line_long 15 line rest Hline Hlen)
      as (kept & left & -> & Hk & Hn & Htake).
    exists kept, left. repeat split; [exact Hk |].
    unfold confirm, read_line, fgets.
    destruct ((kept +:+ left) +:+ String newline rest) eqn:Hin.
    { destruct kept; [discriminate Hk | discriminate]. }
    rewrite <- Hin in Htake |- *. change (16 - 1)%nat with 15%nat.
    rewrite Htake.
    rewrite (chomp_no_newline kept Hn).
    rewrite starts_with_y_append; [reflexivity |].
    intros ->. discriminate Hk.
Qed.

Lemma confirm_reads_at_most_15_characters_witness :
  exists kept left,
    "yes, go ahead now" = kept +:+ left /\ String.length kept = 15%nat
    /\ confirm ("yes, go ahead now" +:+ String newline "n")
       = (starts_with_y "yes, go ahead now",
          left +:+ String newline "n").
Proof.
  apply (proj1 (proj2 (confirm_reads_at_most_15_characters
                         "yes, go ahead now" "n" eq_refl))).
  vm_compute. lia.
Defined.

End Answers.
